(** * audiomoth_server.py: a shallow embedding and its properties

    The development follows [AudioMothRECS_LaLuna/audiomoth_server.py]:

    - [Str]: the Python string operations the script uses
      ([str.endswith], [in], [str.lower], [str.split], [urllib.parse.unquote]);
    - [FS]: the served directory as a tree of entries, and the part of
      [pathlib.Path.glob] / [rglob] the script relies on;
    - [Launch]: [find_html_report] and [count_wav_files];
    - [Cli]: the [--port] block of the script and [main], as the calls they
      make ([print], [os.chdir], the making of the server, [webbrowser.open],
      [serve_forever]) and the way they end;
    - [Http]: the request handler.  [AudioMothHTTPRequestHandler] overrides
      five methods of [http.server.SimpleHTTPRequestHandler]; the inherited
      methods it calls through [super()] or that call back into the overrides
      are modelled after CPython's [http/server.py] in a state-and-exception
      monad whose state holds the header buffer, what reached the socket, what
      was printed, and the file-system calls made.

    Strings are sequences of bytes ([string]); a [str] is identified with its
    UTF-8 encoding.

    What the model leaves out: symbolic links and permissions in the served
    directory (every entry is a readable file or directory); HTTP/0.9
    requests, for which the base class writes neither status line nor
    headers; request lines the base class rejects before it calls a
    [do_] method (a method other than GET, HEAD and OPTIONS, a malformed
    line); request paths whose percent-escapes do not decode to UTF-8.
    The peer of a connection is a parameter: it stays connected, or closes
    after a number of writes with an exception of a given class.  In
    [main], [int], the directories of the machine, the making of the server
    and the browser are parameters, and the interrupt of the user arrives
    while [serve_forever] runs. *)

From Stdlib Require Import String Ascii List Bool Arith ZArith Lia.
Import ListNotations.
Local Open Scope list_scope.
Local Open Scope string_scope.

(* ===================================================================== *)
(** ** Python string operations *)
(* ===================================================================== *)

Module Str.

(** [s.endswith(suf)] *)
Fixpoint endswith (s suf : string) : bool :=
  if String.eqb s suf then true
  else match s with
       | EmptyString => false
       | String _ s' => endswith s' suf
       end.

(** [s.endswith((suf1, suf2, ...))] *)
Definition endswith_any (s : string) (sufs : list string) : bool :=
  existsb (endswith s) sufs.

(** [sub in s] *)
Fixpoint contains (sub s : string) : bool :=
  if String.prefix sub s then true
  else match s with
       | EmptyString => false
       | String _ s' => contains sub s'
       end.

(** [any(sub in s for sub in subs)] *)
Definition contains_any (subs : list string) (s : string) : bool :=
  existsb (fun sub => contains sub s) subs.

(** [str.lower]: the letters A-Z.  Python also lowers non-ASCII letters,
    which are multi-byte here and left alone; none of them lowers to one of
    the characters [.], [w], [a], [v] the script compares with. *)
Definition lower_ascii (c : ascii) : ascii :=
  let n := nat_of_ascii c in
  if ((65 <=? n) && (n <=? 90))%nat then ascii_of_nat (n + 32) else c.

Fixpoint lower (s : string) : string :=
  match s with
  | EmptyString => EmptyString
  | String c s' => String (lower_ascii c) (lower s')
  end.

(** [s.split(sep)] for a one-character separator: empty pieces are kept. *)
Fixpoint split (sep : ascii) (s : string) : list string :=
  match s with
  | EmptyString => [EmptyString]
  | String c s' =>
      if Ascii.eqb c sep then EmptyString :: split sep s'
      else match split sep s' with
           | [] => [String c EmptyString]
           | w :: ws => String c w :: ws
           end
  end.

(** [s.split(sep, 1)[0]]: the part before the first separator. *)
Fixpoint before (sep : ascii) (s : string) : string :=
  match s with
  | EmptyString => EmptyString
  | String c s' => if Ascii.eqb c sep then EmptyString else String c (before sep s')
  end.

(** [sep.join(ws)] *)
Fixpoint join (sep : string) (ws : list string) : string :=
  match ws with
  | [] => EmptyString
  | [w] => w
  | w :: ws' => w ++ sep ++ join sep ws'
  end.

Definition hexval (c : ascii) : option nat :=
  let n := nat_of_ascii c in
  if ((48 <=? n) && (n <=? 57))%nat then Some (n - 48)
  else if ((65 <=? n) && (n <=? 70))%nat then Some (n - 55)
  else if ((97 <=? n) && (n <=? 102))%nat then Some (n - 87)
  else None.

(** [urllib.parse.unquote]: every [%XX] with two hexadecimal digits becomes
    the byte XX; a [%] not followed by two hexadecimal digits stays. *)
Fixpoint unquote (s : string) : string :=
  match s with
  | EmptyString => EmptyString
  | String c t =>
      if Ascii.eqb c "%" then
        match t with
        | String h1 (String h2 rest) =>
            match hexval h1, hexval h2 with
            | Some a, Some b => String (ascii_of_nat (16 * a + b)) (unquote rest)
            | _, _ => String c (unquote t)
            end
        | _ => String c (unquote t)
        end
      else String c (unquote t)
  end.

Definition dquote : string := String "034" EmptyString.

Definition crlf : string := String "013" (String "010" EmptyString).

(** [str(n)] for a non-negative integer. *)
Definition digit (n : nat) : ascii := ascii_of_nat (48 + n mod 10).

Fixpoint str_nat_aux (fuel n : nat) (acc : string) : string :=
  match fuel with
  | O => acc
  | S fuel' =>
      let acc' := String (digit n) acc in
      if (n <? 10)%nat then acc' else str_nat_aux fuel' (n / 10) acc'
  end.

Definition str_nat (n : nat) : string := str_nat_aux (S n) n EmptyString.

(** [s.rstrip()]: trailing ASCII white space removed. *)
Definition is_space (c : ascii) : bool :=
  let n := nat_of_ascii c in
  (((9 <=? n) && (n <=? 13)) || ((28 <=? n) && (n <=? 32)))%nat.

Fixpoint rstrip (s : string) : string :=
  match s with
  | EmptyString => EmptyString
  | String c s' =>
      match rstrip s' with
      | EmptyString => if is_space c then EmptyString else String c EmptyString
      | r => String c r
      end
  end.

Definition nonempty (s : string) : bool :=
  match s with EmptyString => false | _ => true end.

(** [posixpath.normpath] *)
Definition normpath (path : string) : string :=
  if negb (nonempty path) then "." else
  let initial_slashes :=
    if String.prefix "/" path then
      if String.prefix "//" path && negb (String.prefix "///" path) then 2 else 1
    else 0 in
  let step (new_comps : list string) (comp : string) : list string :=
    if String.eqb comp "" || String.eqb comp "." then new_comps
    else if negb (String.eqb comp "..")
            || ((initial_slashes =? 0)%nat && negb (existsb (fun _ => true) new_comps))
            || String.eqb (last new_comps "") ".."
    then (new_comps ++ [comp])%list
    else removelast new_comps in
  let comps := fold_left step (split "/" path) [] in
  let p := String.concat "" (repeat "/" initial_slashes) ++ join "/" comps in
  if nonempty p then p else ".".

(** [os.path.join(a, b)] *)
Definition os_path_join (a b : string) : string :=
  if String.prefix "/" b then b
  else if negb (nonempty a) || endswith a "/" then a ++ b
  else a ++ "/" ++ b.

(** The extension [posixpath.splitext] splits off: the part of the last
    component from its last dot on, unless only dots come before that dot. *)
Fixpoint ext_from (seen : bool) (s : string) : option string :=
  match s with
  | EmptyString => None
  | String c s' =>
      match ext_from (seen || negb (Ascii.eqb c ".")) s' with
      | Some e => Some e
      | None => if Ascii.eqb c "." && seen then Some s else None
      end
  end.

Definition splitext_ext (p : string) : string :=
  match ext_from false (last (split "/" p) "") with
  | Some e => e
  | None => ""
  end.

(** [s] without the prefix [pre], when it has it. *)
Fixpoint strip_prefix (pre s : string) : option string :=
  match pre with
  | EmptyString => Some s
  | String a pre' =>
      match s with
      | EmptyString => None
      | String b s' => if Ascii.eqb a b then strip_prefix pre' s' else None
      end
  end.

(** [c in s] for one character. *)
Fixpoint occurs (c : ascii) (s : string) : bool :=
  match s with
  | EmptyString => false
  | String d s' => Ascii.eqb c d || occurs c s'
  end.

(** [all(P(c) for c in s)] and [c.isdigit()] for ASCII. *)
Fixpoint forall_chars (P : ascii -> bool) (s : string) : bool :=
  match s with
  | EmptyString => true
  | String c s' => P c && forall_chars P s'
  end.

Definition is_digit (c : ascii) : bool :=
  ((48 <=? nat_of_ascii c) && (nat_of_ascii c <=? 57))%nat.

(** The values the handler passes to [format % args]. *)
Inductive pyval : Type :=
| PStr (s : string)
| PInt (n : nat).

(** [str(v)] *)
Definition pystr (v : pyval) : string :=
  match v with PStr s => s | PInt n => str_nat n end.

Inductive fmt_result : Type :=
| Formatted (s : string)
| FmtTypeError
| FmtValueError.

Definition fmt_prepend (s : string) (r : fmt_result) : fmt_result :=
  match r with Formatted t => Formatted (s ++ t) | e => e end.

(** [format % args] for the conversions the handler's callers use, [%s],
    [%d] and [%%]: too few or too many arguments and [%d] of a string are a
    [TypeError]; any other conversion counts as an unsupported format
    character, a [ValueError]. *)
Fixpoint pyformat (format : string) (args : list pyval) : fmt_result :=
  match format with
  | EmptyString => match args with [] => Formatted "" | _ => FmtTypeError end
  | String c t =>
      if Ascii.eqb c "%" then
        match t with
        | EmptyString => FmtValueError
        | String d t' =>
            if Ascii.eqb d "%" then fmt_prepend "%" (pyformat t' args)
            else if Ascii.eqb d "s" then
              match args with
              | a :: args' => fmt_prepend (pystr a) (pyformat t' args')
              | [] => FmtTypeError
              end
            else if Ascii.eqb d "d" then
              match args with
              | PInt n :: args' => fmt_prepend (str_nat n) (pyformat t' args')
              | _ => FmtTypeError
              end
            else FmtValueError
        end
      else fmt_prepend (String c EmptyString) (pyformat t args)
  end.

(** [str(z)] for an integer. *)
Definition str_int (z : Z) : string :=
  if (z <? 0)%Z then "-" ++ str_nat (Z.to_nat (- z)) else str_nat (Z.to_nat z).

(** [s * n] *)
Fixpoint times (s : string) (n : nat) : string :=
  match n with
  | O => EmptyString
  | S n' => s ++ times s n'
  end.

(** The line feed that a string literal writes as a backslash and [n]. *)
Definition nl : string := String "010" EmptyString.

End Str.

(* ===================================================================== *)
(** ** The served directory *)
(* ===================================================================== *)

Module FS.

(** A directory entry is a regular file (modification time, content) or a
    directory; the entries of a directory come in the order [os.scandir]
    yields them. *)
#[local] Set Warnings "-register-all".
Inductive node : Type :=
| File (mtime : Z) (data : string)
| Dir (entries : list (string * node)).

Definition is_dir (n : node) : bool :=
  match n with Dir _ => true | File _ _ => false end.

Definition is_file (n : node) : bool := negb (is_dir n).

Definition scandir (n : node) : list (string * node) :=
  match n with Dir es => es | File _ _ => [] end.

(** [fnmatch] as [pathlib] compiles a pattern component on POSIX: case
    sensitive, [*] matches any run of characters (a leading dot included),
    [?] any one character.  The script's patterns use no bracket class. *)
Fixpoint fnmatch (pat : string) : string -> bool :=
  match pat with
  | EmptyString => fun s => match s with EmptyString => true | _ => false end
  | String p pat' =>
      if Ascii.eqb p "*" then
        fix star (s : string) : bool :=
          fnmatch pat' s ||
          match s with EmptyString => false | String _ s' => star s' end
      else
        fun s =>
          match s with
          | EmptyString => false
          | String c s' => (Ascii.eqb p "?" || Ascii.eqb p c) && fnmatch pat' s'
          end
  end.

(** [pathlib]'s selectors for a pattern without [**]: a path is the list of
    its parts.  Every component but the last selects directories only; the
    last one selects any entry whose name matches, file or directory. *)
Fixpoint select_from (parts : list string) (parent_path : list string)
    (parent : node) : list (list string) :=
  match parts with
  | [] => [parent_path]
  | pat :: rest =>
      flat_map
        (fun e : string * node =>
           let dironly := match rest with [] => false | _ => true end in
           if (negb dironly || is_dir (snd e)) && fnmatch pat (fst e)
           then select_from rest (parent_path ++ [fst e])%list (snd e)
           else [])
        (scandir parent)
  end.

(** The parts of a pattern string: empty components and [.] are dropped. *)
Definition pattern_parts (pattern : string) : list string :=
  filter (fun w => negb (String.eqb w "" || String.eqb w "."))
         (Str.split "/" pattern).

(** [Path('.').glob(pattern)] *)
Definition glob (pattern : string) (d : node) : list (list string) :=
  if is_dir d then select_from (pattern_parts pattern) [] d else [].

(** [_RecursiveWildcardSelector._iterate_directories]: the directory itself,
    then, entry by entry, the directories below it. *)
Fixpoint iterate_directories (path : list string) (n : node) {struct n}
  : list (list string * node) :=
  (path, n) ::
  match n with
  | File _ _ => []
  | Dir es =>
      (fix go (es : list (string * node)) : list (list string * node) :=
         match es with
         | [] => []
         | (name, c) :: es' =>
             ((if is_dir c then iterate_directories (path ++ [name]) c else [])
              ++ go es')%list
         end) es
  end.

(** [Path('.').rglob(pattern)] for a one-component pattern: the matches of
    the pattern in every directory of the tree, no path yielded twice. *)
Definition rglob (pattern : string) (d : node) : list (list string) :=
  if is_dir d then
    nodup (list_eq_dec string_dec)
      (flat_map (fun pn => select_from (pattern_parts pattern) (fst pn) (snd pn))
                (iterate_directories [] d))
  else [].

(** [p.name] and [str(p)] of a relative path. *)
Definition path_name (p : list string) : string := last p "".
Definition path_str (p : list string) : string := Str.join "/" p.

(** [reach d p n]: the parts [p] lead from the directory [d] to the entry
    [n], every part but the last naming a directory. *)
Inductive reach : node -> list string -> node -> Prop :=
| reach_here : forall n, reach n [] n
| reach_down : forall es name c p n,
    In (name, c) es -> reach c p n -> reach (Dir es) (name :: p) n.

(** In every directory of the tree the names are distinct. *)
Fixpoint unique_names (n : node) : Prop :=
  match n with
  | File _ _ => True
  | Dir es =>
      NoDup (map fst es)
      /\ (fix all (es : list (string * node)) : Prop :=
            match es with
            | [] => True
            | (_, c) :: es' => unique_names c /\ all es'
            end) es
  end.

(** The paths, from the directory [n], of the entries at any depth whose
    name [m] accepts: those of the directory, then those of the directories
    below it. *)
Fixpoint relative_matches (m : string -> bool) (n : node) : list (list string) :=
  match n with
  | File _ _ => []
  | Dir es =>
      (flat_map (fun e : string * node => if m (fst e) then [[fst e]] else []) es
       ++ (fix below (es : list (string * node)) : list (list string) :=
             match es with
             | [] => []
             | (name, c) :: es' =>
                 (if is_dir c then map (cons name) (relative_matches m c) else [])
                 ++ below es'
             end) es)%list
  end.

(** Every part of [p] matches the pattern part at its place. *)
Fixpoint parts_match (parts p : list string) : bool :=
  match parts, p with
  | [], [] => true
  | pat :: parts', name :: p' => fnmatch pat name && parts_match parts' p'
  | _, _ => false
  end.

End FS.

(* ===================================================================== *)
(** ** The launch helper *)
(* ===================================================================== *)

Module Launch.
Import FS.

Definition patterns : list string :=
  ["audiomoth_reporte.html"; "reporte.html"; "*audiomoth*.html"].

(** The first loop of [find_html_report]: the patterns in the directory. *)
Fixpoint search_root (pats : list string) (d : node) : option string :=
  match pats with
  | [] => None
  | pattern :: pats' =>
      match glob pattern d with
      | m :: _ => Some (path_name m)
      | [] => search_root pats' d
      end
  end.

(** The second loop: for each pattern, one level down, then two. *)
Fixpoint search_subdirs (pats : list string) (d : node) : option string :=
  match pats with
  | [] => None
  | pattern :: pats' =>
      match glob ("*/" ++ pattern) d with
      | m :: _ => Some (path_str m)
      | [] =>
          match glob ("*/*/" ++ pattern) d with
          | m :: _ => Some (path_str m)
          | [] => search_subdirs pats' d
          end
      end
  end.

Definition find_html_report (d : node) : option string :=
  match search_root patterns d with
  | Some r => Some r
  | None => search_subdirs patterns d
  end.

Definition count_wav_files (d : node) : nat :=
  length (rglob "*.wav" d) + length (rglob "*.WAV" d).

(** What the claims speak of. *)

(** A name matches one of the report patterns. *)
Definition report_name (name : string) : bool :=
  existsb (fun pattern => fnmatch pattern name) patterns.

(** The matches in the directory, pattern by pattern. *)
Definition root_matches (d : node) : list string :=
  flat_map (fun pattern => map path_name (glob pattern d)) patterns.

(** The matches below the directory: pattern by pattern, and for each
    pattern one level down before two levels down. *)
Definition subdir_matches (d : node) : list string :=
  flat_map
    (fun pattern =>
       map path_str (glob ("*/" ++ pattern) d ++ glob ("*/*/" ++ pattern) d)%list)
    patterns.

(** The matches at one depth below the directory, whatever the pattern. *)
Definition matches_one_down (d : node) : list string :=
  flat_map (fun pattern => map path_str (glob ("*/" ++ pattern) d)) patterns.

(** The entries of the tree, files and directories alike, whose name ends
    in [suffix]. *)
Fixpoint entries_named (suffix : string) (n : node) : nat :=
  match n with
  | File _ _ => 0
  | Dir es =>
      (fix go (es : list (string * node)) : nat :=
         match es with
         | [] => 0
         | (name, c) :: es' =>
             (if Str.endswith name suffix then 1 else 0)
             + entries_named suffix c + go es'
         end) es
  end.

(** The regular files of the tree whose name ends in [.wav] or [.WAV]. *)
Fixpoint wav_files (n : node) : nat :=
  match n with
  | File _ _ => 0
  | Dir es =>
      (fix go (es : list (string * node)) : nat :=
         match es with
         | [] => 0
         | (name, c) :: es' =>
             (if is_file c && Str.endswith_any name [".wav"; ".WAV"] then 1 else 0)
             + wav_files c + go es'
         end) es
  end.

(** The directories of the tree whose name ends in [.wav] or [.WAV]. *)
Fixpoint wav_dirs (n : node) : nat :=
  match n with
  | File _ _ => 0
  | Dir es =>
      (fix go (es : list (string * node)) : nat :=
         match es with
         | [] => 0
         | (name, c) :: es' =>
             (if is_dir c && Str.endswith_any name [".wav"; ".WAV"] then 1 else 0)
             + wav_dirs c + go es'
         end) es
  end.

End Launch.


(* ===================================================================== *)
(** ** The request handler *)
(* ===================================================================== *)

Module Http.
Import FS.

(** *** Requests

    A request as [parse_request] leaves it in [self.command], [self.path],
    [self.request_version] and [self.headers].  The model covers the methods
    [handle_one_request] finds a [do_] method for and the HTTP/1.x versions
    (the wire protocol of the spec). *)
Inductive method : Type := GET | HEAD | OPTIONS.
Inductive version : Type := HTTP_1_0 | HTTP_1_1.

Record request : Type := {
  command : method;
  path : string;
  request_version : version;
  headers : list (string * string)
}.

Definition str_method (m : method) : string :=
  match m with GET => "GET" | HEAD => "HEAD" | OPTIONS => "OPTIONS" end.

Definition str_version (v : version) : string :=
  match v with HTTP_1_0 => "HTTP/1.0" | HTTP_1_1 => "HTTP/1.1" end.

(** [self.requestline] *)
Definition requestline (r : request) : string :=
  str_method (command r) ++ " " ++ path r ++ " " ++ str_version (request_version r).

(** [name in self.headers] and [self.headers[name]]: header names compare
    without regard to case, the first occurrence wins. *)
Definition headers_get (name : string) (hs : list (string * string))
  : option string :=
  match find (fun h => String.eqb (Str.lower (fst h)) (Str.lower name)) hs with
  | Some h => Some (snd h)
  | None => None
  end.

(** *** Library functions left abstract

    What the handler takes from the Python library without the script
    depending on how it is computed. *)
Record pylib : Type := {
  (** [self.version_string()] *)
  version_string : string;
  (** [self.date_time_string(timestamp)]; [None] is the current time *)
  date_time_string : option Z -> string;
  (** [email.utils.parsedate_to_datetime] as seconds since the epoch, when
      the value parses and is in UTC *)
  parsedate_utc : string -> option Z;
  (** [mimetypes.guess_type(path)[0]] *)
  mimetypes_guess_type : string -> option string;
  (** [urllib.parse.urlsplit(path).path] *)
  urlsplit_path : string -> string;
  (** the [Location] of the redirect: the URL with [/] added to its path *)
  redirect_url : string -> string;
  (** the page [list_directory] renders for [self.path] and the entries *)
  listing_page : string -> list (string * bool) -> string;
  (** [error_message_format % {code, message, explain}], encoded *)
  error_page : nat -> string -> string -> string
}.

(** *** State and effects *)

Inductive exn : Type :=
| BrokenPipeError
| ConnectionResetError
| OtherOSError
| ValueError.

(** The peer either stays connected or closes the transport after accepting
    [after] more writes; the write that follows raises [e]. *)
Inductive peer : Type :=
| Connected
| Closes (after : nat) (e : exn).

(** One [wfile.write]: a block of header lines (written joined) or a piece
    of the body. *)
Inductive chunk : Type :=
| Head (lines : list string)
| Body (data : string).

Inductive fs_call : Type :=
| Isdir (p : string)
| Isfile (p : string)
| Open (p : string)
| Listdir (p : string).

Record hstate : Type := {
  headers_buffer : list string;
  close_connection : bool;
  wfile : list chunk;
  stdout : list string;
  fs_calls : list fs_call;
  sock : peer
}.

Definition M (A : Type) : Type := hstate -> (A + exn) * hstate.

Definition ret {A} (a : A) : M A := fun st => (inl a, st).

Definition bind {A B} (m : M A) (k : A -> M B) : M B :=
  fun st =>
    match m st with
    | (inl a, st') => k a st'
    | (inr e, st') => (inr e, st')
    end.

Definition raise {A} (e : exn) : M A := fun st => (inr e, st).

(** [try: m except <classes>: h] where [caught] tells the classes. *)
Definition try_except {A} (m : M A) (caught : exn -> bool) (h : M A) : M A :=
  fun st =>
    match m st with
    | (inl a, st') => (inl a, st')
    | (inr e, st') => if caught e then h st' else (inr e, st')
    end.

Declare Scope monad_scope.
Delimit Scope monad_scope with monad.
Notation "x <- m ;; k" := (bind m (fun x => k))
  (at level 61, m at next level, right associativity) : monad_scope.
Notation "m ;; k" := (bind m (fun _ => k))
  (at level 61, right associativity) : monad_scope.
Local Open Scope monad_scope.

Definition push_header (line : string) : M unit :=
  fun st =>
    (inl tt, {| headers_buffer := (headers_buffer st ++ [line])%list;
                close_connection := close_connection st;
                wfile := wfile st; stdout := stdout st;
                fs_calls := fs_calls st; sock := sock st |}).

Definition get_headers : M (list string) :=
  fun st => (inl (headers_buffer st), st).

Definition clear_headers : M unit :=
  fun st =>
    (inl tt,
     {| headers_buffer := []; close_connection := close_connection st;
        wfile := wfile st; stdout := stdout st;
        fs_calls := fs_calls st; sock := sock st |}).

Definition set_close_connection (b : bool) : M unit :=
  fun st =>
    (inl tt, {| headers_buffer := headers_buffer st; close_connection := b;
                wfile := wfile st; stdout := stdout st;
                fs_calls := fs_calls st; sock := sock st |}).

(** [self.wfile.write(...)] *)
Definition write (c : chunk) : M unit :=
  fun st =>
    let sent (p : peer) :=
      {| headers_buffer := headers_buffer st;
         close_connection := close_connection st;
         wfile := (wfile st ++ [c])%list; stdout := stdout st;
         fs_calls := fs_calls st; sock := p |} in
    match sock st with
    | Connected => (inl tt, sent Connected)
    | Closes (S n) e => (inl tt, sent (Closes n e))
    | Closes O e => (inr e, st)
    end.

(** [print(line)] *)
Definition print (line : string) : M unit :=
  fun st =>
    (inl tt, {| headers_buffer := headers_buffer st;
                close_connection := close_connection st;
                wfile := wfile st; stdout := (stdout st ++ [line])%list;
                fs_calls := fs_calls st; sock := sock st |}).

Definition fs_call_made (c : fs_call) : M unit :=
  fun st =>
    (inl tt, {| headers_buffer := headers_buffer st;
                close_connection := close_connection st;
                wfile := wfile st; stdout := stdout st;
                fs_calls := (fs_calls st ++ [c])%list; sock := sock st |}).

(** *** The handler for one request

    [lib], the served directory ([self.directory], the working directory,
    and what it holds) and the request are fixed. *)
Section Handler.

Variable lib : pylib.
Variable directory : string.
Variable root : node.
Variable req : request.

(** **** File-system calls: each is recorded. *)

Fixpoint walk (n : node) (comps : list string) : option node :=
  match comps with
  | [] => Some n
  | c :: cs =>
      match find (fun e : string * node => String.eqb (fst e) c) (scandir n) with
      | Some e => walk (snd e) cs
      | None => None
      end
  end.

(** The entry a path below [directory] names; a path with a trailing slash
    names directories only. *)
Definition resolve (p : string) : option node :=
  match Str.strip_prefix directory p with
  | None => None
  | Some rest =>
      match walk root (filter Str.nonempty (Str.split "/" rest)) with
      | Some n => if Str.endswith p "/" && is_file n then None else Some n
      | None => None
      end
  end.

Definition os_path_isdir (p : string) : M bool :=
  fs_call_made (Isdir p) ;;
  ret (match resolve p with Some n => is_dir n | None => false end).

Definition os_path_isfile (p : string) : M bool :=
  fs_call_made (Isfile p) ;;
  ret (match resolve p with Some n => is_file n | None => false end).

(** [open(p, 'rb')] with [os.fstat]: the modification time and the content,
    or [None] for [OSError]. *)
Definition os_open (p : string) : M (option (Z * string)) :=
  fs_call_made (Open p) ;;
  ret (match resolve p with
       | Some (File mtime data) => Some (mtime, data)
       | _ => None
       end).

(** [os.listdir(p)], each name with [os.path.isdir] of the entry. *)
Definition os_listdir (p : string) : M (option (list (string * bool))) :=
  fs_call_made (Listdir p) ;;
  ret (match resolve p with
       | Some (Dir es) => Some (map (fun e => (fst e, is_dir (snd e))) es)
       | _ => None
       end).

(** **** [BaseHTTPRequestHandler]

    The methods below call [self.end_headers], [self.log_message],
    [self.log_error] and [self.guess_type], which the script overrides:
    these are the variables of the section. *)
Section Base.

Variable self_end_headers : M unit.
Variable self_log_message : string -> list Str.pyval -> M unit.
Variable self_log_error : string -> list Str.pyval -> M unit.
Variable self_guess_type : string -> string.

Definition protocol_version : string := "HTTP/1.0".
Definition error_content_type : string := "text/html;charset=utf-8".

(** [self.responses]: the short and long message of a status. *)
Definition responses (code : nat) : option (string * string) :=
  if (code =? 200)%nat then Some ("OK", "Request fulfilled, document follows")
  else if (code =? 204)%nat then Some ("No Content", "Request fulfilled, nothing follows")
  else if (code =? 206)%nat then Some ("Partial Content", "Partial content follows")
  else if (code =? 301)%nat
  then Some ("Moved Permanently", "Object moved permanently -- see URI list")
  else if (code =? 304)%nat
  then Some ("Not Modified", "Document has not changed since given time")
  else if (code =? 404)%nat then Some ("Not Found", "Nothing matches the given URI")
  else if (code =? 416)%nat
  then Some ("Requested Range Not Satisfiable", "Cannot satisfy request range")
  else None.

Definition status_line (code : nat) (message : string) : string :=
  protocol_version ++ " " ++ Str.str_nat code ++ " " ++ message ++ Str.crlf.

Definition header_line (keyword value : string) : string :=
  keyword ++ ": " ++ value ++ Str.crlf.

Definition log_request (code : nat) : M unit :=
  self_log_message (Str.dquote ++ "%s" ++ Str.dquote ++ " %s %s")
    [Str.PStr (requestline req); Str.PStr (Str.str_nat code); Str.PStr "-"].

Definition base_log_error (format : string) (args : list Str.pyval) : M unit :=
  self_log_message format args.

Definition send_response_only (code : nat) (message : option string) : M unit :=
  let message :=
    match message with
    | Some m => m
    | None => match responses code with Some (short, _) => short | None => "" end
    end in
  push_header (status_line code message).

Definition send_header (keyword value : string) : M unit :=
  push_header (header_line keyword value) ;;
  if String.eqb (Str.lower keyword) "connection" then
    if String.eqb (Str.lower value) "close" then set_close_connection true
    else if String.eqb (Str.lower value) "keep-alive" then set_close_connection false
    else ret tt
  else ret tt.

Definition send_response (code : nat) (message : option string) : M unit :=
  log_request code ;;
  send_response_only code message ;;
  send_header "Server" (version_string lib) ;;
  send_header "Date" (date_time_string lib None).

Definition flush_headers : M unit :=
  lines <- get_headers ;;
  write (Head lines) ;;
  clear_headers.

Definition base_end_headers : M unit :=
  push_header Str.crlf ;;
  flush_headers.

Definition send_error (code : nat) (message : string) : M unit :=
  let explain := match responses code with Some (_, long) => long | None => "???" end in
  self_log_error "code %d, message %s" [Str.PInt code; Str.PStr message] ;;
  send_response code (Some message) ;;
  send_header "Connection" "close" ;;
  if (200 <=? code)%nat && negb ((code =? 204) || (code =? 205) || (code =? 304))%nat
  then
    let body := error_page lib code message explain in
    send_header "Content-Type" error_content_type ;;
    send_header "Content-Length" (Str.str_nat (String.length body)) ;;
    self_end_headers ;;
    match command req with
    | HEAD => ret tt
    | _ => if Str.nonempty body then write (Body body) else ret tt
    end
  else self_end_headers.

(** **** [SimpleHTTPRequestHandler] *)

Definition translate_path (p : string) : string :=
  let p := Str.before "?" p in
  let p := Str.before "#" p in
  let trailing_slash := Str.endswith (Str.rstrip p) "/" in
  let p := Str.unquote p in
  let p := Str.normpath p in
  let words := filter Str.nonempty (Str.split "/" p) in
  let translated :=
    fold_left
      (fun acc word =>
         if String.eqb word "." || String.eqb word ".." then acc
         else Str.os_path_join acc word)
      words directory in
  if trailing_slash then translated ++ "/" else translated.

Definition extensions_map : list (string * string) :=
  [(".gz", "application/gzip"); (".Z", "application/octet-stream");
   (".bz2", "application/x-bzip2"); (".xz", "application/x-xz")].

Definition extensions_map_get (ext : string) : option string :=
  match find (fun kv => String.eqb (fst kv) ext) extensions_map with
  | Some kv => Some (snd kv)
  | None => None
  end.

Definition base_guess_type (p : string) : string :=
  let ext := Str.splitext_ext p in
  match extensions_map_get ext with
  | Some t => t
  | None =>
      match extensions_map_get (Str.lower ext) with
      | Some t => t
      | None =>
          match mimetypes_guess_type lib p with
          | Some guess => if Str.nonempty guess then guess else "application/octet-stream"
          | None => "application/octet-stream"
          end
      end
  end.

Definition list_directory (p : string) : M (option string) :=
  l <- os_listdir p ;;
  match l with
  | None => send_error 404 "No permission to list directory" ;; ret None
  | Some entries =>
      let encoded := listing_page lib (path req) entries in
      send_response 200 None ;;
      send_header "Content-type" "text/html; charset=utf-8" ;;
      send_header "Content-Length" (Str.str_nat (String.length encoded)) ;;
      self_end_headers ;;
      ret (Some encoded)
  end.

(** The part of [send_head] from [ctype = self.guess_type(path)] on. *)
Definition send_file_head (p : string) : M (option string) :=
  let ctype := self_guess_type p in
  if Str.endswith p "/" then send_error 404 "File not found" ;; ret None
  else
    f <- os_open p ;;
    match f with
    | None => send_error 404 "File not found" ;; ret None
    | Some (mtime, data) =>
        let not_modified :=
          match headers_get "If-Modified-Since" (headers req),
                headers_get "If-None-Match" (headers req) with
          | Some v, None =>
              match parsedate_utc lib v with
              | Some ims => (mtime <=? ims)%Z
              | None => false
              end
          | _, _ => false
          end in
        if not_modified then
          send_response 304 None ;; self_end_headers ;; ret None
        else
          send_response 200 None ;;
          send_header "Content-type" ctype ;;
          send_header "Content-Length" (Str.str_nat (String.length data)) ;;
          send_header "Last-Modified" (date_time_string lib (Some mtime)) ;;
          self_end_headers ;;
          ret (Some data)
    end.

Definition send_head : M (option string) :=
  let p := translate_path (path req) in
  isdir <- os_path_isdir p ;;
  if isdir then
    if negb (Str.endswith (urlsplit_path lib (path req)) "/") then
      send_response 301 None ;;
      send_header "Location" (redirect_url lib (path req)) ;;
      send_header "Content-Length" "0" ;;
      self_end_headers ;;
      ret None
    else
      i1 <- os_path_isfile (Str.os_path_join p "index.html") ;;
      if i1 then send_file_head (Str.os_path_join p "index.html")
      else
        i2 <- os_path_isfile (Str.os_path_join p "index.htm") ;;
        if i2 then send_file_head (Str.os_path_join p "index.htm")
        else list_directory p
  else send_file_head p.

Definition COPY_BUFSIZE : N := 65536.

(** [source.read(k)]: up to [k] bytes and what is left. *)
Fixpoint read (k : N) (s : string) : string * string :=
  match s with
  | EmptyString => (EmptyString, EmptyString)
  | String c s' =>
      if N.eqb k 0 then (EmptyString, s)
      else let (buf, rest) := read (N.pred k) s' in (String c buf, rest)
  end.

(** [shutil.copyfileobj(source, self.wfile)]: the loop runs while [read]
    returns bytes, at most once per byte of the source. *)
Fixpoint copyfileobj (fuel : nat) (source : string) : M unit :=
  match fuel with
  | O => ret tt
  | S fuel' =>
      let (buf, rest) := read COPY_BUFSIZE source in
      if Str.nonempty buf then write (Body buf) ;; copyfileobj fuel' rest
      else ret tt
  end.

Definition copyfile (source : string) : M unit :=
  copyfileobj (S (String.length source)) source.

Definition base_do_GET : M unit :=
  f <- send_head ;;
  match f with
  | Some source => copyfile source
  | None => ret tt
  end.

Definition do_HEAD : M unit :=
  f <- send_head ;;
  ret tt.

End Base.

(** **** [AudioMothHTTPRequestHandler] *)

Definition audio_suffixes : list string := [".wav"; ".WAV"; ".mp3"; ".MP3"].

Definition end_headers : M unit :=
  send_header "Access-Control-Allow-Origin" "*" ;;
  send_header "Access-Control-Allow-Methods" "GET, OPTIONS" ;;
  send_header "Access-Control-Allow-Headers" "*" ;;
  (if Str.endswith_any (path req) audio_suffixes then
     send_header "Cache-Control" "max-age=3600" ;;
     send_header "Accept-Ranges" "bytes"
   else ret tt) ;;
  base_end_headers.

Definition guess_type (p : string) : string :=
  let mimetype := base_guess_type p in
  if Str.endswith (Str.lower p) ".wav" then "audio/wav" else mimetype.

Definition logged_extensions : list string :=
  [".wav"; ".WAV"; ".html"; ".mp3"; ".MP3"].

Definition log_message (format : string) (args : list Str.pyval) : M unit :=
  match args with
  | [] => ret tt
  | a :: _ =>
      let request_path := Str.pystr a in
      if Str.contains_any logged_extensions request_path then
        match Str.pyformat format args with
        | Str.Formatted message => print ("[Servidor] " ++ Str.unquote message)
        | Str.FmtTypeError => ret tt
        | Str.FmtValueError => raise ValueError
        end
      else ret tt
  end.

Definition log_error (format : string) (args : list Str.pyval) : M unit :=
  match args with
  | a :: _ =>
      let error_msg := Str.pystr a in
      if Str.contains "Broken pipe" error_msg
         || Str.contains "Connection reset" error_msg
      then ret tt
      else base_log_error log_message format args
  | [] => base_log_error log_message format args
  end.

Definition do_OPTIONS : M unit :=
  send_response log_message 200 None ;;
  end_headers.

Definition is_disconnect (e : exn) : bool :=
  match e with
  | BrokenPipeError | ConnectionResetError => true
  | _ => false
  end.

Definition do_GET : M unit :=
  if String.eqb (path req) "/favicon.ico" then
    send_response log_message 204 None ;;
    end_headers
  else
    try_except (base_do_GET end_headers log_message log_error guess_type)
               is_disconnect (ret tt).

(** The method [handle_one_request] calls for the request. *)
Definition handle : M unit :=
  match command req with
  | GET => do_GET
  | HEAD => do_HEAD end_headers log_message log_error guess_type
  | OPTIONS => do_OPTIONS
  end.

End Handler.

(** The state in which the handler starts on a request: nothing buffered,
    written or printed, no file-system call made; [parse_request] leaves
    [close_connection] set, the protocol version of the server being
    HTTP/1.0. *)
Definition fresh (p : peer) : hstate := {|
  headers_buffer := []; close_connection := true; wfile := [];
  stdout := []; fs_calls := []; sock := p
|}.

(** *** What the claims speak of *)

Definition cors_lines : list string :=
  [header_line "Access-Control-Allow-Origin" "*";
   header_line "Access-Control-Allow-Methods" "GET, OPTIONS";
   header_line "Access-Control-Allow-Headers" "*"].

Definition audio_lines : list string :=
  [header_line "Cache-Control" "max-age=3600";
   header_line "Accept-Ranges" "bytes"].

(** The lines the overridden [end_headers] adds to the buffered ones. *)
Definition closing_lines (req : request) : list string :=
  (cors_lines
   ++ (if Str.endswith_any (path req) audio_suffixes then audio_lines else [])
   ++ [Str.crlf])%list.

(** Every block of header lines that reached the socket satisfies [P]. *)
Definition every_head (P : list string -> Prop) (w : list chunk) : Prop :=
  forall block, In (Head block) w -> P block.

(** The block holds every line of [ls], or none of them. *)
Definition has_lines (ls block : list string) : Prop :=
  forall l, In l ls -> In l block.

Definition lacks_lines (ls block : list string) : Prop :=
  forall l, In l ls -> ~ In l block.

(** No line of the block is one that [bad] tells. *)
Definition no_line (bad : string -> bool) (block : list string) : Prop :=
  forall l, In l block -> bad l = false.

(** The line is one of [ls]. *)
Definition among (ls : list string) (l : string) : bool :=
  existsb (String.eqb l) ls.

(** The line is the status line of a 206 response. *)
Definition partial_content (l : string) : bool :=
  String.prefix (protocol_version ++ " 206 ") l.

(** The bytes of the body that reached the socket. *)
Fixpoint body_of (w : list chunk) : string :=
  match w with
  | [] => EmptyString
  | Head _ :: w' => body_of w'
  | Body data :: w' => data ++ body_of w'
  end.

(** The line [log_request] prints for the request and a status. *)
Definition request_log_line (req : request) (code : nat) : string :=
  "[Servidor] " ++ Str.dquote ++ str_method (command req) ++ " "
  ++ Str.unquote (path req) ++ " " ++ str_version (request_version req)
  ++ Str.dquote ++ " " ++ Str.str_nat code ++ " -".

(** What handling the request prints when it answers with status [code]:
    the log line of the request if its path holds a logged extension. *)
Definition request_log (req : request) (code : nat) : list string :=
  if Str.contains_any logged_extensions (path req)
  then [request_log_line req code] else [].

Definition nothing_printed (st : hstate) : Prop := stdout st = [].

Definition request_logged (req : request) (st : hstate) : Prop :=
  exists code, stdout st = request_log req code.

(** Every printed line is the log line of the request, for some status. *)
Definition only_request_lines (req : request) (out : list string) : Prop :=
  forall line, In line out -> exists code, line = request_log_line req code.

(** The request without its headers of a given name. *)
Definition without_header (name : string) (req : request) : request := {|
  command := command req;
  path := path req;
  request_version := request_version req;
  headers :=
    filter (fun h => negb (String.eqb (Str.lower (fst h)) (Str.lower name)))
           (headers req)
|}.

(** The lines the inherited methods put in the header buffer. *)
Definition base_keywords : list string :=
  ["Server"; "Date"; "Connection"; "Content-Type"; "Content-type";
   "Content-Length"; "Last-Modified"; "Location"].

(** The statuses the inherited methods and the overrides answer with. *)
Definition status_codes : list nat := [200; 204; 301; 304; 404].

Inductive base_line : string -> Prop :=
| base_status : forall code message,
    In code status_codes -> base_line (status_line code message)
| base_header : forall keyword value,
    In keyword base_keywords -> base_line (header_line keyword value).

(** *** Reasoning about the monad *)

(** [m] keeps the state property [I], however it ends. *)
Definition preserves {A} (I : hstate -> Prop) (m : M A) : Prop :=
  forall st, I st -> I (snd (m st)).

(** From a state with [P], [m] returns normally in a state with [Q]. *)
Definition steps {A} (P : hstate -> Prop) (m : M A) (Q : hstate -> Prop) : Prop :=
  forall st, P st -> (exists a, fst (m st) = inl a) /\ Q (snd (m st)).

(** From a state with [P], [m] ends, normally or not, in a state with [Q]. *)
Definition reaches {A} (P : hstate -> Prop) (m : M A) (Q : hstate -> Prop) : Prop :=
  forall st, P st -> Q (snd (m st)).

(** The exception the peer's disconnect raises, when it is to disconnect. *)
Definition peer_exn (p : peer) : option exn :=
  match p with Connected => None | Closes _ e => Some e end.

(** The peer accepts one more write. *)
Definition accepts_write (p : peer) : bool :=
  match p with Closes O _ => false | _ => true end.

(** [m] raises nothing but what a write to the socket raises, and leaves
    the kind of disconnect as it is. *)
Definition disciplined {A} (m : M A) : Prop :=
  forall st,
    peer_exn (sock (snd (m st))) = peer_exn (sock st)
    /\ forall e, fst (m st) = inr e -> peer_exn (sock st) = Some e.

(** The stages of a response: nothing buffered or written yet; the status
    line buffered; the header block written, and pieces of the body only
    after it. *)
Definition unsent (st : hstate) : Prop :=
  wfile st = [] /\ headers_buffer st = [] /\ accepts_write (sock st) = true.

Definition status_buffered (st : hstate) : Prop :=
  wfile st = []
  /\ (exists code message rest,
        headers_buffer st = status_line code message :: rest)
  /\ accepts_write (sock st) = true.

Definition is_response (w : list chunk) : Prop :=
  exists code message block bodies,
    w = Head (status_line code message :: block) :: map Body bodies.

Definition responded (st : hstate) : Prop := is_response (wfile st).

(** The spellings of the extension [.wav]. *)
Definition wav_spellings : list string :=
  [".wav"; ".waV"; ".wAv"; ".wAV"; ".Wav"; ".WaV"; ".WAv"; ".WAV"].

(** *** What the further properties speak of *)

(** The test of [send_head] on [If-Modified-Since] and [If-None-Match], for
    a file last modified at [mtime]. *)
Definition not_modified (lib : pylib) (req : request) (mtime : Z) : bool :=
  match headers_get "If-Modified-Since" (headers req),
        headers_get "If-None-Match" (headers req) with
  | Some v, None =>
      match parsedate_utc lib v with
      | Some ims => (mtime <=? ims)%Z
      | None => false
      end
  | _, _ => false
  end.

(** The requests that reach the inherited [send_head]: HEAD, and GET of
    another path than [/favicon.ico]. *)
Definition served_method (req : request) : Prop :=
  match command req with
  | GET => path req <> "/favicon.ico"
  | HEAD => True
  | OPTIONS => False
  end.

(** The requests that run inside the [try] of [do_GET]. *)
Definition guarded (req : request) : bool :=
  match command req with
  | GET => negb (String.eqb (path req) "/favicon.ico")
  | _ => false
  end.

(** The peer after a write it accepted. *)
Definition after_write (p : peer) : peer :=
  match p with Closes (S n) e => Closes n e | _ => p end.

(** A block of header lines: lines of the inherited methods, then the lines
    the overridden [end_headers] adds. *)
Definition block_shape (req : request) (block : list string) : Prop :=
  exists lines, block = (lines ++ closing_lines req)%list /\ Forall base_line lines.

(** The path a file-system call is about, and the paths [send_head] asks
    about for the request. *)
Definition fs_path (c : fs_call) : string :=
  match c with Isdir p | Isfile p | Open p | Listdir p => p end.

Definition looked_up (directory : string) (req : request) : list string :=
  let p := translate_path directory (path req) in
  [p; Str.os_path_join p "index.html"; Str.os_path_join p "index.htm"].

(** [os.path.isfile] is false of the path. *)
Definition no_file_at (directory : string) (root : node) (p : string) : Prop :=
  match resolve directory root p with
  | Some n => is_file n = false
  | None => True
  end.

(** A path component that names an entry: not empty, without [/], and
    neither [.] nor [..]. *)
Definition plain_word (w : string) : Prop :=
  Str.nonempty w = true /\ Str.occurs "/" w = false /\ w <> "." /\ w <> "..".

(** From a state with [P], [m] raises [e]. *)
Definition raises {A} (P : hstate -> Prop) (m : M A) (e : exn) : Prop :=
  forall st, P st -> fst (m st) = inr e.

(** The peer is gone: the next write raises [e]. *)
Definition gone (e : exn) (st : hstate) : Prop := sock st = Closes 0 e.

End Http.

(* ===================================================================== *)
(** ** The command line and [main] *)
(* ===================================================================== *)

Module Cli.
Import FS Launch.

(** What the script does besides computing: the calls in the order it makes
    them. *)
Inductive event : Type :=
| Print (line : string)
| Chdir (directory : string)
| TCPServer (port : Z)
| WebbrowserOpen (url : string)
| ServeForever.

(** An [OSError]: [e.errno] and [str(e)]. *)
Record oserror : Type := {
  errno : option Z;
  str_error : string
}.

(** What [socketserver.TCPServer(("", port), handler)] does: it listens, or
    raises an [OSError], or raises something else (an [OverflowError] for a
    port outside 0..65535). *)
Inductive bound : Type :=
| Listens
| RaisesOSError (e : oserror)
| RaisesOther.

(** How the script ends: [sys.exit(status)], or an exception that nothing
    catches. *)
Inductive ending : Type :=
| Exit (status : nat)
| Uncaught.

(** What the script takes from the machine it runs on. *)
Record world : Type := {
  (** [int(s)]; [None] is [ValueError] *)
  py_int : string -> option Z;
  (** for a path that [os.path.isdir] accepts, the working directory
      [os.chdir] leads to: its name as [os.getcwd] prints it, and what it
      holds *)
  directory_at : string -> option (string * node);
  (** the working directory the script is started in *)
  cwd : string * node;
  tcp_server : Z -> bound;
  (** [webbrowser.open(url)] returns ([true]) or raises *)
  webbrowser_open : string -> bool
}.

(** [x in l] *)
Definition mem (x : string) (l : list string) : bool :=
  existsb (String.eqb x) l.

(** [l.index(x)]; [None] is [ValueError] *)
Fixpoint index (x : string) (l : list string) : option nat :=
  match l with
  | [] => None
  | y :: l' => if String.eqb y x then Some 0 else option_map S (index x l')
  end.

(** [enumerate(l, start)] *)
Fixpoint enumerate (start : nat) (l : list string) : list (nat * string) :=
  match l with
  | [] => []
  | x :: l' => (start, x) :: enumerate (S start) l'
  end.

Definition PORT : Z := 8000.

(** The [--port] block under [if __name__ == "__main__"]: the port and the
    arguments left for [main], or [None] when [IndexError] or [ValueError]
    is caught. *)
Definition parse_port (int : string -> option Z) (argv : list string)
  : option (Z * list string) :=
  if mem "--port" argv then
    match index "--port" argv with
    | None => None
    | Some port_idx =>
        match nth_error argv (port_idx + 1) with
        | None => None
        | Some value =>
            match int value with
            | None => None
            | Some port =>
                match argv with
                | [] => None
                | argv0 :: rest =>
                    Some (port,
                          argv0 ::
                          map snd
                            (filter
                               (fun ia : nat * string =>
                                  negb ((fst ia =? port_idx)%nat
                                        || (fst ia =? port_idx + 1)%nat))
                               (enumerate 1 rest)))
                end
            end
        end
    end
  else Some (PORT, argv).

Definition usage : list event * ending :=
  ([Print "❌ Error: Uso incorrecto de --port";
    Print "   Ejemplo: python servidor_audiomoth.sh --port 8080"],
   Exit 1).

(** [if html_report:] *)
Definition found (html_report : option string) : bool :=
  match html_report with
  | Some r => Str.nonempty r
  | None => false
  end.

Definition report_of (html_report : option string) : string :=
  match html_report with Some r => r | None => "None" end.

Definition rule : string := Str.times "=" 70.

(** The lines printed before the server is made. *)
Definition summary (port : Z) (here : string * node) : list string :=
  let wav_count := count_wav_files (snd here) in
  let html_report := find_html_report (snd here) in
  ([rule;
    "🎵 Servidor AudioMoth - Visualizador de Grabaciones";
    rule;
    (Str.nl ++ "📁 Directorio: " ++ fst here)%string;
    ("📊 Archivos WAV encontrados: " ++ Str.str_nat wav_count)%string]
   ++ (if found html_report
       then [("📄 Reporte encontrado: " ++ report_of html_report)%string]
       else ["⚠️  No se encontró reporte HTML. Genera uno primero con:";
             "   ./metadata_audiomoth.sh <directorio>"])
   ++ [(Str.nl ++ "🌐 Iniciando servidor en puerto " ++ Str.str_int port
        ++ "...")%string])%list.

Definition url_of (port : Z) (html_report : option string) : string :=
  "http://localhost:" ++ Str.str_int port ++ "/" ++ report_of html_report.

Definition instructions : list string :=
  [Str.nl ++ "📖 Instrucciones:";
   "   • El servidor está ejecutándose";
   "   • Puedes navegar por los archivos desde el navegador";
   "   • Los archivos WAV se pueden reproducir directamente";
   "   • Presiona Ctrl+C para detener el servidor";
   Str.nl ++ rule].

(** The body of the [with] statement; [serve_forever] returns by the
    [KeyboardInterrupt] of the user and in no other way. *)
Definition serving (w : world) (port : Z) (here : string * node) : list event :=
  let html_report := find_html_report (snd here) in
  ([Print ("✅ Servidor activo en: http://localhost:" ++ Str.str_int port
           ++ "/")%string]
   ++ (if found html_report then
         let url := url_of port html_report in
         [Print (Str.nl ++ "🎯 Visualizador: " ++ url)%string;
          Print (Str.nl ++ "💡 Abriendo navegador automáticamente...")%string;
          WebbrowserOpen url]
         ++ (if webbrowser_open w url then []
             else [Print "   (No se pudo abrir automáticamente)"])
       else [])
   ++ map Print instructions
   ++ [ServeForever])%list.

Definition address_in_use (e : oserror) : bool :=
  match errno e with Some n => (n =? 48)%Z | None => false end
  || Str.contains "Address already in use" (str_error e).

(** [main] from the banner on, in the working directory [here]. *)
Definition start (w : world) (port : Z) (here : string * node)
  : list event * ending :=
  let before := (map Print (summary port here) ++ [TCPServer port])%list in
  match tcp_server w port with
  | Listens =>
      ((before ++ serving w port here
        ++ [Print (Str.nl ++ Str.nl
                   ++ "👋 Servidor detenido. ¡Hasta luego!")%string])%list,
       Exit 0)
  | RaisesOSError e =>
      if address_in_use e then
        ((before
          ++ map Print
               [(Str.nl ++ "❌ Error: El puerto " ++ Str.str_int port
                 ++ " ya está en uso.")%string;
                (Str.nl ++ "Soluciones:")%string;
                ("   1. Detén el proceso que usa el puerto "
                 ++ Str.str_int port)%string;
                "   2. Usa otro puerto: python servidor_audiomoth.py --port 8080"])%list,
         Exit 1)
      else (before, Uncaught)
  | RaisesOther => (before, Uncaught)
  end.

Definition main (w : world) (port : Z) (argv : list string)
  : list event * ending :=
  match argv with
  | _ :: directory :: _ =>
      match directory_at w directory with
      | None =>
          ([Print ("❌ Error: '" ++ directory ++ "' no es un directorio válido")],
           Exit 1)
      | Some here =>
          let (events, e) := start w port here in
          (Chdir directory :: events, e)
      end
  | _ => start w port (cwd w)
  end.

(** The script, run with the arguments [argv]. *)
Definition script (w : world) (argv : list string) : list event * ending :=
  match parse_port (py_int w) argv with
  | None => usage
  | Some (port, argv') => main w port argv'
  end.

(** What the extra properties speak of. *)

(** The directory [main] serves for the arguments it is given. *)
Definition served (w : world) (argv : list string) : option (string * node) :=
  match argv with
  | _ :: directory :: _ => directory_at w directory
  | _ => Some (cwd w)
  end.

Definition is_print (e : event) : bool :=
  match e with Print _ => true | _ => false end.

(** The calls other than [print]. *)
Definition actions (es : list event) : list event :=
  filter (fun e => negb (is_print e)) es.

(** The world where no browser can be opened. *)
Definition without_browser (w : world) : world := {|
  py_int := py_int w;
  directory_at := directory_at w;
  cwd := cwd w;
  tcp_server := tcp_server w;
  webbrowser_open := fun _ => false
|}.

End Cli.

(* ===================================================================== *)
(** ** Concrete directories, requests and library functions *)
(* ===================================================================== *)

Module Examples.
Import FS Launch Http.

Definition empty_file (name : string) : string * node := (name, File 0 "").

(** Three recordings in the directory and two in a subdirectory. *)
Definition five_wavs : node :=
  Dir [empty_file "a.wav"; empty_file "b.wav"; empty_file "c.wav";
       empty_file "notes.txt";
       ("sub", Dir [empty_file "d.wav"; empty_file "e.wav";
                    empty_file "readme.md"])].

Definition report_in_sub : node :=
  Dir [empty_file "a.wav"; ("sub", Dir [empty_file "audiomoth_reporte.html"])].

(** The first pattern two levels down, the second pattern one level down. *)
Definition deep_vs_shallow : node :=
  Dir [("a", Dir [("b", Dir [empty_file "audiomoth_reporte.html"])]);
       ("c", Dir [empty_file "reporte.html"])].

(** A directory whose name ends in [.wav], and no recording. *)
Definition wav_directory : node :=
  Dir [("old.wav", Dir [empty_file "notes.txt"])].

Fixpoint bytes (n : nat) : string :=
  match n with O => EmptyString | S n' => String "x" (bytes n') end.

(** A 500-byte recording, a mixed-case one and a page. *)
Definition recordings : node :=
  Dir [("recording.wav", File 1000 (bytes 500));
       ("Take1.Wav", File 1000 (bytes 8));
       ("reporte.html", File 1000 "<html></html>")].

(** An excerpt of the registry of [mimetypes], and stand-ins for the other
    library functions. *)
Definition types_map : list (string * string) :=
  [(".html", "text/html"); (".htm", "text/html"); (".mp3", "audio/mpeg");
   (".wav", "audio/x-wav"); (".txt", "text/plain")].

Definition sample_lib : pylib := {|
  version_string := "SimpleHTTP/0.6 Python/3.11.2";
  date_time_string := fun _ => "Thu, 01 Jan 1970 00:00:00 GMT";
  parsedate_utc := fun _ => None;
  mimetypes_guess_type := fun p =>
    match find (fun kv => String.eqb (fst kv) (Str.lower (Str.splitext_ext p)))
               types_map with
    | Some kv => Some (snd kv)
    | None => None
    end;
  urlsplit_path := fun p => Str.before "?" (Str.before "#" p);
  redirect_url := fun p => p ++ "/";
  listing_page := fun p _ => "<h1>Directory listing for " ++ p ++ "</h1>";
  error_page := fun _ message _ => "<h1>" ++ message ++ "</h1>"
|}.

(** [GET p HTTP/1.1] with the headers [hs], and its handling in the
    directory [/srv/rec] that holds [root]. *)
Definition get (p : string) (hs : list (string * string)) : request :=
  {| command := GET; path := p; request_version := HTTP_1_1; headers := hs |}.

Definition serve (root : node) (r : request) (p : peer) : (unit + exn) * hstate :=
  handle sample_lib "/srv/rec" root r (fresh p).

(** [HEAD p HTTP/1.1] and [OPTIONS p HTTP/1.1]. *)
Definition head (p : string) (hs : list (string * string)) : request :=
  {| command := HEAD; path := p; request_version := HTTP_1_1; headers := hs |}.

Definition options (p : string) : request :=
  {| command := OPTIONS; path := p; request_version := HTTP_1_1; headers := [] |}.

(** [int] for a string of decimal digits. *)
Fixpoint decimal (acc : Z) (s : string) : Z :=
  match s with
  | EmptyString => acc
  | String c s' => decimal (10 * acc + Z.of_nat (nat_of_ascii c - 48)) s'
  end.

(** The library functions where a date is written as the seconds since the
    epoch. *)
Definition dated_lib : pylib := {|
  version_string := version_string sample_lib;
  date_time_string := fun t =>
    match t with Some z => Str.str_int z | None => "0" end;
  parsedate_utc := fun s =>
    if Str.nonempty s && Str.forall_chars Str.is_digit s
    then Some (decimal 0 s) else None;
  mimetypes_guess_type := mimetypes_guess_type sample_lib;
  urlsplit_path := urlsplit_path sample_lib;
  redirect_url := redirect_url sample_lib;
  listing_page := listing_page sample_lib;
  error_page := error_page sample_lib
|}.

(** A machine: the recordings are in [/srv/rec], the script is started in a
    directory with five recordings and no report, port 8000 is taken, and a
    browser can be opened. *)
Definition sample_world : Cli.world := {|
  Cli.py_int := fun s =>
    if Str.nonempty s && Str.forall_chars Str.is_digit s
    then Some (decimal 0 s) else None;
  Cli.directory_at := fun d =>
    if String.eqb d "/srv/rec" then Some ("/srv/rec", recordings) else None;
  Cli.cwd := ("/home/user", five_wavs);
  Cli.tcp_server := fun port =>
    if (port =? 8000)%Z
    then Cli.RaisesOSError
           {| Cli.errno := Some 98%Z;
              Cli.str_error := "[Errno 98] Address already in use" |}
    else Cli.Listens;
  Cli.webbrowser_open := fun _ => true
|}.

End Examples.

(* ===================================================================== *)
(** ** Strings: lemmas *)
(* ===================================================================== *)

Module StrFacts.
Import Str.

Lemma length_app (a b : string) :
  String.length (a ++ b) = String.length a + String.length b.
Proof. induction a; simpl; congruence. Qed.

Lemma eqb_app_self (a suf : string) :
  String.eqb (a ++ suf) suf = true -> a = "".
Proof.
  intros H. apply String.eqb_eq in H.
  assert (L : String.length (a ++ suf) = String.length suf) by now rewrite H.
  rewrite length_app in L.
  destruct a; [reflexivity | simpl in L; lia].
Qed.

Lemma endswith_cons (c : ascii) (s suf : string) :
  endswith (String c s) suf =
  if String.eqb (String c s) suf then true else endswith s suf.
Proof. reflexivity. Qed.

Lemma endswith_refl (s : string) : endswith s s = true.
Proof.
  destruct s; [reflexivity|].
  now rewrite endswith_cons, String.eqb_refl.
Qed.

Lemma endswith_app (a suf : string) : endswith (a ++ suf) suf = true.
Proof.
  induction a as [|c a IH].
  - apply endswith_refl.
  - change (String c a ++ suf) with (String c (a ++ suf)).
    rewrite endswith_cons, IH. now destruct (String.eqb _ _).
Qed.

Lemma endswith_inv (s suf : string) :
  endswith s suf = true -> exists a, s = a ++ suf.
Proof.
  induction s as [|c s IH].
  - destruct suf; simpl; [now exists "" | discriminate].
  - rewrite endswith_cons.
    destruct (String.eqb (String c s) suf) eqn:E.
    + apply String.eqb_eq in E. subst. now exists "".
    + intros H. destruct (IH H) as [a ->]. now exists (String c a).
Qed.

Lemma lower_app (a b : string) : lower (a ++ b) = lower a ++ lower b.
Proof. induction a; simpl; congruence. Qed.

Lemma lower_split (a b p : string) :
  lower p = a ++ b ->
  exists pa pb, p = pa ++ pb /\ lower pa = a /\ lower pb = b.
Proof.
  revert p. induction a as [|c a IH]; intros p H.
  - exists "", p. auto.
  - destruct p as [|d p]; [discriminate|].
    simpl in H. injection H as Hc Hp.
    destruct (IH _ Hp) as (pa & pb & -> & <- & <-).
    exists (String d pa), pb. simpl. now rewrite Hc.
Qed.

Lemma lower_ascii_letter (c l : ascii) :
  (97 <=? nat_of_ascii l)%nat && (nat_of_ascii l <=? 122)%nat = true ->
  lower_ascii c = l -> c = l \/ c = ascii_of_nat (nat_of_ascii l - 32).
Proof.
  intros Hl <-.
  destruct c as [[] [] [] [] [] [] [] []]; vm_compute; auto;
    vm_compute in Hl; discriminate.
Qed.

Lemma lower_ascii_dot (c : ascii) : lower_ascii c = "."%char -> c = "."%char.
Proof.
  destruct c as [[] [] [] [] [] [] [] []]; vm_compute; intros H;
    try reflexivity; discriminate.
Qed.

(** A separator that does not occur in [suf] cuts the suffix test. *)
Lemma eqb_through_sep (c : ascii) (a b suf : string) :
  occurs c suf = false -> String.eqb (a ++ String c b) suf = false.
Proof.
  revert suf. induction a as [|x a IH]; intros suf H; destruct suf as [|y suf];
    simpl in *; try reflexivity.
  - apply orb_false_iff in H as [H _]. now rewrite H.
  - apply orb_false_iff in H as [_ H].
    destruct (Ascii.eqb x y); [now apply IH | reflexivity].
Qed.

Lemma endswith_after_sep (c : ascii) (a b suf : string) :
  occurs c suf = false ->
  endswith (a ++ String c b) suf = endswith b suf.
Proof.
  intros H. induction a as [|x a IH].
  - pose proof (eqb_through_sep c "" b suf H) as E. simpl append in *.
    now rewrite endswith_cons, E.
  - pose proof (eqb_through_sep c (String x a) b suf H) as E.
    simpl append in *. now rewrite endswith_cons, E.
Qed.

Lemma prefix_through_sep (c : ascii) (sub a b : string) :
  occurs c sub = false ->
  String.prefix sub (a ++ String c b) = String.prefix sub a.
Proof.
  revert a. induction sub as [|y sub IH]; intros a H; [now destruct a|].
  simpl in H. apply orb_false_iff in H as [Hy H].
  destruct a as [|x a]; simpl.
  - rewrite Ascii.eqb_sym in Hy.
    destruct (ascii_dec y c) as [->|N]; [now rewrite Ascii.eqb_refl in Hy|].
    reflexivity.
  - destruct (ascii_dec y x); [now apply IH | reflexivity].
Qed.

Lemma contains_cons (sub : string) (x : ascii) (s : string) :
  contains sub (String x s) =
  if String.prefix sub (String x s) then true else contains sub s.
Proof. reflexivity. Qed.

Lemma contains_empty (sub : string) :
  contains sub "" = String.prefix sub "".
Proof. now destruct sub. Qed.

(** A separator that does not occur in [sub] cuts the search for [sub]. *)
Lemma contains_through_sep (c : ascii) (sub a b : string) :
  occurs c sub = false -> contains sub "" = false ->
  contains sub (a ++ String c b) = contains sub a || contains sub b.
Proof.
  intros H E. induction a as [|x a IH].
  - pose proof (prefix_through_sep c sub "" b H) as P.
    simpl append in *. rewrite contains_cons, E, P.
    rewrite contains_empty in E. now rewrite E.
  - pose proof (prefix_through_sep c sub (String x a) b H) as P.
    simpl append in *. rewrite !contains_cons, IH, P.
    now destruct (String.prefix sub (String x a)).
Qed.

Lemma unquote_other (x : ascii) (t : string) :
  Ascii.eqb x "%" = false -> unquote (String x t) = String x (unquote t).
Proof. intros H. simpl. now rewrite H. Qed.

Lemma unquote_percent (t : string) :
  unquote (String "%" t) =
  match t with
  | String h1 (String h2 rest) =>
      match hexval h1, hexval h2 with
      | Some a, Some b => String (ascii_of_nat (16 * a + b)) (unquote rest)
      | _, _ => String "%" (unquote t)
      end
  | _ => String "%" (unquote t)
  end.
Proof. reflexivity. Qed.

(** Decoding stops at a character that is no hexadecimal digit: what comes
    before it and what comes from it on are decoded apart. *)
Lemma unquote_app_sep (c : ascii) (b : string) :
  hexval c = None ->
  forall n a, String.length a <= n ->
  unquote (a ++ String c b) = unquote a ++ unquote (String c b).
Proof.
  intros Hc. induction n as [|n IH]; intros a L.
  - destruct a; [reflexivity | simpl in L; lia].
  - destruct a as [|x a]; [reflexivity|].
    simpl in L. apply le_S_n in L.
    destruct (Ascii.eqb x "%") eqn:Ex.
    + apply Ascii.eqb_eq in Ex. subst x.
      change (String "%" a ++ String c b) with (String "%" (a ++ String c b)).
      rewrite !unquote_percent.
      destruct a as [|h1 [|h2 rest]].
      * cbn [append]. destruct b as [|h2 rest]; [reflexivity|].
        now rewrite Hc.
      * pose proof (IH (String h1 "") ltac:(simpl in *; lia)) as E.
        cbn [append] in *. rewrite Hc, E.
        now destruct (hexval h1).
      * pose proof (IH (String h1 (String h2 rest)) ltac:(simpl in *; lia)) as E.
        pose proof (IH rest ltac:(simpl in *; lia)) as E'.
        cbn [append] in *.
        destruct (hexval h1), (hexval h2); now rewrite ?E, ?E'.
    + change (String x a ++ String c b) with (String x (a ++ String c b)).
      rewrite !unquote_other by assumption.
      now rewrite IH.
Qed.

Lemma occurs_forall_chars (P : ascii -> bool) (c : ascii) (s : string) :
  P c = false -> forall_chars P s = true -> occurs c s = false.
Proof.
  intros Hc. induction s as [|d s IH]; cbn [occurs forall_chars]; [reflexivity|].
  intros H. apply andb_true_iff in H as [Hd Hs].
  rewrite (IH Hs), orb_false_r.
  destruct (Ascii.eqb c d) eqn:E; [|reflexivity].
  apply Ascii.eqb_eq in E. congruence.
Qed.

(** A string without [%] is its own decoding. *)
Lemma unquote_plain (s r : string) :
  occurs "%" s = false -> unquote (s ++ r) = s ++ unquote r.
Proof.
  induction s as [|x s IH]; [reflexivity|].
  cbn [occurs]. intros H. apply orb_false_iff in H as [Hx Hs].
  change (String x s ++ r) with (String x (s ++ r)).
  rewrite Ascii.eqb_sym in Hx.
  now rewrite unquote_other, IH.
Qed.

Lemma digit_is_digit (n : nat) : is_digit (digit n) = true.
Proof.
  unfold digit.
  pose proof (Nat.mod_upper_bound n 10 ltac:(lia)) as B.
  remember (n mod 10) as d eqn:E. clear E.
  do 10 (destruct d as [|d]; [reflexivity|]).
  lia.
Qed.

Lemma str_nat_aux_digits (fuel n : nat) (acc : string) :
  forall_chars is_digit acc = true ->
  forall_chars is_digit (str_nat_aux fuel n acc) = true.
Proof.
  revert n acc. induction fuel as [|fuel IH]; intros n acc H;
    cbn [str_nat_aux]; [assumption|].
  assert (H' : forall_chars is_digit (String (digit n) acc) = true)
    by (cbn [forall_chars]; now rewrite digit_is_digit).
  destruct (n <? 10)%nat; [assumption | now apply IH].
Qed.

(** A string of digits holds no string that starts with another character. *)
Lemma contains_digits (c : ascii) (e s : string) :
  is_digit c = false -> forall_chars is_digit s = true ->
  contains (String c e) s = false.
Proof.
  intros Hc. induction s as [|d s IH]; [reflexivity|].
  cbn [forall_chars]. intros H. apply andb_true_iff in H as [Hd Hs].
  rewrite contains_cons, (IH Hs). cbn [String.prefix].
  destruct (ascii_dec c d) as [->|_]; [congruence | reflexivity].
Qed.

Lemma str_nat_digits (n : nat) : forall_chars is_digit (str_nat n) = true.
Proof. unfold str_nat. now apply str_nat_aux_digits. Qed.

End StrFacts.

(* ===================================================================== *)
(** ** The launch helper: report discovery and WAV counting *)
(* ===================================================================== *)

Module LaunchFacts.
Import FS Launch Examples.

Lemma flat_map_nil_iff {A B : Type} (g : A -> list B) (l : list A) :
  flat_map g l = [] <-> forall x, In x l -> g x = [].
Proof.
  induction l as [|a l IH]; simpl.
  - split; [intros _ x [] | reflexivity].
  - split.
    + intros H. apply app_eq_nil in H as [Ha Hl].
      intros x [<-|Hx]; [assumption | now apply IH].
    + intros H. rewrite (H a) by now left.
      apply IH. intros x Hx. apply H. now right.
Qed.

Lemma fnmatch_star (name : string) : fnmatch "*" name = true.
Proof. induction name as [|c name IH]; [reflexivity | exact IH]. Qed.

Lemma reach_file (mtime : Z) (data : string) (p : list string) (n : node) :
  reach (File mtime data) p n -> p = [].
Proof. now inversion 1. Qed.

(** A selector yields nothing exactly when no path of its length below the
    directory matches it part by part. *)
Lemma select_from_nil_iff (parts : list string) :
  forall (pre : list string) (d : node),
  select_from parts pre d = [] <->
  (forall p n, reach d p n -> length p = length parts -> parts_match parts p = false).
Proof.
  induction parts as [|pat rest IH]; intros pre d.
  - split; [discriminate|].
    intros H. specialize (H [] d (reach_here d) eq_refl). discriminate.
  - cbn [select_from]. rewrite flat_map_nil_iff. split.
    + intros H p n R L.
      destruct R as [n|es name c p n I R]; [discriminate|].
      injection L as L. cbn [parts_match].
      specialize (H (name, c) I). cbn [fst snd] in H.
      destruct (fnmatch pat name); [|reflexivity]. rewrite andb_true_r in H.
      cbn [andb].
      destruct c as [mtime data|es'].
      * destruct rest as [|pat' rest'].
        -- cbn in H. discriminate.
        -- apply reach_file in R. subst p. discriminate.
      * cbn [is_dir] in H. rewrite orb_true_r in H.
        exact (proj1 (IH _ _) H p n R L).
    + intros H [name c] I. cbn [fst snd].
      destruct ((negb match rest with [] => false | _ => true end || is_dir c)
                && fnmatch pat name) eqn:E; [|reflexivity].
      apply andb_true_iff in E as [_ E].
      apply IH. intros p n R L.
      destruct d as [|es]; [contradiction|].
      specialize (H (name :: p) n (reach_down es name c p n I R)).
      cbn [parts_match length] in H. rewrite E in H. apply H. now f_equal.
Qed.

Lemma search_root_hd (pats : list string) (d : node) :
  search_root pats d =
  hd_error (flat_map (fun pattern => map path_name (glob pattern d)) pats).
Proof.
  induction pats as [|pattern pats IH]; [reflexivity|].
  cbn [search_root flat_map]. now destruct (glob pattern d).
Qed.

Lemma search_subdirs_hd (pats : list string) (d : node) :
  search_subdirs pats d =
  hd_error
    (flat_map
       (fun pattern =>
          map path_str (glob ("*/" ++ pattern) d ++ glob ("*/*/" ++ pattern) d)%list)
       pats).
Proof.
  induction pats as [|pattern pats IH]; [reflexivity|].
  cbn [search_subdirs flat_map].
  destruct (glob ("*/" ++ pattern) d); [|reflexivity].
  now destruct (glob ("*/*/" ++ pattern) d).
Qed.

Lemma hd_error_app {A : Type} (l l' : list A) :
  hd_error (l ++ l') =
  match hd_error l with Some x => Some x | None => hd_error l' end.
Proof. now destruct l. Qed.

Lemma find_html_report_hd (d : node) :
  find_html_report d = hd_error (root_matches d ++ subdir_matches d).
Proof.
  unfold find_html_report, root_matches, subdir_matches.
  now rewrite hd_error_app, search_root_hd, search_subdirs_hd.
Qed.

Lemma hd_error_None {A : Type} (l : list A) : hd_error l = None <-> l = [].
Proof. destruct l; simpl; split; congruence. Qed.

Lemma map_nil_iff {A B : Type} (g : A -> B) (l : list A) : map g l = [] <-> l = [].
Proof. destruct l; simpl; split; congruence. Qed.

(** The nine globs of [find_html_report], by what they select. *)
Lemma glob_nil_iff (k : nat) (pattern : string) (d : node) :
  In pattern patterns -> (k <= 2)%nat ->
  glob (String.concat "" (repeat "*/" k) ++ pattern) d = [] <->
  (forall p n, reach d p n -> length p = S k -> fnmatch pattern (last p "") = false).
Proof.
  intros I K. unfold glob.
  destruct d as [mtime data|es].
  - cbn [is_dir]. split; [|reflexivity].
    intros _ p n R L. apply reach_file in R. subst p. discriminate.
  - cbn [is_dir].
    assert (P : pattern_parts (String.concat "" (repeat "*/" k) ++ pattern)
                = (repeat "*" k ++ [pattern])%list).
    { destruct I as [<-|[<-|[<-|[]]]];
        (destruct k as [|[|[|k]]]; [reflexivity | reflexivity | reflexivity | lia]). }
    rewrite P, select_from_nil_iff. rewrite length_app, repeat_length. cbn [length].
    replace (k + 1)%nat with (S k) by lia.
    split; intros H p n R L; specialize (H p n R L).
    + destruct k as [|[|[|k]]]; [| | |lia];
        [destruct p as [|a [|]]; try discriminate
        |destruct p as [|a [|b [|]]]; try discriminate
        |destruct p as [|a [|b [|c [|]]]]; try discriminate];
        cbn [repeat app parts_match last] in *;
        rewrite ?fnmatch_star, ?andb_true_r in H; exact H.
    + destruct k as [|[|[|k]]]; [| | |lia];
        [destruct p as [|a [|]]; try discriminate
        |destruct p as [|a [|b [|]]]; try discriminate
        |destruct p as [|a [|b [|c [|]]]]; try discriminate];
        cbn [repeat app parts_match last] in *;
        rewrite ?fnmatch_star, ?andb_true_r; exact H.
Qed.

Lemma app_nil_intro {A : Type} (l l' : list A) : l = [] -> l' = [] -> (l ++ l')%list = [].
Proof. now intros -> ->. Qed.

Lemma report_name_false (name : string) :
  report_name name = false <->
  (forall pattern, In pattern patterns -> fnmatch pattern name = false).
Proof.
  unfold report_name. split.
  - intros H pattern I. apply not_true_is_false. intros M.
    assert (E : existsb (fun q => fnmatch q name) patterns = true)
      by (apply existsb_exists; eauto).
    congruence.
  - intros H. apply not_true_is_false. intros E.
    apply existsb_exists in E as (pattern & I & M).
    rewrite (H pattern I) in M. discriminate.
Qed.

(** C3, as the code has it.  [find_html_report] returns the first of: the
    matches in the directory, pattern by pattern; then, pattern by pattern,
    the matches one level down followed by those two levels down.  So below
    the directory the order of the patterns comes before the depth.  It
    returns [None] exactly when no entry at most two levels down has a name
    that matches a pattern, and [sub/audiomoth_reporte.html] for a directory
    that holds the report in [sub] only. *)
Theorem find_html_report_first_match (d : node) :
  find_html_report d = hd_error (root_matches d ++ subdir_matches d)
  /\ (find_html_report d = None <->
      forall p n, reach d p n -> (1 <= length p <= 3)%nat ->
                  report_name (last p "") = false)
  /\ find_html_report report_in_sub = Some "sub/audiomoth_reporte.html".
Proof.
  split; [apply find_html_report_hd|]. split; [|reflexivity].
  rewrite find_html_report_hd, hd_error_None. split.
  - intros H p n R L. apply app_eq_nil in H as [Hr Hs].
    unfold root_matches in Hr. unfold subdir_matches in Hs.
    rewrite flat_map_nil_iff in Hr, Hs.
    apply report_name_false. intros pattern I.
    specialize (Hr pattern I). specialize (Hs pattern I).
    apply map_nil_iff in Hr. apply map_nil_iff, app_eq_nil in Hs as [H1 H2].
    assert (C : length p = 1%nat \/ length p = 2%nat \/ length p = 3%nat) by lia.
    destruct C as [C|[C|C]].
    + exact (proj1 (glob_nil_iff 0 pattern d I ltac:(lia)) Hr p n R C).
    + exact (proj1 (glob_nil_iff 1 pattern d I ltac:(lia)) H1 p n R C).
    + exact (proj1 (glob_nil_iff 2 pattern d I ltac:(lia)) H2 p n R C).
  - intros H.
    assert (G : forall k pattern, In pattern patterns -> (k <= 2)%nat ->
                glob (String.concat "" (repeat "*/" k) ++ pattern) d = []).
    { intros k pattern I K. apply (glob_nil_iff k pattern d I K).
      intros p n R L. apply (proj1 (report_name_false _)); [|assumption].
      apply (H p n R). lia. }
    unfold root_matches, subdir_matches.
    apply app_nil_intro; apply flat_map_nil_iff; intros pattern I.
    + apply map_nil_iff. exact (G 0%nat pattern I ltac:(lia)).
    + apply map_nil_iff, app_nil_intro.
      * exact (G 1%nat pattern I ltac:(lia)).
      * exact (G 2%nat pattern I ltac:(lia)).
Qed.

(** C3 as stated fails: with the first pattern two levels down and the
    second pattern one level down, the deeper report is returned. *)
Lemma find_html_report_pattern_before_depth :
  find_html_report deep_vs_shallow = Some "a/b/audiomoth_reporte.html"
  /\ matches_one_down deep_vs_shallow = ["c/reporte.html"].
Proof. split; reflexivity. Qed.

(** **** What [rglob] yields *)

Lemma node_induction (P : node -> Prop) :
  (forall mtime data, P (File mtime data)) ->
  (forall es, (forall name c, In (name, c) es -> P c) -> P (Dir es)) ->
  forall n, P n.
Proof.
  intros HF HD.
  refine (fix IH (n : node) : P n :=
            match n with
            | File mtime data => HF mtime data
            | Dir es =>
                HD es
                  ((fix go (es : list (string * node)) :
                      forall name c, In (name, c) es -> P c :=
                      match es with
                      | [] => fun name c I => match I with end
                      | (name0, c0) :: es' =>
                          fun name c I =>
                            match I with
                            | or_introl E => _
                            | or_intror I' => go es' name c I'
                            end
                      end) es)
            end).
  injection E as _ <-. exact (IH c0).
Qed.

Lemma fnmatch_literal (lit s : string) :
  Str.occurs "*" lit = false -> Str.occurs "?" lit = false ->
  fnmatch lit s = String.eqb s lit.
Proof.
  revert s. induction lit as [|c lit IH]; intros s S Q; [now destruct s|].
  cbn [Str.occurs] in S, Q.
  apply orb_false_iff in S as [Sc S]. apply orb_false_iff in Q as [Qc Q].
  cbn [fnmatch]. rewrite Ascii.eqb_sym, Sc.
  destruct s as [|d s]; [reflexivity|].
  rewrite (Ascii.eqb_sym c "?"), Qc. cbn [orb String.eqb].
  rewrite (Ascii.eqb_sym c d), IH by assumption. reflexivity.
Qed.

(** A pattern [*] followed by plain characters tests the end of the name. *)
Lemma fnmatch_suffix (lit s : string) :
  Str.occurs "*" lit = false -> Str.occurs "?" lit = false ->
  fnmatch (String "*" lit) s = Str.endswith s lit.
Proof.
  intros S Q. cbn [fnmatch]. rewrite Ascii.eqb_refl.
  induction s as [|d s IH].
  - rewrite fnmatch_literal by assumption. now destruct lit.
  - rewrite StrFacts.endswith_cons, <- IH, fnmatch_literal by assumption.
    now destruct (String.eqb (String d s) lit).
Qed.

Section Matches.

Variable pattern : string.
Let m : string -> bool := fnmatch pattern.

Lemma select_last (path : list string) (es : list (string * node)) :
  select_from [pattern] path (Dir es)
  = map (app path)
        (flat_map (fun e : string * node => if m (fst e) then [[fst e]] else []) es).
Proof.
  cbn [select_from scandir negb orb andb]. unfold m.
  induction es as [|e es IH]; [reflexivity|].
  cbn [flat_map]. rewrite map_app, IH.
  now destruct (fnmatch pattern (fst e)).
Qed.

(** The matches in every directory of the tree, as [rglob] collects them. *)
Lemma matches_everywhere (n : node) :
  forall path,
  is_dir n = true ->
  flat_map (fun pn => select_from [pattern] (fst pn) (snd pn))
           (iterate_directories path n)
  = map (app path) (relative_matches m n).
Proof.
  induction n as [mtime data|es IH] using node_induction; intros path D;
    [discriminate|].
  cbn [iterate_directories flat_map fst snd relative_matches].
  rewrite select_last, map_app. f_equal.
  clear D. induction es as [|[name c] es IHes]; [reflexivity|].
  rewrite flat_map_app, map_app. f_equal.
  - destruct (is_dir c) eqn:Dc; [|reflexivity].
    rewrite (IH name c (or_introl eq_refl) _ Dc), map_map.
    apply map_ext. intros q. now rewrite <- app_assoc.
  - apply IHes. intros name' c' I. apply (IH name' c'). now right.
Qed.

Lemma relative_matches_below (es : list (string * node)) (q : list string) :
  In q ((fix below (es : list (string * node)) : list (list string) :=
           match es with
           | [] => []
           | (name, c) :: es' =>
               ((if is_dir c then map (cons name) (relative_matches m c) else [])
                ++ below es')%list
           end) es) ->
  exists name c q', q = name :: q' /\ In (name, c) es /\ In q' (relative_matches m c).
Proof.
  induction es as [|[name c] es IH]; [contradiction|].
  intros I. apply in_app_or in I as [I|I].
  - destruct (is_dir c); [|contradiction].
    apply in_map_iff in I as (q' & <- & I).
    exists name, c, q'. repeat split; [now left | exact I].
  - destruct (IH I) as (name' & c' & q' & -> & I' & Hq).
    exists name', c', q'. repeat split; [now right | exact Hq].
Qed.

Lemma relative_matches_nonempty (n : node) (q : list string) :
  In q (relative_matches m n) -> q <> [].
Proof.
  destruct n as [mtime data|es]; [contradiction|].
  cbn [relative_matches]. intros I. apply in_app_or in I as [I|I].
  - apply in_flat_map in I as (e & _ & I).
    destruct (m (fst e)); [|contradiction]. destruct I as [<-|[]]. discriminate.
  - apply relative_matches_below in I as (name & c & q' & -> & _). discriminate.
Qed.

Lemma NoDup_map_injective {A B : Type} (g : A -> B) (l : list A) :
  (forall x y, g x = g y -> x = y) -> NoDup l -> NoDup (map g l).
Proof.
  intros Hg. apply NoDup_map_NoDup_ForallPairs. intros x y _ _. apply Hg.
Qed.

Lemma NoDup_direct (es : list (string * node)) :
  NoDup (map fst es) ->
  NoDup (flat_map (fun e : string * node => if m (fst e) then [[fst e]] else []) es).
Proof.
  induction es as [|e es IH]; [constructor|].
  cbn [map flat_map]. intros N. inversion N as [|x l Hx Hl]; subst.
  destruct (m (fst e)); [|now apply IH]. cbn [app]. constructor; [|now apply IH].
  intros I. apply in_flat_map in I as (e' & I' & I).
  destruct (m (fst e')); [|contradiction]. destruct I as [[= E]|[]].
  apply Hx. rewrite <- E. now apply in_map.
Qed.

Lemma unique_names_child (es : list (string * node)) (name : string) (c : node) :
  unique_names (Dir es) -> In (name, c) es -> unique_names c.
Proof.
  cbn [unique_names]. intros [_ U] I.
  induction es as [|[name' c'] es IH]; [contradiction|].
  destruct U as [Uc U]. destruct I as [[= <- <-]|I]; [exact Uc | now apply IH].
Qed.

(** With distinct names in every directory no path is yielded twice. *)
Lemma NoDup_relative_matches (n : node) :
  unique_names n -> NoDup (relative_matches m n).
Proof.
  induction n as [mtime data|es IH] using node_induction; intros U; [constructor|].
  pose proof U as [N _]. cbn [relative_matches].
  apply NoDup_app; [now apply NoDup_direct| |].
  - assert (C : forall name c, In (name, c) es -> NoDup (relative_matches m c))
      by (intros name c I; apply (IH name c I), (unique_names_child es name c U I)).
    clear IH U. induction es as [|[name c] es IHes]; [constructor|].
    cbn [map] in N. inversion N as [|x l Hx Hl]; subst.
    apply NoDup_app.
    + destruct (is_dir c); [|constructor].
      apply NoDup_map_injective; [congruence | apply (C name c); now left].
    + apply IHes; [exact Hl|]. intros name' c' I. apply (C name' c'). now right.
    + intros q I I'. destruct (is_dir c); [|contradiction].
      apply in_map_iff in I as (q' & <- & _).
      apply relative_matches_below in I' as (name' & c' & q'' & [= <- _] & I' & _).
      apply Hx. change name with (fst (name, c')). now apply in_map.
  - intros q I I'. apply in_flat_map in I as (e & _ & I).
    destruct (m (fst e)); [|contradiction]. destruct I as [<-|[]].
    apply relative_matches_below in I' as (name & c & q' & [= _ <-] & _ & I').
    exact (relative_matches_nonempty c [] I' eq_refl).
Qed.

End Matches.

Lemma length_relative_matches (suffix : string) (n : node) :
  Str.occurs "*" suffix = false -> Str.occurs "?" suffix = false ->
  length (relative_matches (fnmatch (String "*" suffix)) n)
  = entries_named suffix n.
Proof.
  intros S Q.
  induction n as [mtime data|es IH] using node_induction; [reflexivity|].
  cbn [relative_matches entries_named]. rewrite length_app.
  induction es as [|[name c] es IHes]; [reflexivity|].
  cbn [flat_map fst]. rewrite !length_app, fnmatch_suffix by assumption.
  specialize (IHes (fun name' c' I => IH name' c' (or_intror I))).
  assert (L : length (if is_dir c
                      then map (cons name)
                             (relative_matches (fnmatch (String "*" suffix)) c)
                      else [])
              = entries_named suffix c).
  { rewrite <- (IH name c (or_introl eq_refl)).
    destruct c as [mtime data|es']; [reflexivity | apply length_map]. }
  rewrite L. destruct (Str.endswith name suffix); cbn [length]; lia.
Qed.

(** For a directory where names are distinct, [rglob] of [*] and a suffix
    yields as many paths as there are entries, files or directories, whose
    name ends in the suffix. *)
Lemma length_rglob (suffix : string) (es : list (string * node)) :
  Str.occurs "*" suffix = false -> Str.occurs "?" suffix = false ->
  pattern_parts (String "*" suffix) = [String "*" suffix] ->
  unique_names (Dir es) ->
  length (rglob (String "*" suffix) (Dir es)) = entries_named suffix (Dir es).
Proof.
  intros S Q P U. unfold rglob. cbn [is_dir]. rewrite P.
  rewrite matches_everywhere by reflexivity.
  rewrite nodup_fixed_point.
  - now rewrite length_map, length_relative_matches.
  - apply NoDup_map_injective; [intros x y E; exact E|].
    now apply NoDup_relative_matches.
Qed.

(** What [count_wav_files] counts: the entries whose name ends in [.wav] or
    in [.WAV], directories as well as files. *)
Lemma count_wav_files_entries (es : list (string * node)) :
  unique_names (Dir es) ->
  count_wav_files (Dir es)
  = entries_named ".wav" (Dir es) + entries_named ".WAV" (Dir es).
Proof.
  intros U. unfold count_wav_files.
  now rewrite !length_rglob by (reflexivity || assumption).
Qed.

(** C8: [count_wav_files] counts the entries, at any depth, whose name
    ends in [.wav] or [.WAV], files and directories alike.  So a directory
    whose name ends in [.wav] is counted though the tree holds no WAV file;
    three recordings in the directory and two in a subdirectory count as
    five. *)
Theorem count_wav_files_counts_directories :
  (forall es, unique_names (Dir es) ->
     count_wav_files (Dir es)
     = entries_named ".wav" (Dir es) + entries_named ".WAV" (Dir es))
  /\ count_wav_files wav_directory = 1 /\ wav_files wav_directory = 0
  /\ count_wav_files five_wavs = 5 /\ wav_files five_wavs = 5.
Proof. split; [exact count_wav_files_entries | repeat split; reflexivity]. Qed.

End LaunchFacts.

(* ===================================================================== *)
(** ** The MIME type of a path *)
(* ===================================================================== *)

Module MimeFacts.
Import Str StrFacts Http Examples.

Lemma lower_spelling (ext : string) :
  In ext wav_spellings -> lower ext = ".wav".
Proof.
  unfold wav_spellings. cbn [In].
  intros H. repeat (destruct H as [<-|H]; [reflexivity|]). contradiction.
Qed.

Lemma spelling_of_lower (ext : string) :
  lower ext = ".wav" -> In ext wav_spellings.
Proof.
  destruct ext as [|c1 [|c2 [|c3 [|c4 [|c5 ext]]]]]; try discriminate.
  cbn [lower]. intros H. injection H as H1 H2 H3 H4.
  apply lower_ascii_dot in H1.
  apply lower_ascii_letter in H2; [|reflexivity].
  apply lower_ascii_letter in H3; [|reflexivity].
  apply lower_ascii_letter in H4; [|reflexivity].
  subst c1. vm_compute in H2, H3, H4.
  destruct H2 as [-> | ->], H3 as [-> | ->], H4 as [-> | ->];
    unfold wav_spellings; cbn [In]; tauto.
Qed.

Lemma endswith_lower_wav (p : string) :
  endswith (lower p) ".wav" = true <->
  exists stem ext, p = stem ++ ext /\ In ext wav_spellings.
Proof.
  split.
  - intros H. apply endswith_inv in H as [a H].
    apply lower_split in H as (pa & pb & -> & _ & H).
    exists pa, pb. split; [reflexivity | now apply spelling_of_lower].
  - intros (stem & ext & -> & I).
    rewrite lower_app, (lower_spelling ext I). apply endswith_app.
Qed.

(** C5: a path that ends in [.wav], in any spelling, has the type
    [audio/wav]; every other path has the type the inherited [guess_type]
    gives it, which is that of the [mimetypes] registry but for the four
    compression suffixes of [extensions_map], as for a page and an MP3. *)
Theorem guess_type_wav_any_case (lib : pylib) :
  (forall stem ext, In ext wav_spellings ->
     guess_type lib (stem ++ ext) = "audio/wav")
  /\ (forall p, (forall stem ext, In ext wav_spellings -> p <> stem ++ ext) ->
       guess_type lib p = base_guess_type lib p)
  /\ guess_type sample_lib "/srv/rec/reporte.html" = "text/html"
  /\ guess_type sample_lib "/srv/rec/canto.mp3" = "audio/mpeg".
Proof.
  split; [|split; [|split; reflexivity]].
  - intros stem ext I. unfold guess_type.
    now rewrite (proj2 (endswith_lower_wav _)) by eauto.
  - intros p H. unfold guess_type.
    destruct (endswith (lower p) ".wav") eqn:E; [|reflexivity].
    apply endswith_lower_wav in E as (stem & ext & -> & I).
    now destruct (H stem ext I).
Qed.

Lemma guess_type_wav_any_case_witness :
  guess_type sample_lib ("/srv/rec/Take1" ++ ".Wav") = "audio/wav"
  /\ guess_type sample_lib ("/srv/rec/20240101_060000" ++ ".WAV") = "audio/wav".
Proof.
  split; apply (proj1 (guess_type_wav_any_case sample_lib));
    unfold wav_spellings; cbn [In]; tauto.
Defined.

End MimeFacts.

(* ===================================================================== *)
(** ** Logging *)
(* ===================================================================== *)

Module LogFacts.
Import Str StrFacts Http.

Lemma append_assoc (a b c : string) : (a ++ b) ++ c = a ++ b ++ c.
Proof. induction a; simpl; congruence. Qed.

(** An extension occurs in the request line exactly when it occurs in the
    path: it holds no space, and neither the method nor the version holds it. *)
Lemma contains_requestline (ext : string) (req : request) :
  In ext logged_extensions ->
  contains ext (requestline req) = contains ext (path req).
Proof.
  intros I. unfold requestline.
  assert (S : occurs " " ext = false /\ contains ext "" = false
              /\ contains ext (str_method (command req)) = false
              /\ contains ext (str_version (request_version req)) = false).
  { unfold logged_extensions in I. cbn [In] in I.
    destruct (command req), (request_version req);
      repeat (destruct I as [<-|I]; [repeat split; reflexivity|]);
      contradiction. }
  destruct S as (S1 & S2 & S3 & S4).
  change (" " ++ path req ++ " " ++ str_version (request_version req))
    with (String " " (path req ++ String " " (str_version (request_version req)))).
  rewrite !contains_through_sep by assumption.
  rewrite S3, S4. cbn [orb]. apply orb_false_r.
Qed.

Lemma contains_any_requestline (req : request) :
  contains_any logged_extensions (requestline req)
  = contains_any logged_extensions (path req).
Proof.
  unfold contains_any, logged_extensions. cbn [existsb].
  rewrite !contains_requestline by (unfold logged_extensions; cbn [In]; tauto).
  reflexivity.
Qed.

Lemma pyformat_request (a b : string) :
  pyformat (dquote ++ "%s" ++ dquote ++ " %s %s") [PStr a; PStr b; PStr "-"]
  = Formatted (dquote ++ a ++ dquote ++ " " ++ b ++ " -").
Proof. reflexivity. Qed.

Lemma occurs_percent_str_nat (n : nat) : occurs "%" (str_nat n) = false.
Proof. apply (occurs_forall_chars is_digit); [reflexivity | apply str_nat_digits]. Qed.

(** Decoding the logged message decodes the path and nothing else. *)
Lemma unquote_request_message (req : request) (code : nat) :
  unquote (dquote ++ requestline req ++ dquote ++ " " ++ str_nat code ++ " -")
  = dquote ++ str_method (command req) ++ " " ++ unquote (path req) ++ " "
    ++ str_version (request_version req) ++ dquote ++ " " ++ str_nat code ++ " -".
Proof.
  unfold requestline. rewrite !append_assoc.
  assert (T : unquote (" " ++ str_version (request_version req) ++ dquote ++ " "
                       ++ str_nat code ++ " -")
              = " " ++ str_version (request_version req) ++ dquote ++ " "
                ++ str_nat code ++ " -").
  { destruct (request_version req); cbn [str_version dquote append];
      rewrite !unquote_other by reflexivity;
      now rewrite unquote_plain by apply occurs_percent_str_nat. }
  assert (P : unquote (path req ++ " " ++ str_version (request_version req)
                       ++ dquote ++ " " ++ str_nat code ++ " -")
              = unquote (path req) ++ " " ++ str_version (request_version req)
                ++ dquote ++ " " ++ str_nat code ++ " -").
  { change (" " ++ str_version (request_version req) ++ dquote ++ " "
            ++ str_nat code ++ " -")
      with (String " " (str_version (request_version req) ++ dquote ++ " "
                        ++ str_nat code ++ " -")) in *.
    rewrite (unquote_app_sep " " _ eq_refl (String.length (path req)))
      by apply Nat.le_refl.
    now rewrite T. }
  destruct (command req); cbn [str_method dquote append];
    rewrite !unquote_other by reflexivity; cbn [dquote append] in P;
    now rewrite P.
Qed.

(** Logging a request prints its line, with the path decoded, exactly when
    the path holds one of the extensions the code tests; nothing else happens. *)
Lemma log_request_run (req : request) (code : nat) (st : hstate) :
  log_request req log_message code st =
  if contains_any logged_extensions (path req)
  then print (request_log_line req code) st
  else (inl tt, st).
Proof.
  unfold log_request, log_message, request_log_line. cbn [pystr].
  rewrite contains_any_requestline.
  destruct (contains_any logged_extensions (path req)); [|reflexivity].
  now rewrite pyformat_request, unquote_request_message.
Qed.

End LogFacts.

(* ===================================================================== *)
(** ** The request handler: what every run keeps *)
(* ===================================================================== *)

Module HandlerFacts.
Import Str StrFacts Http LogFacts.
Local Open Scope monad_scope.

Section Preserves.

Context {A B : Type} (I : hstate -> Prop).

Lemma preserves_ret (a : A) : preserves I (ret a).
Proof. now intros st H. Qed.

Lemma preserves_raise (e : exn) : preserves I (@raise A e).
Proof. now intros st H. Qed.

Lemma preserves_bind (m : M A) (k : A -> M B) :
  preserves I m -> (forall a, preserves I (k a)) -> preserves I (bind m k).
Proof.
  intros Hm Hk st H. unfold bind. specialize (Hm st H).
  destruct (m st) as [[a|e] st']; [now apply Hk | assumption].
Qed.

Lemma preserves_try (m h : M A) (caught : exn -> bool) :
  preserves I m -> preserves I h -> preserves I (try_except m caught h).
Proof.
  intros Hm Hh st H. unfold try_except. specialize (Hm st H).
  destruct (m st) as [[a|e] st']; [assumption|].
  destruct (caught e); [now apply Hh | assumption].
Qed.

End Preserves.

(** A property of computations that [ret], [bind] and [try_except] keep,
    and that the overridden [end_headers], the two logging calls of the
    inherited methods and the primitive effects have, is had by the handling
    of a request. *)
Section Handling.

Variable Good : forall A : Type, M A -> Prop.
Arguments Good {_} _.

Variable lib : pylib.
Variable directory : string.
Variable root : FS.node.
Variable req : request.

Hypothesis good_ret : forall (A : Type) (a : A), Good (ret a).
Hypothesis good_bind :
  forall (A B : Type) (m : M A) (k : A -> M B),
    Good m -> (forall a, Good (k a)) -> Good (bind m k).
Hypothesis good_try :
  forall (A : Type) (m h : M A) (caught : exn -> bool),
    Good m -> Good h -> Good (try_except m caught h).
Hypothesis good_push : forall line, base_line line -> Good (push_header line).
Hypothesis good_close : forall b, Good (set_close_connection b).
Hypothesis good_fs : forall c, Good (fs_call_made c).
Hypothesis good_body : forall data, Good (write (Body data)).
Hypothesis good_end : Good (end_headers req).
Hypothesis good_log_request :
  forall code, Good (log_request req log_message code).
Hypothesis good_log_error :
  forall code message,
    Good (log_error "code %d, message %s" [PInt code; PStr message]).

Ltac good_step :=
  lazymatch goal with
  | |- Good (bind _ _) => apply good_bind; [|intros]
  | |- Good (ret _) => apply good_ret
  | |- Good (try_except _ _ _) => apply good_try
  | |- Good (if ?b then _ else _) => destruct b
  | |- Good (match ?x with _ => _ end) => destruct x
  end.

Ltac base_keyword := unfold base_keywords; cbn [In]; tauto.

Lemma good_send_header (keyword value : string) :
  In keyword base_keywords -> Good (send_header keyword value).
Proof.
  intros K. unfold send_header.
  repeat good_step; auto using base_header.
Qed.

Ltac status_code := unfold status_codes; cbn [In]; tauto.

Lemma good_send_response (code : nat) (message : option string) :
  In code status_codes ->
  Good (send_response lib req log_message code message).
Proof.
  intros C. unfold send_response, send_response_only.
  repeat good_step; auto using base_status;
    apply good_send_header; base_keyword.
Qed.

Lemma good_send_error (message : string) :
  Good (send_error lib req (end_headers req) log_message log_error 404 message).
Proof.
  unfold send_error.
  repeat good_step;
    auto;
    try (apply good_send_response; status_code);
    try (apply good_send_header; base_keyword).
Qed.

Lemma good_list_directory (p : string) :
  Good (list_directory lib directory root req (end_headers req)
          log_message log_error p).
Proof.
  unfold list_directory, os_listdir.
  repeat good_step;
    auto using good_send_error;
    try (apply good_send_response; status_code);
    try (apply good_send_header; base_keyword).
Qed.

Lemma good_send_file_head (p : string) :
  Good (send_file_head lib directory root req (end_headers req)
          log_message log_error (guess_type lib) p).
Proof.
  unfold send_file_head, os_open.
  repeat good_step;
    auto using good_send_error;
    try (apply good_send_response; status_code);
    try (apply good_send_header; base_keyword).
Qed.

Lemma good_send_head :
  Good (send_head lib directory root req (end_headers req)
          log_message log_error (guess_type lib)).
Proof.
  unfold send_head, os_path_isdir, os_path_isfile.
  repeat good_step;
    auto using good_send_file_head, good_list_directory;
    try (apply good_send_response; status_code);
    try (apply good_send_header; base_keyword).
Qed.

Lemma good_copyfileobj (fuel : nat) :
  forall source, Good (copyfileobj fuel source).
Proof.
  induction fuel as [|fuel IH]; intros source; cbn [copyfileobj].
  - apply good_ret.
  - destruct (read COPY_BUFSIZE source) as [buf rest].
    repeat good_step; auto.
Qed.

Lemma good_base_do_GET :
  Good (base_do_GET lib directory root req (end_headers req)
          log_message log_error (guess_type lib)).
Proof.
  unfold base_do_GET, copyfile.
  repeat good_step; auto using good_send_head, good_copyfileobj.
Qed.

Lemma good_handle : Good (handle lib directory root req).
Proof.
  unfold handle, do_GET, do_OPTIONS, do_HEAD.
  repeat good_step;
    auto using good_base_do_GET, good_send_head;
    apply good_send_response; status_code.
Qed.

End Handling.

(** The case of a state property that is kept. *)
Section Keeping.

Variable I : hstate -> Prop.
Variable lib : pylib.
Variable directory : string.
Variable root : FS.node.
Variable req : request.

Hypothesis I_push : forall line, base_line line -> preserves I (push_header line).
Hypothesis I_close : forall b, preserves I (set_close_connection b).
Hypothesis I_fs : forall c, preserves I (fs_call_made c).
Hypothesis I_body : forall data, preserves I (write (Body data)).
Hypothesis I_end : preserves I (end_headers req).
Hypothesis I_log_request :
  forall code, preserves I (log_request req log_message code).
Hypothesis I_log_error :
  forall code message,
    preserves I (log_error "code %d, message %s" [PInt code; PStr message]).

Lemma keeps_handle : preserves I (handle lib directory root req).
Proof.
  apply (good_handle (fun A m => preserves I m));
    auto using (@preserves_ret), (@preserves_bind), (@preserves_try).
Qed.

Lemma keeps_copyfileobj (fuel : nat) (source : string) :
  preserves I (copyfileobj fuel source).
Proof.
  apply (good_copyfileobj (fun A m => preserves I m));
    auto using (@preserves_ret), (@preserves_bind).
Qed.

End Keeping.

Ltac pres_step :=
  lazymatch goal with
  | |- preserves _ (bind _ _) => apply preserves_bind; [|intros]
  | |- preserves _ (ret _) => apply preserves_ret
  | |- preserves _ (raise _) => apply preserves_raise
  | |- preserves _ (try_except _ _ _) => apply preserves_try
  | |- preserves _ (if ?b then _ else _) => destruct b
  | |- preserves _ (match ?x with _ => _ end) => destruct x
  end.

(** **** What [end_headers] does *)

Lemma end_headers_run (req : request) (st : hstate) :
  let block := (headers_buffer st ++ closing_lines req)%list in
  end_headers req st =
  match sock st with
  | Closes O e =>
      (inr e, {| headers_buffer := block;
                 close_connection := close_connection st;
                 wfile := wfile st; stdout := stdout st;
                 fs_calls := fs_calls st; sock := sock st |})
  | p =>
      (inl tt, {| headers_buffer := [];
                  close_connection := close_connection st;
                  wfile := (wfile st ++ [Head block])%list; stdout := stdout st;
                  fs_calls := fs_calls st;
                  sock := match p with Closes (S n) e => Closes n e | _ => p end |})
  end.
Proof.
  unfold end_headers, closing_lines, cors_lines, audio_lines.
  destruct st as [buffer cc w out calls p].
  destruct (endswith_any (path req) audio_suffixes);
    destruct p as [|[|n] e]; cbv -[app]; rewrite <- ?app_assoc; reflexivity.
Qed.

(** **** The logging calls of the inherited methods *)

(** An error whose first argument is a number, as [send_error] logs it, is
    not printed: the number holds none of the logged extensions. *)
Lemma log_error_code_run (format : string) (code : nat) (args : list pyval)
    (st : hstate) :
  log_error format (PInt code :: args) st = (inl tt, st).
Proof.
  unfold log_error, base_log_error, log_message. cbn [pystr].
  pose proof (str_nat_digits code) as D.
  unfold contains_any, logged_extensions. cbn [existsb].
  rewrite !contains_digits by first [exact D | reflexivity].
  reflexivity.
Qed.

(** Facts about what a state has written or buffered are kept by whatever
    leaves both alone. *)
Section Frames.

Variable P : list string -> list chunk -> Prop.
Let I (st : hstate) : Prop := P (headers_buffer st) (wfile st).
Variable req : request.

Lemma frame_close (b : bool) : preserves I (set_close_connection b).
Proof. now intros st H. Qed.

Lemma frame_fs (c : fs_call) : preserves I (fs_call_made c).
Proof. now intros st H. Qed.

Lemma frame_log_request (code : nat) :
  preserves I (log_request req log_message code).
Proof.
  intros st H. rewrite log_request_run.
  now destruct (contains_any logged_extensions (path req)).
Qed.

Lemma frame_log_error (code : nat) (message : string) :
  preserves I (log_error "code %d, message %s" [PInt code; PStr message]).
Proof. intros st H. now rewrite log_error_code_run. Qed.

End Frames.

Lemma frame_log_request_sock (P : list chunk -> peer -> Prop) (req : request)
    (code : nat) :
  preserves (fun st => P (wfile st) (sock st)) (log_request req log_message code).
Proof.
  intros st H. rewrite log_request_run.
  now destruct (contains_any logged_extensions (path req)).
Qed.

(** **** A response is written whenever the peer takes the first write *)

Section Stages.

Context {A B : Type}.

Lemma steps_ret (P : hstate -> Prop) (a : A) : steps P (ret a) P.
Proof. intros st H. split; [now exists a | exact H]. Qed.

Lemma steps_bind (P R Q : hstate -> Prop) (m : M A) (k : A -> M B) :
  steps P m R -> (forall a, steps R (k a) Q) -> steps P (bind m k) Q.
Proof.
  intros Hm Hk st H. unfold bind. destruct (Hm st H) as [[a Ea] HR].
  destruct (m st) as [[a'|e] st']; cbn [fst snd] in *; [|discriminate].
  now apply Hk.
Qed.

Lemma steps_reaches (P Q : hstate -> Prop) (m : M A) :
  steps P m Q -> reaches P m Q.
Proof. intros Hm st H. now apply Hm. Qed.

Lemma reaches_bind_steps (P R Q : hstate -> Prop) (m : M A) (k : A -> M B) :
  steps P m R -> (forall a, reaches R (k a) Q) -> reaches P (bind m k) Q.
Proof.
  intros Hm Hk st H. unfold bind. destruct (Hm st H) as [[a Ea] HR].
  destruct (m st) as [[a'|e] st']; cbn [fst snd] in *; [|discriminate].
  now apply Hk.
Qed.

Lemma reaches_bind_done (P Q : hstate -> Prop) (m : M A) (k : A -> M B) :
  reaches P m Q -> (forall a, preserves Q (k a)) -> reaches P (bind m k) Q.
Proof.
  intros Hm Hk st H. unfold bind. specialize (Hm st H).
  destruct (m st) as [[a|e] st']; cbn [fst snd] in *; [now apply Hk | exact Hm].
Qed.

End Stages.

Lemma reaches_then_ret {T U : Type} (m : M T) (u : U) (P Q : hstate -> Prop) :
  reaches P m Q -> reaches P (m ;; ret u) Q.
Proof.
  intros H. eapply reaches_bind_done; [exact H | intros; apply preserves_ret].
Qed.

Lemma reaches_try {T : Type} (m h : M T) (caught : exn -> bool)
    (P Q : hstate -> Prop) :
  reaches P m Q -> preserves Q h -> reaches P (try_except m caught h) Q.
Proof.
  intros Hm Hh st H. unfold try_except. specialize (Hm st H).
  destruct (m st) as [[a|e] st']; cbn [snd] in *; [exact Hm|].
  destruct (caught e); [now apply Hh | exact Hm].
Qed.

(** Every run of the handler goes through three stages: [Before] the
    response, while the file system is looked up and an error logged;
    [Started], from [send_response] on, while headers are buffered; [Done],
    from [end_headers] on, while the body is written. *)
Section Staged.

Variables Before Started Done : hstate -> Prop.
Variable lib : pylib.
Variable directory : string.
Variable root : FS.node.
Variable req : request.

Hypothesis st_fs : forall c, steps Before (fs_call_made c) Before.
Hypothesis st_log_error :
  forall code message,
    steps Before (log_error "code %d, message %s" [PInt code; PStr message]) Before.
Hypothesis st_send_response :
  forall code message,
    steps Before (send_response lib req log_message code message) Started.
Hypothesis st_send_header :
  forall keyword value, steps Started (send_header keyword value) Started.
Hypothesis st_end : reaches Started (end_headers req) Done.
Hypothesis st_body : forall data, preserves Done (write (Body data)).

Ltac fs_step x :=
  eapply reaches_bind_steps;
  [eapply steps_bind; [apply st_fs | intros; apply steps_ret] | intros x].

Ltac header_step :=
  eapply reaches_bind_steps; [apply st_send_header | intros].

Ltac response_step :=
  eapply reaches_bind_steps; [apply st_send_response | intros].

Lemma staged_send_error (code : nat) (message : string) :
  reaches Before
    (send_error lib req (end_headers req) log_message log_error code message)
    Done.
Proof.
  unfold send_error.
  eapply reaches_bind_steps; [apply st_log_error | intros].
  response_step. header_step.
  destruct ((200 <=? code)%nat && _).
  - header_step. header_step.
    eapply reaches_bind_done; [exact st_end | intros].
    repeat pres_step; apply st_body.
  - exact st_end.
Qed.

Lemma staged_list_directory (p : string) :
  reaches Before
    (list_directory lib directory root req (end_headers req) log_message log_error p)
    Done.
Proof.
  unfold list_directory, os_listdir.
  fs_step l. destruct l as [entries|].
  - response_step. header_step. header_step. now apply reaches_then_ret.
  - apply reaches_then_ret, staged_send_error.
Qed.

Lemma staged_send_file_head (p : string) :
  reaches Before
    (send_file_head lib directory root req (end_headers req) log_message
       log_error (guess_type lib) p)
    Done.
Proof.
  unfold send_file_head, os_open.
  destruct (endswith p "/"); [apply reaches_then_ret, staged_send_error|].
  fs_step f.
  destruct f as [[mtime data]|]; [|apply reaches_then_ret, staged_send_error].
  match goal with |- reaches _ (if ?b then _ else _) _ => destruct b end.
  - response_step. now apply reaches_then_ret.
  - response_step. header_step. header_step. header_step.
    now apply reaches_then_ret.
Qed.

Lemma staged_send_head :
  reaches Before
    (send_head lib directory root req (end_headers req) log_message log_error
       (guess_type lib))
    Done.
Proof.
  unfold send_head, os_path_isdir, os_path_isfile.
  fs_step isdir. destruct isdir; [|apply staged_send_file_head].
  match goal with |- reaches _ (if ?b then _ else _) _ => destruct b end.
  - response_step. header_step. header_step. now apply reaches_then_ret.
  - fs_step i1. destruct i1; [apply staged_send_file_head|].
    fs_step i2.
    destruct i2; [apply staged_send_file_head | apply staged_list_directory].
Qed.

Lemma staged_handle : reaches Before (handle lib directory root req) Done.
Proof.
  unfold handle, do_GET, do_OPTIONS, do_HEAD, base_do_GET, copyfile.
  destruct (command req).
  - destruct (String.eqb (path req) "/favicon.ico").
    + response_step. exact st_end.
    + apply reaches_try; [|apply preserves_ret].
      eapply reaches_bind_done; [apply staged_send_head|].
      intros [source|]; [|apply preserves_ret].
      apply (good_copyfileobj (fun T m => preserves Done m));
        auto using (@preserves_ret), (@preserves_bind).
  - apply reaches_then_ret, staged_send_head.
  - response_step. exact st_end.
Qed.

End Staged.

(** The stages of what is written: nothing; the status line in the buffer;
    the header block on the socket. *)
Section Responds.

Variable lib : pylib.
Variable directory : string.
Variable root : FS.node.
Variable req : request.

Lemma steps_fs (c : fs_call) : steps unsent (fs_call_made c) unsent.
Proof. intros st H. split; [now exists tt | exact H]. Qed.

Lemma steps_log_error (code : nat) (message : string) :
  steps unsent (log_error "code %d, message %s" [PInt code; PStr message]) unsent.
Proof.
  intros st H. rewrite log_error_code_run. split; [now exists tt | exact H].
Qed.

Lemma steps_push_status (code : nat) (message : string) :
  steps unsent (push_header (status_line code message)) status_buffered.
Proof.
  intros st (Hw & Hb & Hs). split; [now exists tt|].
  repeat split; try assumption. cbn [snd push_header headers_buffer].
  rewrite Hb. now exists code, message, [].
Qed.

Lemma steps_send_header (keyword value : string) :
  steps status_buffered (send_header keyword value) status_buffered.
Proof.
  intros st (Hw & (code & message & rest & Hb) & Hs).
  unfold send_header, bind, push_header, set_close_connection, ret.
  destruct (String.eqb (lower keyword) "connection");
    [destruct (String.eqb (lower value) "close");
     [|destruct (String.eqb (lower value) "keep-alive")]|];
    (split; [now exists tt|]);
    (repeat split; try assumption);
    cbn [snd headers_buffer]; rewrite Hb;
    now exists code, message, (rest ++ [header_line keyword value])%list.
Qed.

Lemma steps_log_request (code : nat) :
  steps unsent (log_request req log_message code) unsent.
Proof.
  intros st H. rewrite log_request_run.
  destruct (contains_any logged_extensions (path req));
    (split; [now exists tt | exact H]).
Qed.

Lemma steps_send_response (code : nat) (message : option string) :
  steps unsent (send_response lib req log_message code message) status_buffered.
Proof.
  unfold send_response, send_response_only.
  eapply steps_bind; [apply steps_log_request | intros].
  eapply steps_bind; [apply steps_push_status | intros].
  eapply steps_bind; [apply steps_send_header | intros].
  apply steps_send_header.
Qed.

Lemma reaches_end_headers : reaches status_buffered (end_headers req) responded.
Proof.
  intros st (Hw & (code & message & rest & Hb) & Hs).
  rewrite end_headers_run.
  destruct (sock st) as [|[|n] e]; try discriminate;
    cbn [snd wfile]; rewrite Hw, Hb;
    now exists code, message, (rest ++ closing_lines req)%list, [].
Qed.

Lemma keeps_response_body (data : string) : preserves responded (write (Body data)).
Proof.
  intros st (code & message & block & bodies & Hw). unfold write.
  destruct (sock st) as [|[|n] e]; cbn [snd];
    try (now exists code, message, block, bodies);
    exists code, message, block, (bodies ++ [data])%list;
    cbn [wfile]; rewrite Hw, map_app; reflexivity.
Qed.

(** Handling a request writes one block of header lines, a status line
    first, and after it pieces of the body only. *)
Lemma handle_responds : reaches unsent (handle lib directory root req) responded.
Proof.
  apply (staged_handle unsent status_buffered responded);
    auto using steps_fs, steps_log_error, steps_send_response,
      steps_send_header, reaches_end_headers, keeps_response_body.
Qed.

End Responds.

(** The stages of what is printed: nothing; the log line of the request, if
    its path holds a logged extension. *)
Section Logged.

Variable lib : pylib.
Variable directory : string.
Variable root : FS.node.
Variable req : request.

Lemma logged_send_header (keyword value : string) :
  steps (request_logged req) (send_header keyword value) (request_logged req).
Proof.
  intros st H.
  unfold send_header, bind, push_header, set_close_connection, ret.
  destruct (String.eqb (lower keyword) "connection");
    [destruct (String.eqb (lower value) "close");
     [|destruct (String.eqb (lower value) "keep-alive")]|];
    (split; [now exists tt | exact H]).
Qed.

Lemma logged_send_response (code : nat) (message : option string) :
  steps nothing_printed (send_response lib req log_message code message) (request_logged req).
Proof.
  unfold send_response, send_response_only.
  apply steps_bind with (R := (request_logged req));
    [|intros; apply steps_bind with (R := (request_logged req));
      [|intros; apply steps_bind with (R := (request_logged req))]].
  - intros st H. rewrite log_request_run. split.
    + destruct (contains_any logged_extensions (path req)); now exists tt.
    + unfold request_logged, nothing_printed, request_log in *.
      exists code.
      destruct (contains_any logged_extensions (path req));
        cbn [snd print stdout]; now rewrite H.
  - intros st H. split; [now exists tt | exact H].
  - apply logged_send_header.
  - intros; apply logged_send_header.
Qed.

(** Whatever the peer does, handling a request prints the log line of the
    request when its path holds a (request_logged req) extension, and nothing else. *)
Lemma handle_logs : reaches nothing_printed (handle lib directory root req) (request_logged req).
Proof.
  apply (staged_handle nothing_printed (request_logged req) (request_logged req));
    auto using logged_send_response, logged_send_header.
  - intros c st H. split; [now exists tt | exact H].
  - intros code message st H. rewrite log_error_code_run.
    split; [now exists tt | exact H].
  - intros st H. rewrite end_headers_run. now destruct (sock st) as [|[|n] e].
  - intros data st H. unfold write. now destruct (sock st) as [|[|n] e].
Qed.

End Logged.



(** **** Header blocks that hold given lines *)

Section HeldLines.

Variable lib : pylib.
Variable directory : string.
Variable root : FS.node.
Variable req : request.
Variable ls : list string.
Hypothesis closing : has_lines ls (closing_lines req).

Lemma every_head_app (P : list string -> Prop) (w : list chunk) (c : chunk) :
  every_head P w -> (forall block, c = Head block -> P block) ->
  every_head P (w ++ [c]).
Proof.
  intros H Hc block I. apply in_app_or in I as [I|[E|[]]]; [now apply H|].
  now apply Hc.
Qed.

Lemma keeps_held_lines :
  preserves (fun st => every_head (has_lines ls) (wfile st))
            (handle lib directory root req).
Proof.
  apply keeps_handle.
  - now intros line _ st H.
  - exact (frame_close (fun _ w => every_head (has_lines ls) w)).
  - exact (frame_fs (fun _ w => every_head (has_lines ls) w)).
  - intros data st H. unfold write.
    destruct (sock st) as [|[|n] e]; cbn [snd wfile]; try assumption;
      (apply every_head_app; [assumption | discriminate]).
  - intros st H. rewrite end_headers_run.
    destruct (sock st) as [|[|n] e]; cbn [snd wfile]; try assumption;
      (apply every_head_app; [assumption|]);
      intros block [= <-] l Hl; apply in_or_app; right; now apply closing.
  - exact (frame_log_request (fun _ w => every_head (has_lines ls) w) req).
  - exact (frame_log_error (fun _ w => every_head (has_lines ls) w)).
Qed.

End HeldLines.

(** **** Header blocks without lines of some kind *)

Section LackingLines.

Variable lib : pylib.
Variable directory : string.
Variable root : FS.node.
Variable req : request.
Variable bad : string -> bool.
Hypothesis base_good : forall line, base_line line -> bad line = false.
Hypothesis closing_good : no_line bad (closing_lines req).

Lemma no_line_app (a b : list string) :
  no_line bad a -> no_line bad b -> no_line bad (a ++ b).
Proof.
  intros Ha Hb l I. apply in_app_or in I as [I|I]; [exact (Ha l I) | exact (Hb l I)].
Qed.

Lemma keeps_no_line :
  preserves (fun st => no_line bad (headers_buffer st)
                       /\ every_head (no_line bad) (wfile st))
            (handle lib directory root req).
Proof.
  apply keeps_handle.
  - intros line B st [Hb Hw]. split; [|exact Hw].
    cbn [snd push_header headers_buffer].
    apply no_line_app; [exact Hb|].
    intros l [<-|[]]. exact (base_good _ B).
  - exact (frame_close (fun b w => no_line bad b /\ every_head (no_line bad) w)).
  - exact (frame_fs (fun b w => no_line bad b /\ every_head (no_line bad) w)).
  - intros data st [Hb Hw]. unfold write.
    destruct (sock st) as [|[|n] e]; cbn [snd wfile headers_buffer];
      (split; [exact Hb|]); try assumption;
      (apply every_head_app; [assumption | discriminate]).
  - intros st [Hb Hw]. rewrite end_headers_run.
    pose proof (no_line_app _ _ Hb closing_good) as Hblock.
    destruct (sock st) as [|[|n] e]; cbn [snd wfile headers_buffer];
      split; try assumption; try (now intros l []);
      (apply every_head_app; [assumption|]); now intros block [= <-].
  - exact (frame_log_request
             (fun b w => no_line bad b /\ every_head (no_line bad) w) req).
  - exact (frame_log_error
             (fun b w => no_line bad b /\ every_head (no_line bad) w)).
Qed.

Lemma handle_no_line (p : peer) :
  every_head (no_line bad) (wfile (snd (handle lib directory root req (fresh p)))).
Proof.
  apply keeps_no_line. split; [now intros l [] | now intros block []].
Qed.

End LackingLines.

Ltac each_base_line B :=
  destruct B as [code message C|keyword value K];
  [unfold status_codes in C; cbn [In] in C;
   repeat (destruct C as [<-|C]; [reflexivity|]); contradiction
  |unfold base_keywords in K; cbn [In] in K;
   repeat (destruct K as [<-|K]; [reflexivity|]); contradiction].

Lemma base_line_not_audio (line : string) :
  base_line line -> among audio_lines line = false.
Proof. intros B. each_base_line B. Qed.

Lemma base_line_not_partial (line : string) :
  base_line line -> partial_content line = false.
Proof. intros B. each_base_line B. Qed.

Lemma closing_lines_not_partial (req : request) :
  no_line partial_content (closing_lines req).
Proof.
  unfold closing_lines. intros l I.
  destruct (endswith_any (path req) audio_suffixes);
    unfold cors_lines, audio_lines in I; cbn [In app] in I;
    repeat (destruct I as [<-|I]; [reflexivity|]); contradiction.
Qed.

Lemma closing_lines_not_audio (req : request) :
  endswith_any (path req) audio_suffixes = false ->
  no_line (among audio_lines) (closing_lines req).
Proof.
  unfold closing_lines. intros -> l I.
  unfold cors_lines in I; cbn [In app] in I.
  repeat (destruct I as [<-|I]; [reflexivity|]); contradiction.
Qed.

Lemma among_lacks (ls block : list string) :
  no_line (among ls) block -> lacks_lines ls block.
Proof.
  intros H l Hl I. specialize (H l I). unfold among in H.
  assert (E : existsb (String.eqb l) ls = true)
    by (apply existsb_exists; exists l; split; [exact Hl | apply String.eqb_refl]).
  congruence.
Qed.

Lemma keeps_no_audio_lines (lib : pylib) (directory : string) (root : FS.node)
    (req : request) (p : peer) :
  endswith_any (path req) audio_suffixes = false ->
  every_head (lacks_lines audio_lines)
             (wfile (snd (handle lib directory root req (fresh p)))).
Proof.
  intros H block I. apply among_lacks.
  revert block I.
  apply (handle_no_line lib directory root req (among audio_lines)
           base_line_not_audio (closing_lines_not_audio req H)).
Qed.

Lemma has_cors_lines (req : request) : has_lines cors_lines (closing_lines req).
Proof. intros l Hl. unfold closing_lines. apply in_or_app. now left. Qed.

Lemma has_audio_lines (req : request) :
  endswith_any (path req) audio_suffixes = true ->
  has_lines audio_lines (closing_lines req).
Proof.
  intros H l Hl. unfold closing_lines. rewrite H.
  apply in_or_app. right. apply in_or_app. now left.
Qed.

(** Once the peer is gone nothing is written. *)
Lemma keeps_nothing_written (lib : pylib) (directory : string) (root : FS.node)
    (req : request) (e : exn) :
  preserves (fun st => wfile st = [] /\ sock st = Closes O e)
            (handle lib directory root req).
Proof.
  apply keeps_handle.
  - now intros line _ st H.
  - now intros b st H.
  - now intros c st H.
  - intros data st [Hw Hs]. unfold write. now rewrite Hs.
  - intros st [Hw Hs]. rewrite end_headers_run, Hs. now split.
  - exact (frame_log_request_sock (fun w p => w = [] /\ p = Closes O e) req).
  - intros code message st H. now rewrite log_error_code_run.
Qed.


(** C2, as the code has it: when the raw request path ends in one of
    [.wav], [.WAV], [.mp3], [.MP3], every block of header lines written
    holds [Cache-Control: max-age=3600] and [Accept-Ranges: bytes]. *)
Theorem audio_headers_on_listed_suffixes (lib : pylib) (directory : string)
    (root : FS.node) (req : request) (p : peer) :
  endswith_any (path req) audio_suffixes = true ->
  every_head (has_lines audio_lines)
             (wfile (snd (handle lib directory root req (fresh p)))).
Proof.
  intros H.
  apply (keeps_held_lines lib directory root req audio_lines (has_audio_lines req H)).
  now intros block [].
Qed.


Lemma audio_headers_on_listed_suffixes_witness :
  endswith_any "/recording.wav" audio_suffixes = true
  /\ every_head (has_lines audio_lines)
       (wfile (snd (Examples.serve Examples.recordings
                      (Examples.get "/recording.wav" []) Connected))).
Proof.
  split; [reflexivity|].
  apply (audio_headers_on_listed_suffixes Examples.sample_lib "/srv/rec"
           Examples.recordings (Examples.get "/recording.wav" []) Connected).
  reflexivity.
Defined.

Ltac no_such_line I :=
  vm_compute in I; repeat (destruct I as [I|I]; [discriminate I|]); exact I.

(** C2 as stated fails: [/Take1.Wav] ends in [.wav] but for the case of
    a letter, it is served as [audio/wav], and the header block holds neither
    [Cache-Control] nor [Accept-Ranges]. *)
Lemma audio_headers_missing_for_mixed_case :
  endswith (lower "/Take1.Wav") ".wav" = true
  /\ exists block,
       wfile (snd (Examples.serve Examples.recordings
                     (Examples.get "/Take1.Wav" []) Connected))
       = [Head block; Body (Examples.bytes 8)]
       /\ In (header_line "Content-type" "audio/wav") block
       /\ lacks_lines audio_lines block.
Proof.
  split; [reflexivity|]. eexists. split; [vm_compute; reflexivity|]. split.
  - vm_compute. tauto.
  - intros l Hl I. unfold audio_lines in Hl. cbn [In] in Hl.
    destruct Hl as [<-|[<-|[]]]; no_such_line I.
Qed.

(** **** The query string and the audio lines *)

Lemma endswith_any_query (stem query : string) :
  endswith_any (stem ++ "?" ++ query) audio_suffixes
  = endswith_any query audio_suffixes.
Proof.
  unfold endswith_any, audio_suffixes. cbn [existsb].
  change ("?" ++ query) with (String "?" query).
  now rewrite !endswith_after_sep by reflexivity.
Qed.

(** C10, as the code has it: the test is on the raw path, so for a URL
    with a query string it is on the end of the query string.  No header
    block holds the audio lines when the query string does not end in one of
    the four suffixes, whatever file is served; every header block holds them
    when it does. *)
Theorem audio_headers_follow_query_string (lib : pylib) (directory : string)
    (root : FS.node) (req : request) (stem query : string) (p : peer) :
  path req = stem ++ "?" ++ query ->
  let w := wfile (snd (handle lib directory root req (fresh p))) in
  (endswith_any query audio_suffixes = false ->
   every_head (lacks_lines audio_lines) w)
  /\ (endswith_any query audio_suffixes = true ->
      every_head (has_lines audio_lines) w).
Proof.
  intros Hp. cbv zeta. split; intros Hq.
  - apply keeps_no_audio_lines. now rewrite Hp, endswith_any_query.
  - assert (H : endswith_any (path req) audio_suffixes = true)
      by now rewrite Hp, endswith_any_query.
    apply (keeps_held_lines lib directory root req audio_lines (has_audio_lines req H)).
    now intros block [].
Qed.

Lemma audio_headers_follow_query_string_witness :
  endswith_any "t=30" audio_suffixes = false
  /\ every_head (lacks_lines audio_lines)
       (wfile (snd (Examples.serve Examples.recordings
                      (Examples.get "/recording.wav?t=30" []) Connected)))
  /\ exists block,
       wfile (snd (Examples.serve Examples.recordings
                     (Examples.get "/recording.wav?t=30" []) Connected))
       = [Head block; Body (Examples.bytes 500)]
       /\ In (header_line "Content-type" "audio/wav") block.
Proof.
  split; [reflexivity|]. split.
  - apply (proj1 (audio_headers_follow_query_string Examples.sample_lib "/srv/rec"
                    Examples.recordings (Examples.get "/recording.wav?t=30" [])
                    "/recording.wav" "t=30" Connected eq_refl)).
    reflexivity.
  - eexists. split; [vm_compute; reflexivity|]. vm_compute. tauto.
Defined.

(** C10 as stated fails: [/recording.wav?next=b.mp3] carries a query
    string, and the header block holds both audio lines. *)
Lemma audio_headers_with_audio_query :
  exists block,
    wfile (snd (Examples.serve Examples.recordings
                  (Examples.get "/recording.wav?next=b.mp3" []) Connected))
    = [Head block; Body (Examples.bytes 500)]
    /\ has_lines audio_lines block.
Proof.
  eexists. split; [vm_compute; reflexivity|].
  intros l Hl. unfold audio_lines in Hl. cbn [In] in Hl.
  destruct Hl as [<-|[<-|[]]]; vm_compute; tauto.
Qed.

(** **** The favicon *)

(** C7: a GET of exactly [/favicon.ico] writes one header block with the
    status line of 204 and no body, prints nothing and makes no file-system
    call, whatever directory is served; when the peer is gone before the
    write, the write raises and still no file-system call was made. *)
Theorem favicon_no_content (lib : pylib) (directory : string) (root : FS.node)
    (req : request) (p : peer) :
  command req = GET -> path req = "/favicon.ico" ->
  let block :=
    ([status_line 204 "No Content";
      header_line "Server" (version_string lib);
      header_line "Date" (date_time_string lib None)]
     ++ cors_lines ++ [crlf])%list in
  handle lib directory root req (fresh p) =
  match p with
  | Closes O e =>
      (inr e, {| headers_buffer := block; close_connection := true;
                 wfile := []; stdout := []; fs_calls := []; sock := p |})
  | _ =>
      (inl tt, {| headers_buffer := []; close_connection := true;
                  wfile := [Head block]; stdout := []; fs_calls := [];
                  sock := match p with Closes (S n) e => Closes n e | _ => p end |})
  end.
Proof.
  destruct req as [c pth v hs]. cbn [command path]. intros -> ->.
  destruct v, p as [|[|n] e]; vm_compute; reflexivity.
Qed.

Lemma favicon_no_content_witness :
  fs_calls (snd (Examples.serve Examples.recordings
                   (Examples.get "/favicon.ico" []) Connected)) = []
  /\ exists block,
       wfile (snd (Examples.serve Examples.recordings
                     (Examples.get "/favicon.ico" []) Connected))
       = [Head (status_line 204 "No Content" :: block)].
Proof.
  unfold Examples.serve.
  rewrite (favicon_no_content Examples.sample_lib "/srv/rec" Examples.recordings
             (Examples.get "/favicon.ico" []) Connected eq_refl eq_refl).
  split; [reflexivity|]. eexists. reflexivity.
Defined.

(** **** A peer that disconnects *)

Section Disciplined.

Context {A B : Type}.

Lemma disciplined_ret (a : A) : disciplined (ret a).
Proof. intros st. split; [reflexivity | discriminate]. Qed.

Lemma disciplined_bind (m : M A) (k : A -> M B) :
  disciplined m -> (forall a, disciplined (k a)) -> disciplined (bind m k).
Proof.
  intros Hm Hk st. unfold bind. destruct (Hm st) as [Hs He].
  destruct (m st) as [[a|e] st']; cbn [fst snd] in *.
  - destruct (Hk a st') as [Hs' He']. split; [congruence|].
    intros e E. rewrite <- Hs. now apply He'.
  - split; [exact Hs|]. intros e' [= <-]. now apply He.
Qed.

Lemma disciplined_try (m h : M A) (caught : exn -> bool) :
  disciplined m -> disciplined h -> disciplined (try_except m caught h).
Proof.
  intros Hm Hh st. unfold try_except. destruct (Hm st) as [Hs He].
  destruct (m st) as [[a|e] st']; cbn [fst snd] in *.
  - split; [exact Hs | discriminate].
  - destruct (caught e).
    + destruct (Hh st') as [Hs' He']. split; [congruence|].
      intros e' E. rewrite <- Hs. now apply He'.
    + split; [exact Hs | exact He].
Qed.

End Disciplined.

Lemma disciplined_write (c : chunk) : disciplined (write c).
Proof.
  intros st. unfold write.
  destruct (sock st) as [|[|n] e] eqn:E; cbn [fst snd sock];
    rewrite ?E; cbn [peer_exn]; (split; [reflexivity | congruence]).
Qed.

Lemma disciplined_end_headers (req : request) : disciplined (end_headers req).
Proof.
  intros st. rewrite end_headers_run.
  destruct (sock st) as [|[|n] e] eqn:E; cbn [fst snd sock];
    rewrite ?E; cbn [peer_exn]; (split; [reflexivity | congruence]).
Qed.

Lemma disciplined_log_request (req : request) (code : nat) :
  disciplined (log_request req log_message code).
Proof.
  intros st. rewrite log_request_run.
  destruct (contains_any logged_extensions (path req));
    (split; [reflexivity | discriminate]).
Qed.

Lemma disciplined_base_do_GET (lib : pylib) (directory : string)
    (root : FS.node) (req : request) :
  disciplined (base_do_GET lib directory root req (end_headers req)
                 log_message log_error (guess_type lib)).
Proof.
  apply (good_base_do_GET (fun A m => disciplined m));
    auto using (@disciplined_ret), (@disciplined_bind), disciplined_write,
      disciplined_end_headers, disciplined_log_request;
    try (intros; intros st; split; [reflexivity | discriminate]).
  intros code message st. rewrite log_error_code_run.
  split; [reflexivity | discriminate].
Qed.

Lemma keeps_only_request_lines (lib : pylib) (directory : string)
    (root : FS.node) (req : request) :
  preserves (fun st => only_request_lines req (stdout st))
            (handle lib directory root req).
Proof.
  apply keeps_handle.
  - now intros line _ st H.
  - now intros b st H.
  - now intros c st H.
  - intros data st H. unfold write. now destruct (sock st) as [|[|n] e].
  - intros st H. rewrite end_headers_run. now destruct (sock st) as [|[|n] e].
  - intros code st H. rewrite log_request_run.
    destruct (contains_any logged_extensions (path req)); [|exact H].
    intros line I. cbn [snd print stdout] in I.
    apply in_app_or in I as [I|[<-|[]]]; [now apply H | now exists code].
  - intros code message st H. now rewrite log_error_code_run.
Qed.



(** **** The [Range] header *)

Lemma find_without (name dropped : string) (hs : list (string * string)) :
  String.eqb (lower name) (lower dropped) = false ->
  find (fun h => String.eqb (lower (fst h)) (lower name))
       (filter (fun h => negb (String.eqb (lower (fst h)) (lower dropped))) hs)
  = find (fun h => String.eqb (lower (fst h)) (lower name)) hs.
Proof.
  intros N. induction hs as [|h hs IH]; [reflexivity|].
  cbn [filter find].
  destruct (String.eqb_spec (lower (fst h)) (lower dropped)) as [E|E];
    cbn [negb find].
  - rewrite E, String.eqb_sym, N. exact IH.
  - now rewrite IH.
Qed.

Lemma headers_get_without (name dropped : string) (hs : list (string * string)) :
  String.eqb (lower name) (lower dropped) = false ->
  headers_get name
    (filter (fun h => negb (String.eqb (lower (fst h)) (lower dropped))) hs)
  = headers_get name hs.
Proof. intros N. unfold headers_get. now rewrite find_without. Qed.

(** The handler reads two request headers and no other. *)
Lemma handle_reads_two_headers (lib : pylib) (directory : string)
    (root : FS.node) (c : method) (pth : string) (v : version)
    (hs hs' : list (string * string)) :
  headers_get "If-Modified-Since" hs = headers_get "If-Modified-Since" hs' ->
  headers_get "If-None-Match" hs = headers_get "If-None-Match" hs' ->
  handle lib directory root
    {| command := c; path := pth; request_version := v; headers := hs |}
  = handle lib directory root
      {| command := c; path := pth; request_version := v; headers := hs' |}.
Proof.
  intros H1 H2.
  unfold handle, do_GET, do_OPTIONS, do_HEAD, base_do_GET, send_head,
    send_file_head, list_directory, send_error, send_response, log_request,
    requestline, end_headers.
  cbn [command path request_version headers].
  now rewrite H1, H2.
Qed.

(** A [Range] header changes nothing in what the handler does. *)
Lemma handle_without_range (lib : pylib) (directory : string) (root : FS.node)
    (req : request) :
  handle lib directory root (without_header "Range" req)
  = handle lib directory root req.
Proof.
  destruct req as [c pth v hs]. unfold without_header.
  cbn [command path request_version headers].
  apply handle_reads_two_headers; now apply headers_get_without.
Qed.

(** C1: the handler answers a request as it answers the request without
    its [Range] headers, and no header block it writes has the status line
    of 206.  So a GET of an existing 500-byte recording with
    [Range: bytes=0-99] gets status 200 and all 500 bytes, with
    [Accept-Ranges: bytes] among the header lines and no [Content-Range]
    line. *)
Theorem range_header_is_ignored :
  (forall lib directory root req,
     handle lib directory root (without_header "Range" req)
     = handle lib directory root req)
  /\ (forall lib directory root req p,
        every_head (no_line partial_content)
          (wfile (snd (handle lib directory root req (fresh p)))))
  /\ let ranged := Examples.get "/recording.wav" [("Range", "bytes=0-99")] in
     let out := Examples.serve Examples.recordings ranged Connected in
     fst out = inl tt
     /\ String.length (body_of (wfile (snd out))) = 500
     /\ exists block,
          wfile (snd out)
          = [Head (status_line 200 "OK" :: block); Body (Examples.bytes 500)]
          /\ In (header_line "Content-Length" "500") block
          /\ In (header_line "Accept-Ranges" "bytes") block
          /\ forall value, ~ In (header_line "Content-Range" value) block.
Proof.
  split; [exact handle_without_range|]. split.
  - intros lib directory root req p.
    apply handle_no_line;
      [exact base_line_not_partial | apply closing_lines_not_partial].
  - cbv zeta. split; [reflexivity|]. split; [reflexivity|].
    eexists. split; [vm_compute; reflexivity|]. split; [vm_compute; tauto|].
    split; [vm_compute; tauto|].
    intros value I. unfold header_line in I. cbn [In append] in I.
    repeat (destruct I as [I|I]; [discriminate I|]). exact I.
Qed.

End HandlerFacts.

(* ===================================================================== *)
(** ** The command line and [main]: properties *)
(* ===================================================================== *)

Module CliFacts.
Import FS Launch Cli.

Lemma mem_In (x : string) (l : list string) : mem x l = true <-> In x l.
Proof.
  unfold mem. rewrite existsb_exists. split.
  - intros (y & I & E). apply String.eqb_eq in E. now subst.
  - intros I. exists x. split; [exact I | apply String.eqb_refl].
Qed.

Lemma mem_not_In (x : string) (l : list string) : ~ In x l -> mem x l = false.
Proof.
  intros N. apply not_true_is_false. intros E. now apply N, mem_In.
Qed.

(** [index] finds the first occurrence. *)
Lemma index_first (x : string) (pre post : list string) :
  ~ In x pre -> index x (pre ++ x :: post)%list = Some (length pre).
Proof.
  induction pre as [|y pre IH]; intros N; cbn [app index length].
  - now rewrite String.eqb_refl.
  - destruct (String.eqb_spec y x) as [->|D]; [exfalso; apply N; now left|].
    rewrite IH; [reflexivity|]. intros I. apply N. now right.
Qed.

Lemma enumerate_from (start : nat) (l : list string) (ia : nat * string) :
  In ia (enumerate start l) -> start <= fst ia.
Proof.
  revert start. induction l as [|x l IH]; intros start; [contradiction|].
  intros [<-|I]; [apply Nat.le_refl|]. apply IH in I. lia.
Qed.

Lemma filter_all {A : Type} (f : A -> bool) (l : list A) :
  (forall x, In x l -> f x = true) -> filter f l = l.
Proof.
  induction l as [|a l IH]; intros H; [reflexivity|].
  cbn [filter]. rewrite (H a) by now left.
  f_equal. apply IH. intros x I. apply H. now right.
Qed.

Lemma map_snd_enumerate (start : nat) (l : list string) :
  map snd (enumerate start l) = l.
Proof.
  revert start. induction l as [|x l IH]; intros start; [reflexivity|].
  cbn [enumerate map snd]. now rewrite IH.
Qed.

(** The comprehension drops the option and its value, and nothing else. *)
Lemma drop_two (pre : list string) (a b : string) (post : list string) :
  forall start,
  map snd
    (filter
       (fun ia : nat * string =>
          negb ((fst ia =? start + length pre)%nat
                || (fst ia =? start + length pre + 1)%nat))
       (enumerate start (pre ++ a :: b :: post)%list))
  = (pre ++ post)%list.
Proof.
  induction pre as [|x pre IH]; intros start; cbn [app enumerate length filter fst].
  - rewrite Nat.add_0_r, Nat.eqb_refl. cbn [orb negb].
    replace (S start =? start)%nat with false by (symmetry; apply Nat.eqb_neq; lia).
    replace (S start =? start + 1)%nat with true by (symmetry; apply Nat.eqb_eq; lia).
    cbn [orb negb]. rewrite filter_all; [apply map_snd_enumerate|].
    intros ia I. apply enumerate_from in I.
    apply negb_true_iff, orb_false_iff. split; apply Nat.eqb_neq; lia.
  - replace (start =? start + S (length pre))%nat with false
      by (symmetry; apply Nat.eqb_neq; lia).
    replace (start =? start + S (length pre) + 1)%nat with false
      by (symmetry; apply Nat.eqb_neq; lia).
    cbn [orb negb map snd]. f_equal.
    replace (start + S (length pre))%nat with (S start + length pre)%nat by lia.
    apply IH.
Qed.

Lemma nth_error_after (pre : list string) (x : string) (post : list string) :
  nth_error (pre ++ x :: post)%list (length pre + 1) = nth_error post 0.
Proof.
  rewrite nth_error_app2 by lia.
  replace (length pre + 1 - length pre)%nat with 1%nat by lia. reflexivity.
Qed.

Lemma parse_port_found (int : string -> option Z) (prog : string)
    (pre : list string) (value : string) (post : list string) (port : Z) :
  prog <> "--port" -> ~ In "--port" pre -> int value = Some port ->
  parse_port int (prog :: pre ++ "--port" :: value :: post)%list
  = Some (port, (prog :: pre ++ post)%list).
Proof.
  intros P N V. unfold parse_port.
  assert (N' : ~ In "--port" (prog :: pre)) by (intros [E|I]; [now apply P | now apply N]).
  assert (M : mem "--port" ((prog :: pre) ++ "--port" :: value :: post)%list = true).
  { apply mem_In, in_or_app. right. now left. }
  cbn [app] in M. rewrite M.
  pose proof (index_first "--port" (prog :: pre) (value :: post) N') as I.
  cbn [app] in I. rewrite I.
  pose proof (nth_error_after (prog :: pre) "--port" (value :: post)) as E.
  cbn [app nth_error] in E. cbn [nth_error]. rewrite E, V.
  do 2 f_equal. f_equal. cbn [length].
  exact (drop_two pre "--port" value post 1).
Qed.

Lemma parse_port_misused (int : string -> option Z) (pre : list string) :
  ~ In "--port" pre ->
  parse_port int (pre ++ ["--port"])%list = None
  /\ forall value post,
       int value = None ->
       parse_port int (pre ++ "--port" :: value :: post)%list = None.
Proof.
  intros N. split; [|intros value post V]; unfold parse_port.
  - replace (mem "--port" (pre ++ ["--port"])%list) with true
      by (symmetry; apply mem_In, in_or_app; right; now left).
    rewrite index_first, nth_error_after by assumption. reflexivity.
  - replace (mem "--port" (pre ++ "--port" :: value :: post)%list) with true
      by (symmetry; apply mem_In, in_or_app; right; now left).
    rewrite index_first, nth_error_after by assumption. cbn [nth_error].
    now rewrite V.
Qed.

(** X10: the option [--port] and its value may stand anywhere after the
    name of the script: [main] runs with the port that follows the first
    [--port] and with the other arguments in their order, so the directory
    is found before or after the option; without the option the port is
    8000 and the arguments are left as they are. *)
Theorem port_option_anywhere (w : world) (prog : string) (pre : list string)
    (value : string) (post : list string) (port : Z) :
  prog <> "--port" -> ~ In "--port" pre -> py_int w value = Some port ->
  script w (prog :: pre ++ "--port" :: value :: post)%list
  = main w port (prog :: pre ++ post)%list
  /\ (~ In "--port" post ->
      script w (prog :: pre ++ post)%list = main w 8000 (prog :: pre ++ post)%list).
Proof.
  intros P N V. split.
  - unfold script. now rewrite (parse_port_found (py_int w) prog pre value post port).
  - intros N'. unfold script, parse_port.
    rewrite mem_not_In; [reflexivity|].
    intros [E|I]; [now apply P|].
    apply in_app_or in I as [I|I]; [now apply N | now apply N'].
Qed.

Lemma port_option_anywhere_witness :
  script Examples.sample_world ["audiomoth_server.py"; "/srv/rec"; "--port"; "8080"]
  = main Examples.sample_world 8080 ["audiomoth_server.py"; "/srv/rec"]
  /\ script Examples.sample_world ["audiomoth_server.py"; "--port"; "8080"; "/srv/rec"]
     = main Examples.sample_world 8080 ["audiomoth_server.py"; "/srv/rec"].
Proof.
  split.
  - apply (port_option_anywhere Examples.sample_world "audiomoth_server.py"
             ["/srv/rec"] "8080" [] 8080);
      [discriminate | intros [E|[]]; discriminate | reflexivity].
  - apply (port_option_anywhere Examples.sample_world "audiomoth_server.py"
             [] "8080" ["/srv/rec"] 8080);
      [discriminate | intros [] | reflexivity].
Defined.

(** X11: when the first [--port] is the last argument, or is followed by
    something [int] rejects, the script prints the two lines on the use of
    [--port] and exits with status 1; it does nothing else: the directory
    is not looked at and no server is made. *)
Theorem port_option_misused (w : world) (pre : list string) :
  ~ In "--port" pre ->
  script w (pre ++ ["--port"])%list = usage
  /\ forall value post,
       py_int w value = None ->
       script w (pre ++ "--port" :: value :: post)%list = usage.
Proof.
  intros N. destruct (parse_port_misused (py_int w) pre N) as [L V].
  unfold script. split; [now rewrite L|].
  intros value post E. now rewrite (V value post E).
Qed.

Lemma port_option_misused_witness :
  script Examples.sample_world ["audiomoth_server.py"; "/srv/rec"; "--port"] = usage
  /\ script Examples.sample_world ["audiomoth_server.py"; "--port"; "/srv/rec"] = usage.
Proof.
  split.
  - apply (port_option_misused Examples.sample_world
             ["audiomoth_server.py"; "/srv/rec"]).
    intros [E|[E|[]]]; discriminate.
  - apply (port_option_misused Examples.sample_world ["audiomoth_server.py"]);
      [intros [E|[]]; discriminate | reflexivity].
Defined.

Lemma start_cases (w : world) (port : Z) (here : string * node) :
  let r := start w port here in
  (snd r = Exit 0 <-> In ServeForever (fst r))
  /\ (forall url,
        In (WebbrowserOpen url) (fst r) ->
        tcp_server w port = Listens
        /\ In ServeForever (fst r)
        /\ exists report,
             find_html_report (snd here) = Some report
             /\ url = ("http://localhost:" ++ Str.str_int port ++ "/" ++ report)%string)
  /\ (snd r = Uncaught ->
      match tcp_server w port with
      | Listens => False
      | RaisesOSError e => address_in_use e = false
      | RaisesOther => True
      end)
  /\ In (TCPServer port) (fst r)
  /\ (snd r = Exit 0 \/ snd r = Exit 1 \/ snd r = Uncaught).
Proof.
  assert (NP : forall (e : event) ls, is_print e = false -> ~ In e (map Print ls)).
  { intros e ls E I. apply in_map_iff in I as (l & <- & _). discriminate. }
  cbv zeta. unfold start. split; [|split; [|split; [|split]]].
  - destruct (tcp_server w port) as [|e|]; [|destruct (address_in_use e)|];
      cbn [fst snd]; (split; [try discriminate | intros I]).
    + intros _. apply in_or_app. right. apply in_or_app. left.
      unfold serving. rewrite !app_assoc. apply in_or_app. right. now left.
    + reflexivity.
    + exfalso. apply in_app_or in I as [I|I].
      * apply in_app_or in I as [I|[I|[]]]; [|discriminate]. now apply NP in I.
      * now apply NP in I.
    + exfalso. apply in_app_or in I as [I|[I|[]]]; [|discriminate]. now apply NP in I.
    + exfalso. apply in_app_or in I as [I|[I|[]]]; [|discriminate]. now apply NP in I.
  - intros url I.
    destruct (tcp_server w port) as [|e|]; [|destruct (address_in_use e)|];
      cbn [fst] in I.
    + split; [reflexivity|]. split.
      * apply in_or_app. right. apply in_or_app. left.
        unfold serving. rewrite !app_assoc. apply in_or_app. right. now left.
      * apply in_app_or in I as [I|I].
        { apply in_app_or in I as [I|[I|[]]]; [|discriminate]. now apply NP in I. }
        apply in_app_or in I as [I|[I|[]]]; [|discriminate].
        unfold serving in I. apply in_app_or in I as [[I|[]]|I]; [discriminate|].
        apply in_app_or in I as [I|I].
        -- destruct (find_html_report (snd here)) as [report|] eqn:R;
             cbn [found] in I; [|contradiction].
           destruct (Str.nonempty report); [|contradiction].
           exists report. split; [reflexivity|].
           apply in_app_or in I as [I|I].
           ++ destruct I as [I|[I|[I|[]]]]; try discriminate.
              injection I as <-. reflexivity.
           ++ destruct (webbrowser_open w _); [contradiction|].
              destruct I as [I|[]]. discriminate.
        -- apply in_app_or in I as [I|[I|[]]]; [|discriminate]. now apply NP in I.
    + exfalso. apply in_app_or in I as [I|I].
      * apply in_app_or in I as [I|[I|[]]]; [|discriminate]. now apply NP in I.
      * now apply NP in I.
    + exfalso. apply in_app_or in I as [I|[I|[]]]; [|discriminate]. now apply NP in I.
    + exfalso. apply in_app_or in I as [I|[I|[]]]; [|discriminate]. now apply NP in I.
  - destruct (tcp_server w port) as [|e|]; [|destruct (address_in_use e) eqn:A|];
      cbn [snd]; try discriminate; auto.
  - destruct (tcp_server w port) as [|e|]; [|destruct (address_in_use e)|];
      cbn [fst]; rewrite <- ?app_assoc;
      apply in_or_app; right; now left.
  - destruct (tcp_server w port) as [|e|]; [|destruct (address_in_use e)|];
      cbn [snd]; auto.
Qed.

Lemma main_start (w : world) (port : Z) (argv : list string) :
  (exists directory,
     served w argv = None
     /\ main w port argv
        = ([Print ("❌ Error: '" ++ directory ++ "' no es un directorio válido")%string],
           Exit 1))
  \/ (exists here chdir,
        served w argv = Some here
        /\ main w port argv
           = ((chdir ++ fst (start w port here))%list, snd (start w port here))
        /\ (chdir = [] \/ exists directory, chdir = [Chdir directory])).
Proof.
  unfold main, served.
  destruct argv as [|argv0 [|directory rest]].
  - right. exists (cwd w), []. split; [reflexivity|].
    split; [now destruct (start w port (cwd w)) | now left].
  - right. exists (cwd w), []. split; [reflexivity|].
    split; [now destruct (start w port (cwd w)) | now left].
  - destruct (directory_at w directory) as [here|] eqn:D.
    + right. exists here, [Chdir directory]. split; [reflexivity|].
      split; [now destruct (start w port here) | right; now exists directory].
    + left. now exists directory.
Qed.

Lemma in_after_chdir (chdir events : list event) (e : event) :
  chdir = [] \/ (exists directory, chdir = [Chdir directory]) ->
  (forall directory, e <> Chdir directory) ->
  In e (chdir ++ events)%list <-> In e events.
Proof.
  intros [->|(d & ->)] N; [reflexivity|]. cbn [app In]. split; [|now right].
  intros [E|I]; [|exact I]. exfalso. now apply (N d).
Qed.

(** X12: the script exits with status 0 exactly when [serve_forever] ran,
    that is, after the server listened and the user interrupted it; every
    other run ends with status 1, or with an exception nothing catches, and
    that only when the server could not be made for another reason than an
    address in use.  The server is not even made exactly when [--port] is
    misused or the directory argument is not a directory, and the status is
    1 then. *)
Theorem exit_0_iff_served (w : world) (argv : list string) :
  let r := script w argv in
  (snd r = Exit 0 <-> In ServeForever (fst r))
  /\ (snd r = Exit 0 \/ snd r = Exit 1 \/ snd r = Uncaught)
  /\ (snd r = Uncaught ->
      exists port,
        In (TCPServer port) (fst r)
        /\ match tcp_server w port with
           | Listens => False
           | RaisesOSError e => address_in_use e = false
           | RaisesOther => True
           end)
  /\ ((forall port, ~ In (TCPServer port) (fst r)) <->
      match parse_port (py_int w) argv with
      | None => True
      | Some (_, argv') => served w argv' = None
      end)
  /\ ((forall port, ~ In (TCPServer port) (fst r)) -> snd r = Exit 1).
Proof.
  cbv zeta. unfold script.
  destruct (parse_port (py_int w) argv) as [[port argv']|].
  - destruct (main_start w port argv') as [(d & Sv & E)|(here & chdir & Sv & E & C)].
    + rewrite E, Sv. cbn [fst snd].
      assert (N : forall port', ~ In (TCPServer port') [Print ("❌ Error: '" ++ d ++ "' no es un directorio válido")%string])
        by (intros port' [F|[]]; discriminate).
      split; [|split; [|split; [|split]]].
      * split; [discriminate | intros [F|[]]; discriminate].
      * auto.
      * discriminate.
      * split; [reflexivity | intros _; exact N].
      * reflexivity.
    + destruct (start_cases w port here) as (S0 & _ & U & T & Cs).
      rewrite E, Sv. cbn [fst snd].
      assert (IT : In (TCPServer port) (chdir ++ fst (start w port here))%list)
        by (apply in_after_chdir; [exact C | discriminate | exact T]).
      split; [|split; [|split; [|split]]].
      * split; intros H.
        -- apply in_after_chdir; [exact C | discriminate | now apply S0].
        -- apply S0. apply in_after_chdir in H; [exact H | exact C | discriminate].
      * exact Cs.
      * intros H. exists port. split; [exact IT | now apply U].
      * split; [intros H; exfalso; now apply (H port) | discriminate].
      * intros H. exfalso. now apply (H port).
  - cbn [usage fst snd].
    assert (N : forall port,
              ~ In (TCPServer port)
                   [Print "❌ Error: Uso incorrecto de --port";
                    Print "   Ejemplo: python servidor_audiomoth.sh --port 8080"])
      by (intros port [F|[F|[]]]; discriminate).
    split; [|split; [|split; [|split]]].
    + split; [discriminate | intros [F|[F|[]]]; discriminate].
    + auto.
    + discriminate.
    + split; [reflexivity | intros _; exact N].
    + reflexivity.
Qed.

(** X13: the browser is opened only at [http://localhost:PORT/REPORT], where
    REPORT is what [find_html_report] returns for the directory served and
    PORT the port asked for, only once the server listens, and the server
    then serves whether or not the browser could be opened. *)
Theorem browser_opens_report_url (w : world) (argv : list string) (url : string) :
  In (WebbrowserOpen url) (fst (script w argv)) ->
  exists port argv' here report,
    parse_port (py_int w) argv = Some (port, argv')
    /\ served w argv' = Some here
    /\ find_html_report (snd here) = Some report
    /\ url = ("http://localhost:" ++ Str.str_int port ++ "/" ++ report)%string
    /\ tcp_server w port = Listens
    /\ In ServeForever (fst (script w argv)).
Proof.
  unfold script.
  destruct (parse_port (py_int w) argv) as [[port argv']|].
  - destruct (main_start w port argv') as [(d & _ & E)|(here & chdir & Sv & E & C)].
    + rewrite E. intros [F|[]]. discriminate.
    + rewrite E. cbn [fst]. intros H.
      apply in_after_chdir in H; [|exact C | discriminate].
      destruct (start_cases w port here) as (_ & B & _).
      destruct (B url H) as (L & Sf & report & R & U).
      exists port, argv', here, report. repeat split; try assumption.
      apply in_after_chdir; [exact C | discriminate | exact Sf].
  - intros [F|[F|[]]]; discriminate.
Qed.

Lemma browser_opens_report_url_witness :
  exists port argv' here report,
    parse_port (py_int Examples.sample_world)
      ["audiomoth_server.py"; "/srv/rec"; "--port"; "8080"] = Some (port, argv')
    /\ served Examples.sample_world argv' = Some here
    /\ find_html_report (snd here) = Some report
    /\ "http://localhost:8080/reporte.html"
       = ("http://localhost:" ++ Str.str_int port ++ "/" ++ report)%string
    /\ tcp_server Examples.sample_world port = Listens
    /\ In ServeForever
         (fst (script Examples.sample_world
                 ["audiomoth_server.py"; "/srv/rec"; "--port"; "8080"])).
Proof.
  apply (browser_opens_report_url Examples.sample_world
           ["audiomoth_server.py"; "/srv/rec"; "--port"; "8080"]
           "http://localhost:8080/reporte.html").
  vm_compute. tauto.
Defined.

Lemma actions_app (l l' : list event) :
  actions (l ++ l')%list = (actions l ++ actions l')%list.
Proof. apply filter_app. Qed.

Lemma actions_prints (ls : list string) : actions (map Print ls) = [].
Proof. induction ls as [|l ls IH]; [reflexivity | exact IH]. Qed.

(** X14: a browser that cannot be opened changes nothing but the line the
    script prints about it: the script ends the same way and makes the same
    calls, the attempt to open the browser included. *)
Theorem browser_failure_is_harmless (w : world) (argv : list string) :
  snd (script (without_browser w) argv) = snd (script w argv)
  /\ actions (fst (script (without_browser w) argv))
     = actions (fst (script w argv)).
Proof.
  unfold script. cbn [without_browser py_int].
  destruct (parse_port (py_int w) argv) as [[port argv']|]; [|now split].
  assert (S : forall here,
            snd (start (without_browser w) port here) = snd (start w port here)
            /\ actions (fst (start (without_browser w) port here))
               = actions (fst (start w port here))).
  { intros here. unfold start. cbn [without_browser tcp_server].
    destruct (tcp_server w port) as [|e|]; [|now split..].
    cbn [fst snd]. split; [reflexivity|].
    rewrite !actions_app. do 2 f_equal.
    unfold serving. rewrite !actions_app. do 1 f_equal. f_equal.
    destruct (found (find_html_report (snd here))); [|reflexivity].
    rewrite !actions_app. f_equal. cbn [webbrowser_open without_browser].
    now destruct (webbrowser_open w _). }
  unfold main. cbn [without_browser directory_at cwd].
  destruct argv' as [|argv0 [|directory rest]]; try apply S.
  destruct (directory_at w directory) as [here|]; [|now split].
  destruct (S here) as [E A].
  destruct (start (without_browser w) port here) as [ev e].
  destruct (start w port here) as [ev' e']. cbn [fst snd] in *.
  split; [exact E|]. unfold actions in *. cbn [filter is_print negb].
  now f_equal.
Qed.

End CliFacts.

(* ===================================================================== *)
(** ** The launch helper: what is found and what is counted *)
(* ===================================================================== *)

Module DiscoveryFacts.
Import FS Launch Examples StrFacts LaunchFacts.

(** Every path a selector yields leads to an entry of the tree, and matches
    the pattern part by part. *)
Lemma select_from_reach (parts : list string) :
  forall (pre : list string) (d : node) (m : list string),
  In m (select_from parts pre d) ->
  exists q n, m = (pre ++ q)%list /\ reach d q n /\ parts_match parts q = true.
Proof.
  induction parts as [|pat rest IH]; intros pre d m I.
  - destruct I as [<-|[]]. exists [], d.
    split; [now rewrite app_nil_r|]. split; [constructor | reflexivity].
  - cbn [select_from] in I. apply in_flat_map in I as ([name c] & Ie & I).
    cbn [fst snd] in I.
    destruct ((negb match rest with [] => false | _ => true end || is_dir c)
              && fnmatch pat name) eqn:E; [|contradiction].
    apply andb_true_iff in E as [_ E].
    destruct (IH _ _ _ I) as (q & n & -> & R & P).
    destruct d as [mtime data|es]; [contradiction|]. cbn [scandir] in Ie.
    exists (name :: q), n. split; [now rewrite <- app_assoc|].
    split; [now apply reach_down with (c := c)|].
    cbn [parts_match]. now rewrite E, P.
Qed.

Lemma hd_error_In {A : Type} (l : list A) (x : A) : hd_error l = Some x -> In x l.
Proof. destruct l as [|a l]; [discriminate|]. intros [= <-]. now left. Qed.

(** What the nine globs of [find_html_report] yield. *)
Lemma glob_reach (k : nat) (pattern : string) (d : node) (m : list string) :
  In pattern patterns -> (k <= 2)%nat ->
  In m (glob (String.concat "" (repeat "*/" k) ++ pattern) d) ->
  exists n, reach d m n /\ length m = S k /\ fnmatch pattern (last m "") = true.
Proof.
  intros I K G. unfold glob in G.
  destruct (is_dir d); [|contradiction].
  assert (P : pattern_parts (String.concat "" (repeat "*/" k) ++ pattern)
              = (repeat "*" k ++ [pattern])%list).
  { destruct I as [<-|[<-|[<-|[]]]];
      (destruct k as [|[|[|k]]]; [reflexivity | reflexivity | reflexivity | lia]). }
  rewrite P in G. apply select_from_reach in G as (q & n & -> & R & M).
  cbn [app]. exists n. split; [exact R|].
  destruct k as [|[|[|k]]]; [| | |lia]; cbn [repeat app parts_match] in M.
  - destruct q as [|a [|b q]]; try discriminate.
    + cbn [last]. now rewrite andb_true_r in M.
    + apply andb_true_iff in M as [_ M]. discriminate.
  - destruct q as [|a [|b [|c q]]]; try discriminate.
    + apply andb_true_iff in M as [_ M]. discriminate.
    + cbn [last length]. apply andb_true_iff in M as [_ M].
      now rewrite andb_true_r in M.
    + apply andb_true_iff in M as [_ M]. apply andb_true_iff in M as [_ M].
      discriminate.
  - destruct q as [|a [|b [|c [|x q]]]]; try discriminate.
    + apply andb_true_iff in M as [_ M]. discriminate.
    + apply andb_true_iff in M as [_ M]. apply andb_true_iff in M as [_ M].
      discriminate.
    + cbn [last length]. apply andb_true_iff in M as [_ M].
      apply andb_true_iff in M as [_ M]. now rewrite andb_true_r in M.
    + apply andb_true_iff in M as [_ M]. apply andb_true_iff in M as [_ M].
      apply andb_true_iff in M as [_ M]. discriminate.
Qed.

Lemma report_name_true (pattern name : string) :
  In pattern patterns -> fnmatch pattern name = true -> report_name name = true.
Proof.
  intros I M. unfold report_name. apply existsb_exists. now exists pattern.
Qed.

(** X7: what [find_html_report] returns names an entry of the tree: the
    path, from the directory, of an entry one to three parts down whose
    name matches one of the patterns, written with [/] between the parts.
    The entry is not required to be a regular file. *)
Theorem find_html_report_names_an_entry (d : node) (r : string) :
  find_html_report d = Some r ->
  exists p n,
    reach d p n /\ (1 <= length p <= 3)%nat
    /\ report_name (last p "") = true /\ r = path_str p.
Proof.
  rewrite find_html_report_hd. intros H. apply hd_error_In in H.
  apply in_app_or in H as [H|H].
  - unfold root_matches in H. apply in_flat_map in H as (pattern & I & H).
    apply in_map_iff in H as (m & <- & H).
    apply (glob_reach 0 pattern d m I) in H as (n & R & L & M); [|lia].
    exists m, n. split; [exact R|]. split; [lia|].
    split; [now apply report_name_true with (pattern := pattern)|].
    destruct m as [|a [|b m]]; try discriminate. reflexivity.
  - unfold subdir_matches in H. apply in_flat_map in H as (pattern & I & H).
    apply in_map_iff in H as (m & <- & H). apply in_app_or in H as [H|H].
    + apply (glob_reach 1 pattern d m I) in H as (n & R & L & M); [|lia].
      exists m, n. split; [exact R|]. split; [lia|].
      split; [now apply report_name_true with (pattern := pattern) | reflexivity].
    + apply (glob_reach 2 pattern d m I) in H as (n & R & L & M); [|lia].
      exists m, n. split; [exact R|]. split; [lia|].
      split; [now apply report_name_true with (pattern := pattern) | reflexivity].
Qed.

Lemma find_html_report_names_an_entry_witness :
  exists p n,
    reach report_in_sub p n /\ (1 <= length p <= 3)%nat
    /\ report_name (last p "") = true
    /\ "sub/audiomoth_reporte.html" = path_str p.
Proof.
  apply (find_html_report_names_an_entry report_in_sub "sub/audiomoth_reporte.html").
  reflexivity.
Defined.

Lemma report_name_cases (name : string) :
  report_name name = true ->
  fnmatch "audiomoth_reporte.html" name = true
  \/ fnmatch "reporte.html" name = true
  \/ fnmatch "*audiomoth*.html" name = true.
Proof.
  unfold report_name, patterns. cbn [existsb]. rewrite orb_false_r.
  intros R. apply orb_true_iff in R as [M|R]; [now left|].
  apply orb_true_iff in R as [M|M]; [right; now left | right; now right].
Qed.

(** The matches of a one-part pattern in a directory: the names it accepts,
    in the order of the entries. *)
Lemma glob_names (pattern : string) (es : list (string * node)) :
  pattern_parts pattern = [pattern] ->
  map path_name (glob pattern (Dir es)) = filter (fnmatch pattern) (map fst es).
Proof.
  intros P. unfold glob. cbn [is_dir]. rewrite P, select_last.
  induction es as [|[name c] es IH]; [reflexivity|].
  cbn [flat_map map fst filter]. rewrite map_app, map_app, IH.
  now destruct (fnmatch pattern name).
Qed.

Lemma hd_error_filter {A : Type} (f : A -> bool) (l : list A) (x : A) :
  In x l -> f x = true -> exists y, hd_error (filter f l) = Some y /\ In y l /\ f y = true.
Proof.
  intros I F.
  assert (I' : In x (filter f l)) by now apply filter_In.
  destruct (filter f l) as [|y l'] eqn:E; [contradiction|].
  exists y. split; [reflexivity|].
  assert (Iy : In y (filter f l)) by (rewrite E; now left).
  now apply filter_In in Iy.
Qed.

Lemma filter_none {A : Type} (f : A -> bool) (l : list A) :
  (forall x, In x l -> f x = false) -> filter f l = [].
Proof.
  induction l as [|a l IH]; intros H; [reflexivity|].
  cbn [filter]. rewrite (H a) by now left. apply IH. intros x I. apply H. now right.
Qed.

Lemma search_root_names (es : list (string * node)) :
  search_root patterns (Dir es)
  = hd_error (filter (fnmatch "audiomoth_reporte.html") (map fst es)
              ++ filter (fnmatch "reporte.html") (map fst es)
              ++ filter (fnmatch "*audiomoth*.html") (map fst es))%list.
Proof.
  rewrite search_root_hd. unfold patterns. cbn [flat_map].
  rewrite !glob_names by reflexivity. now rewrite app_nil_r.
Qed.

(** X8: a match in the directory itself comes first.  When an entry of the
    directory has a name that matches a pattern, [find_html_report] returns
    the bare name of such an entry, whatever the subdirectories hold:
    [audiomoth_reporte.html] if the directory has it, else [reporte.html]
    if the directory has it. *)
Theorem report_in_directory_comes_first (es : list (string * node))
    (name : string) :
  In name (map fst es) -> report_name name = true ->
  exists first,
    find_html_report (Dir es) = Some first
    /\ In first (map fst es) /\ report_name first = true
    /\ (In "audiomoth_reporte.html" (map fst es) ->
        first = "audiomoth_reporte.html")
    /\ (~ In "audiomoth_reporte.html" (map fst es) ->
        In "reporte.html" (map fst es) -> first = "reporte.html").
Proof.
  intros I R. unfold find_html_report. rewrite search_root_names.
  set (names := map fst es) in *.
  assert (L1 : forall x, fnmatch "audiomoth_reporte.html" x = true ->
                         x = "audiomoth_reporte.html").
  { intros x M. rewrite fnmatch_literal in M by reflexivity.
    now apply String.eqb_eq in M. }
  assert (L2 : forall x, fnmatch "reporte.html" x = true -> x = "reporte.html").
  { intros x M. rewrite fnmatch_literal in M by reflexivity.
    now apply String.eqb_eq in M. }
  destruct (filter (fnmatch "audiomoth_reporte.html") names) as [|y1 l1] eqn:F1.
  - assert (N1 : ~ In "audiomoth_reporte.html" names).
    { intros I1.
      assert (I' : In "audiomoth_reporte.html"
                      (filter (fnmatch "audiomoth_reporte.html") names))
        by (apply filter_In; split;
            [exact I1 | rewrite fnmatch_literal by reflexivity; apply String.eqb_refl]).
      now rewrite F1 in I'. }
    cbn [app].
    destruct (filter (fnmatch "reporte.html") names) as [|y2 l2] eqn:F2.
    + cbn [app].
      assert (M3 : fnmatch "*audiomoth*.html" name = true).
      { destruct (report_name_cases name R) as [M|[M|M]]; [| |exact M]; exfalso.
        - assert (I' : In name (filter (fnmatch "audiomoth_reporte.html") names))
            by now apply filter_In.
          now rewrite F1 in I'.
        - assert (I' : In name (filter (fnmatch "reporte.html") names))
            by now apply filter_In.
          now rewrite F2 in I'. }
      destruct (hd_error_filter (fnmatch "*audiomoth*.html") names name I M3)
        as (y & E & Iy & My).
      rewrite E. exists y. split; [reflexivity|]. split; [exact Iy|].
      split; [apply report_name_true with (pattern := "*audiomoth*.html");
              [unfold patterns; cbn [In]; tauto | exact My]|].
      split; [intros I1; contradiction|].
      intros _ I2. exfalso.
      assert (I' : In "reporte.html" (filter (fnmatch "reporte.html") names))
        by (apply filter_In; split;
            [exact I2 | rewrite fnmatch_literal by reflexivity; apply String.eqb_refl]).
      now rewrite F2 in I'.
    + cbn [app hd_error].
      assert (Iy : In y2 (filter (fnmatch "reporte.html") names))
        by (rewrite F2; now left).
      apply filter_In in Iy as [Iy My].
      exists y2. split; [reflexivity|]. split; [exact Iy|].
      split; [apply report_name_true with (pattern := "reporte.html");
              [unfold patterns; cbn [In]; tauto | exact My]|].
      split; [intros I1; contradiction | intros _ _; now apply L2].
  - cbn [app hd_error].
    assert (Iy : In y1 (filter (fnmatch "audiomoth_reporte.html") names))
      by (rewrite F1; now left).
    apply filter_In in Iy as [Iy My].
    exists y1. split; [reflexivity|]. split; [exact Iy|].
    split; [apply report_name_true with (pattern := "audiomoth_reporte.html");
            [unfold patterns; cbn [In]; tauto | exact My]|].
    split; [intros _; now apply L1|].
    intros N1. exfalso. apply N1. now rewrite <- (L1 y1 My).
Qed.

Lemma report_in_directory_comes_first_witness :
  exists first,
    find_html_report recordings = Some first
    /\ In first (map fst [("recording.wav", File 1000 (bytes 500));
                          ("Take1.Wav", File 1000 (bytes 8));
                          ("reporte.html", File 1000 "<html></html>")])
    /\ report_name first = true
    /\ (In "audiomoth_reporte.html"
          (map fst [("recording.wav", File 1000 (bytes 500));
                    ("Take1.Wav", File 1000 (bytes 8));
                    ("reporte.html", File 1000 "<html></html>")]) ->
        first = "audiomoth_reporte.html")
    /\ (~ In "audiomoth_reporte.html"
            (map fst [("recording.wav", File 1000 (bytes 500));
                      ("Take1.Wav", File 1000 (bytes 8));
                      ("reporte.html", File 1000 "<html></html>")]) ->
        In "reporte.html"
          (map fst [("recording.wav", File 1000 (bytes 500));
                    ("Take1.Wav", File 1000 (bytes 8));
                    ("reporte.html", File 1000 "<html></html>")]) ->
        first = "reporte.html").
Proof.
  apply (report_in_directory_comes_first
           [("recording.wav", File 1000 (bytes 500));
            ("Take1.Wav", File 1000 (bytes 8));
            ("reporte.html", File 1000 "<html></html>")] "reporte.html").
  - cbn [map fst In]. tauto.
  - reflexivity.
Defined.

(** A name ends in at most one of [.wav] and [.WAV]. *)
Lemma one_spelling (name : string) :
  Str.endswith name ".wav" = true -> Str.endswith name ".WAV" = false.
Proof.
  intros H. apply not_true_is_false. intros H'.
  apply endswith_inv in H as (a & ->). apply endswith_inv in H' as (b & E).
  assert (L : String.length a = String.length b).
  { apply (f_equal String.length) in E. rewrite !length_app in E.
    cbn [String.length] in E. lia. }
  clear - E L. revert b E L. induction a as [|c a IH]; intros b E L.
  - destruct b; [discriminate | simpl in L; lia].
  - destruct b as [|c' b]; [simpl in L; lia|].
    injection E as _ E. injection L as L. now apply (IH b).
Qed.

Lemma entries_split (n : node) :
  entries_named ".wav" n + entries_named ".WAV" n = wav_files n + wav_dirs n.
Proof.
  induction n as [mtime data|es IH] using node_induction; [reflexivity|].
  cbn [entries_named wav_files wav_dirs].
  induction es as [|[name c] es IHes]; [reflexivity|].
  specialize (IHes (fun name' c' I => IH name' c' (or_intror I))).
  pose proof (IH name c (or_introl eq_refl)) as Hc.
  assert (E : (if Str.endswith name ".wav" then 1 else 0)
              + (if Str.endswith name ".WAV" then 1 else 0)
              = (if is_file c && Str.endswith_any name [".wav"; ".WAV"] then 1 else 0)
                + (if is_dir c && Str.endswith_any name [".wav"; ".WAV"] then 1 else 0)).
  { unfold Str.endswith_any, is_file. cbn [existsb]. rewrite orb_false_r.
    destruct (Str.endswith name ".wav") eqn:W.
    - rewrite (one_spelling name W). now destruct (is_dir c).
    - cbn [orb]. destruct (Str.endswith name ".WAV"); now destruct (is_dir c). }
  lia.
Qed.

(** X9: in a tree where the names in each directory are distinct,
    [count_wav_files] is the number of regular files whose name ends in
    [.wav] or [.WAV] plus the number of directories so named; it is the
    number of such files when no directory is so named.  Names with another
    spelling of the extension are not counted. *)
Theorem count_wav_files_files_and_directories (es : list (string * node)) :
  unique_names (Dir es) ->
  count_wav_files (Dir es) = wav_files (Dir es) + wav_dirs (Dir es)
  /\ (wav_dirs (Dir es) = 0 -> count_wav_files (Dir es) = wav_files (Dir es)).
Proof.
  intros U.
  assert (E : count_wav_files (Dir es) = wav_files (Dir es) + wav_dirs (Dir es))
    by (rewrite count_wav_files_entries by exact U; apply entries_split).
  split; [exact E | intros Z; lia].
Qed.

Lemma count_wav_files_files_and_directories_witness :
  count_wav_files recordings = 1 /\ wav_files recordings = 1
  /\ wav_dirs recordings = 0.
Proof.
  assert (U : unique_names recordings).
  { cbn. repeat split; try exact I.
    repeat constructor; cbn [In]; intros H;
      repeat (destruct H as [H|H]; [discriminate H|]); exact H. }
  destruct (count_wav_files_files_and_directories
              [("recording.wav", File 1000 (bytes 500));
               ("Take1.Wav", File 1000 (bytes 8));
               ("reporte.html", File 1000 "<html></html>")] U) as [E Z].
  split; [exact (Z eq_refl)|]. split; reflexivity.
Defined.

End DiscoveryFacts.

(* ===================================================================== *)
(** ** The path handed to the file system *)
(* ===================================================================== *)

Module PathFacts.
Import Str StrFacts Http.

(** The pieces [split] cuts hold no separator. *)
Lemma split_no_sep (sep : ascii) (s w : string) :
  In w (split sep s) -> occurs sep w = false.
Proof.
  revert w. induction s as [|c s IH]; intros w I.
  - destruct I as [<-|[]]. reflexivity.
  - cbn [split] in I. destruct (Ascii.eqb c sep) eqn:E.
    + destruct I as [<-|I]; [reflexivity | now apply IH].
    + destruct (split sep s) as [|w0 ws] eqn:S.
      * destruct I as [<-|[]]. cbn [occurs]. now rewrite Ascii.eqb_sym, E.
      * destruct I as [<-|I].
        -- cbn [occurs]. rewrite Ascii.eqb_sym, E. apply IH. now left.
        -- apply IH. now right.
Qed.

Lemma fold_left_skip {A B : Type} (skip : B -> bool) (g : A -> B -> A)
    (l : list B) :
  forall a,
  fold_left (fun acc w => if skip w then acc else g acc w) l a
  = fold_left g (filter (fun w => negb (skip w)) l) a.
Proof.
  induction l as [|w l IH]; intros a; [reflexivity|].
  cbn [fold_left filter]. destruct (skip w); cbn [negb fold_left]; apply IH.
Qed.

Lemma prefix_app (a b : string) : String.prefix a (a ++ b) = true.
Proof.
  induction a as [|c a IH]; [now destruct b|].
  cbn [append String.prefix]. destruct (ascii_dec c c); [exact IH | contradiction].
Qed.

Lemma prefix_trans_app (d a b : string) :
  String.prefix d a = true -> String.prefix d (a ++ b) = true.
Proof.
  revert a. induction d as [|c d IH]; intros a H; [now destruct (a ++ b)|].
  destruct a as [|c' a]; [discriminate|].
  cbn [append String.prefix] in *.
  destruct (ascii_dec c c'); [now apply IH | discriminate].
Qed.

Lemma os_path_join_plain (a w : string) :
  occurs "/" w = false -> exists sep, os_path_join a w = a ++ sep ++ w.
Proof.
  intros O. unfold os_path_join.
  assert (P : String.prefix "/" w = false).
  { destruct w as [|c w]; [reflexivity|]. cbn [occurs] in O.
    apply orb_false_iff in O as [O _]. cbn [String.prefix].
    destruct (ascii_dec "/" c) as [<-|]; [discriminate | reflexivity]. }
  rewrite P. destruct (negb (nonempty a) || endswith a "/");
    [now exists "" | now exists "/"].
Qed.

Lemma fold_join_prefix (ws : list string) :
  forall a d,
  (forall w, In w ws -> occurs "/" w = false) ->
  String.prefix d a = true ->
  String.prefix d (fold_left os_path_join ws a) = true.
Proof.
  induction ws as [|w ws IH]; intros a d O P; [exact P|].
  cbn [fold_left]. apply IH; [intros w' I; apply O; now right|].
  destruct (os_path_join_plain a w (O w (or_introl eq_refl))) as (sep & ->).
  now apply prefix_trans_app.
Qed.

Lemma append_empty (s : string) : s ++ "" = s.
Proof. induction s as [|c s IH]; [reflexivity | cbn [append]; now rewrite IH]. Qed.

Lemma prefix_refl (a : string) : String.prefix a a = true.
Proof.
  induction a as [|c a IH]; [reflexivity|].
  cbn [String.prefix]. destruct (ascii_dec c c); [exact IH | contradiction].
Qed.

Lemma translate_path_below (directory p : string) :
  exists words,
    translate_path directory p
    = fold_left os_path_join words directory
      ++ (if endswith (rstrip (before "#" (before "?" p))) "/" then "/" else "")
    /\ Forall plain_word words
    /\ String.prefix directory (translate_path directory p) = true.
Proof.
  unfold translate_path.
  set (trailing := endswith (rstrip (before "#" (before "?" p))) "/").
  set (all := filter nonempty
                (split "/" (normpath (unquote (before "#" (before "?" p)))))).
  exists (filter (fun w => negb (String.eqb w "." || String.eqb w "..")) all).
  assert (O : forall w, In w all -> occurs "/" w = false).
  { intros w I. apply filter_In in I as [I _]. now apply split_no_sep in I. }
  rewrite fold_left_skip. split; [|split].
  - destruct trailing; [reflexivity | symmetry; apply append_empty].
  - apply Forall_forall. intros w I. apply filter_In in I as [I N].
    apply negb_true_iff, orb_false_iff in N as [N1 N2].
    repeat split.
    + now apply filter_In in I.
    + now apply O.
    + now apply String.eqb_neq.
    + now apply String.eqb_neq.
  - assert (P : String.prefix directory
                  (fold_left os_path_join
                     (filter (fun w => negb (String.eqb w "." || String.eqb w "..")) all)
                     directory) = true).
    { apply fold_join_prefix; [|apply prefix_refl].
      intros w I. apply filter_In in I as [I _]. now apply O. }
    destruct trailing; [now apply prefix_trans_app | exact P].
Qed.

(** X6: the path [translate_path] hands to the file system is the served
    directory followed by path components none of which is empty, holds a
    [/], or is [.] or [..], with a [/] at the end when the request path
    ends in one: whatever the request path, it begins with the served
    directory and never climbs out of it. *)
Theorem translate_path_stays_below (directory p : string) :
  exists words,
    translate_path directory p
    = fold_left os_path_join words directory
      ++ (if endswith (rstrip (before "#" (before "?" p))) "/" then "/" else "")
    /\ Forall plain_word words
    /\ String.prefix directory (translate_path directory p) = true.
Proof. apply translate_path_below. Qed.

Lemma looked_up_below (directory : string) (req : request) (q : string) :
  In q (looked_up directory req) -> String.prefix directory q = true.
Proof.
  destruct (translate_path_below directory (path req)) as (words & _ & _ & P).
  unfold looked_up. intros [<-|[<-|[<-|[]]]]; [exact P| |].
  - destruct (os_path_join_plain (translate_path directory (path req)) "index.html"
                eq_refl) as (sep & ->).
    now apply prefix_trans_app.
  - destruct (os_path_join_plain (translate_path directory (path req)) "index.htm"
                eq_refl) as (sep & ->).
    now apply prefix_trans_app.
Qed.

End PathFacts.

(* ===================================================================== *)
(** ** The responses, request by request *)
(* ===================================================================== *)

Module ResponseFacts.
Import Str StrFacts Http LogFacts HandlerFacts.
Local Open Scope monad_scope.

Lemma bind_run {A B : Type} (m : M A) (k : A -> M B) (st st' : hstate) (a : A) :
  m st = (inl a, st') -> bind m k st = k a st'.
Proof. intros E. unfold bind. now rewrite E. Qed.

Lemma send_header_run (keyword value : string) (st : hstate) :
  String.eqb (lower keyword) "connection" = false ->
  send_header keyword value st = push_header (header_line keyword value) st.
Proof. intros H. unfold send_header, bind. cbn [push_header]. now rewrite H. Qed.

(** The message of the status line. *)
Lemma send_response_run (lib : pylib) (req : request) (code : nat)
    (message : option string) (st : hstate) :
  send_response lib req log_message code message st =
  (inl tt,
   {| headers_buffer :=
        (headers_buffer st
         ++ [status_line code
               match message with
               | Some m => m
               | None => match responses code with
                         | Some (short, _) => short
                         | None => ""
                         end
               end;
             header_line "Server" (version_string lib);
             header_line "Date" (date_time_string lib None)])%list;
      close_connection := close_connection st;
      wfile := wfile st;
      stdout := (stdout st ++ request_log req code)%list;
      fs_calls := fs_calls st;
      sock := sock st |}).
Proof.
  unfold send_response, send_response_only, request_log.
  unfold bind at 1. rewrite log_request_run.
  destruct (contains_any logged_extensions (path req));
    cbn [print]; unfold bind at 1; cbn [push_header];
    unfold bind at 1; rewrite send_header_run by reflexivity; cbn [push_header];
    rewrite send_header_run by reflexivity; unfold push_header;
    cbn [headers_buffer close_connection wfile stdout fs_calls sock];
    rewrite <- !app_assoc, ?app_nil_r; reflexivity.
Qed.

Ltac proj := cbn [fst snd headers_buffer close_connection wfile stdout fs_calls sock].



Lemma connection_close_run (st : hstate) :
  send_header "Connection" "close" st =
  (inl tt,
   {| headers_buffer := (headers_buffer st ++ [header_line "Connection" "close"])%list;
      close_connection := true;
      wfile := wfile st; stdout := stdout st;
      fs_calls := fs_calls st; sock := sock st |}).
Proof. reflexivity. Qed.

Lemma send_error_run (lib : pylib) (req : request) (message : string)
    (st : hstate) :
  sock st = Connected ->
  let page := error_page lib 404 message "Nothing matches the given URI" in
  send_error lib req (end_headers req) log_message log_error 404 message st =
  (inl tt,
   {| headers_buffer := [];
      close_connection := true;
      wfile :=
        (wfile st
         ++ Head (headers_buffer st
                  ++ [status_line 404 message;
                      header_line "Server" (version_string lib);
                      header_line "Date" (date_time_string lib None);
                      header_line "Connection" "close";
                      header_line "Content-Type" error_content_type;
                      header_line "Content-Length" (str_nat (String.length page))]
                  ++ closing_lines req)
         :: match command req with
            | HEAD => []
            | _ => if nonempty page then [Body page] else []
            end)%list;
      stdout := (stdout st ++ request_log req 404)%list;
      fs_calls := fs_calls st;
      sock := Connected |}).
Proof.
  intros Hs. cbv zeta. unfold send_error.
  change (responses 404) with (Some ("Not Found", "Nothing matches the given URI")).
  change ((200 <=? 404)%nat
          && negb ((404 =? 204)%nat || (404 =? 205)%nat || (404 =? 304)%nat))
    with true.
  cbv iota.
  unfold bind at 1. rewrite log_error_code_run.
  unfold bind at 1. rewrite send_response_run.
  unfold bind at 1. rewrite connection_close_run. proj.
  unfold bind at 1. rewrite send_header_run by reflexivity. unfold push_header. proj.
  unfold bind at 1. rewrite send_header_run by reflexivity. unfold push_header. proj.
  unfold bind at 1. rewrite end_headers_run. proj. rewrite Hs.
  rewrite <- !app_assoc. cbn [app].
  destruct (command req); [| reflexivity |];
    (destruct (nonempty _); [|reflexivity]);
    unfold write; proj; rewrite <- app_assoc; reflexivity.
Qed.

Lemma resolve_file_no_slash (directory : string) (root : FS.node) (p : string)
    (mtime : Z) (data : string) :
  resolve directory root p = Some (FS.File mtime data) -> endswith p "/" = false.
Proof.
  unfold resolve. destruct (strip_prefix directory p) as [rest|]; [|discriminate].
  destruct (walk root _) as [n|]; [|discriminate].
  destruct (endswith p "/"); [|reflexivity].
  destruct n; cbn; [discriminate|]. intros [= ].
Qed.

Lemma send_head_missing_run (lib : pylib) (directory : string) (root : FS.node)
    (req : request) :
  let p := translate_path directory (path req) in
  let page := error_page lib 404 "File not found" "Nothing matches the given URI" in
  resolve directory root p = None ->
  send_head lib directory root req (end_headers req) log_message log_error
    (guess_type lib) (fresh Connected)
  = (inl None,
     {| headers_buffer := [];
        close_connection := true;
        wfile :=
          Head ([status_line 404 "File not found";
                 header_line "Server" (version_string lib);
                 header_line "Date" (date_time_string lib None);
                 header_line "Connection" "close";
                 header_line "Content-Type" error_content_type;
                 header_line "Content-Length" (str_nat (String.length page))]
                ++ closing_lines req)
          :: match command req with
             | HEAD => []
             | _ => if nonempty page then [Body page] else []
             end;
        stdout := request_log req 404;
        fs_calls := Isdir p :: (if endswith p "/" then [] else [Open p]);
        sock := Connected |}).
Proof.
  cbv zeta. intros R. unfold send_head, os_path_isdir.
  unfold bind at 1. unfold bind at 1. unfold fs_call_made, ret, fresh. proj.
  rewrite R. cbv iota. unfold send_file_head.
  destruct (endswith (translate_path directory (path req)) "/").
  - unfold bind at 1. rewrite send_error_run by reflexivity. reflexivity.
  - unfold os_open. unfold bind at 1. unfold bind at 1. unfold fs_call_made, ret. proj.
    rewrite R. cbv iota.
    unfold bind at 1. rewrite send_error_run by reflexivity. reflexivity.
Qed.

Lemma send_head_file_run (lib : pylib) (directory : string) (root : FS.node)
    (req : request) (mtime : Z) (data : string) (peer : peer) :
  let p := translate_path directory (path req) in
  resolve directory root p = Some (FS.File mtime data) ->
  accepts_write peer = true ->
  send_head lib directory root req (end_headers req) log_message log_error
    (guess_type lib) (fresh peer)
  = if not_modified lib req mtime then
      (inl None,
       {| headers_buffer := [];
          close_connection := true;
          wfile :=
            [Head ([status_line 304 "Not Modified";
                    header_line "Server" (version_string lib);
                    header_line "Date" (date_time_string lib None)]
                   ++ closing_lines req)];
          stdout := request_log req 304;
          fs_calls := [Isdir p; Open p];
          sock := after_write peer |})
    else
      (inl (Some data),
       {| headers_buffer := [];
          close_connection := true;
          wfile :=
            [Head ([status_line 200 "OK";
                    header_line "Server" (version_string lib);
                    header_line "Date" (date_time_string lib None);
                    header_line "Content-type" (guess_type lib p);
                    header_line "Content-Length" (str_nat (String.length data));
                    header_line "Last-Modified" (date_time_string lib (Some mtime))]
                   ++ closing_lines req)];
          stdout := request_log req 200;
          fs_calls := [Isdir p; Open p];
          sock := after_write peer |}).
Proof.
  cbv zeta. intros R Hp. unfold send_head, os_path_isdir.
  unfold bind at 1. unfold bind at 1. unfold fs_call_made, ret, fresh. proj.
  rewrite R. cbn [FS.is_dir]. cbv iota. unfold send_file_head.
  rewrite (resolve_file_no_slash _ _ _ _ _ R).
  unfold os_open. unfold bind at 1. unfold bind at 1. unfold fs_call_made, ret. proj.
  rewrite R. cbv iota.
  fold (not_modified lib req mtime).
  destruct (not_modified lib req mtime).
  - unfold bind at 1. rewrite send_response_run.
    unfold bind at 1. rewrite end_headers_run. proj.
    destruct peer as [|[|n] e]; try discriminate; reflexivity.
  - unfold bind at 1. rewrite send_response_run.
    unfold bind at 1. rewrite send_header_run by reflexivity. unfold push_header. proj.
    unfold bind at 1. rewrite send_header_run by reflexivity. unfold push_header. proj.
    unfold bind at 1. rewrite send_header_run by reflexivity. unfold push_header. proj.
    unfold bind at 1. rewrite end_headers_run. proj.
    destruct peer as [|[|n] e]; try discriminate; reflexivity.
Qed.

Lemma read_app (k : N) (s : string) : fst (read k s) ++ snd (read k s) = s.
Proof.
  revert k. induction s as [|c s IH]; intros k; [reflexivity|].
  cbn [read]. destruct (N.eqb k 0); [reflexivity|].
  specialize (IH (N.pred k)). destruct (read (N.pred k) s) as [buf rest].
  cbn [fst snd] in *. cbn [append]. now rewrite IH.
Qed.

Lemma read_length (k : N) (s : string) :
  (N.of_nat (String.length (fst (read k s))) <= k)%N.
Proof.
  revert k. induction s as [|c s IH]; intros k; [cbn; lia|].
  cbn [read]. destruct (N.eqb_spec k 0) as [->|D]; [cbn; lia|].
  specialize (IH (N.pred k)). destruct (read (N.pred k) s) as [buf rest].
  cbn [fst String.length] in *. lia.
Qed.

Lemma read_nothing (k : N) (s : string) :
  k <> 0%N -> nonempty (fst (read k s)) = false -> s = "".
Proof.
  intros D. destruct s as [|c s]; [reflexivity|].
  cbn [read]. destruct (N.eqb_spec k 0) as [E|_]; [contradiction|].
  destruct (read (N.pred k) s). discriminate.
Qed.

Lemma body_of_app (w w' : list chunk) : body_of (w ++ w') = body_of w ++ body_of w'.
Proof.
  induction w as [|[ls|data] w IH]; [reflexivity | exact IH |].
  cbn [app body_of]. rewrite IH. now rewrite append_assoc.
Qed.

(** With the peer connected, [copyfileobj] writes the source in pieces of
    at most [COPY_BUFSIZE] bytes, none of them empty. *)
Lemma copyfileobj_run (fuel : nat) :
  forall (source : string) (st : hstate),
  sock st = Connected -> String.length source < fuel ->
  exists bodies,
    copyfileobj fuel source st =
    (inl tt,
     {| headers_buffer := headers_buffer st;
        close_connection := close_connection st;
        wfile := (wfile st ++ map Body bodies)%list;
        stdout := stdout st; fs_calls := fs_calls st; sock := Connected |})
    /\ body_of (map Body bodies) = source
    /\ Forall (fun b => 1 <= String.length b
                        /\ (N.of_nat (String.length b) <= COPY_BUFSIZE)%N) bodies.
Proof.
  induction fuel as [|fuel IH]; intros source st Hs L; [lia|].
  cbn [copyfileobj].
  pose proof (read_app COPY_BUFSIZE source) as A.
  pose proof (read_length COPY_BUFSIZE source) as B.
  pose proof (read_nothing COPY_BUFSIZE source ltac:(discriminate)) as E.
  destruct (read COPY_BUFSIZE source) as [buf rest]. cbn [fst snd] in *.
  destruct (nonempty buf) eqn:Nb.
  - unfold bind. unfold write at 1. rewrite Hs.
    assert (Lb : 1 <= String.length buf) by (destruct buf; [discriminate | cbn; lia]).
    assert (Lr : String.length rest < fuel).
    { rewrite <- A, length_app in L. lia. }
    destruct (IH rest
                {| headers_buffer := headers_buffer st;
                   close_connection := close_connection st;
                   wfile := (wfile st ++ [Body buf])%list;
                   stdout := stdout st; fs_calls := fs_calls st;
                   sock := Connected |} eq_refl Lr) as (bodies & R & C & F).
    exists (buf :: bodies). split; [|split].
    + rewrite R. proj. now rewrite <- app_assoc.
    + cbn [map body_of]. now rewrite C.
    + constructor; [|exact F]. split; [exact Lb | exact B].
  - exists []. rewrite (E eq_refl). split; [|split; [reflexivity | constructor]].
    unfold ret. destruct st as [b c w o f s]. cbn in *. subst s.
    now rewrite app_nil_r.
Qed.


Lemma handle_send_head (lib : pylib) (directory : string) (root : FS.node)
    (req : request) (st st' : hstate) (f : option string) :
  served_method req ->
  send_head lib directory root req (end_headers req) log_message log_error
    (guess_type lib) st = (inl f, st') ->
  handle lib directory root req st
  = match command req, f with
    | GET, Some source =>
        try_except (copyfile source) is_disconnect (ret tt) st'
    | _, _ => (inl tt, st')
    end.
Proof.
  unfold served_method, handle. intros Hm E.
  destruct (command req); [| |contradiction].
  - unfold do_GET. apply String.eqb_neq in Hm. rewrite Hm.
    unfold try_except, base_do_GET, bind. rewrite E.
    now destruct f.
  - unfold do_HEAD, bind. now rewrite E.
Qed.








(** A state property that the primitive effects other than the write of a
    piece of the body keep is kept by the handling of a HEAD request. *)
Section HeadOnly.

Variable I : hstate -> Prop.
Variable lib : pylib.
Variable directory : string.
Variable root : FS.node.
Variable req : request.

Hypothesis head : command req = HEAD.
Hypothesis I_push : forall line, preserves I (push_header line).
Hypothesis I_close : forall b, preserves I (set_close_connection b).
Hypothesis I_fs : forall c, preserves I (fs_call_made c).
Hypothesis I_end : preserves I (end_headers req).
Hypothesis I_log_request :
  forall code, preserves I (log_request req log_message code).
Hypothesis I_log_error :
  forall code message,
    preserves I (log_error "code %d, message %s" [PInt code; PStr message]).

Lemma keeps_head : preserves I (handle lib directory root req).
Proof.
  unfold handle. rewrite head.
  unfold do_HEAD, send_head, send_file_head, list_directory, send_error,
    send_response, send_response_only, send_header,
    os_path_isdir, os_path_isfile, os_open, os_listdir.
  rewrite head.
  repeat pres_step; auto.
Qed.

End HeadOnly.

Lemma no_body_is_head (w : list chunk) :
  is_response w -> (forall data, ~ In (Body data) w) ->
  exists code message block, w = [Head (status_line code message :: block)].
Proof.
  intros (code & message & block & bodies & ->) N.
  exists code, message, block. destruct bodies as [|b bodies]; [reflexivity|].
  exfalso. apply (N b). right. now left.
Qed.




(** Whatever the peer does, the pieces [copyfileobj] got written are the
    source up to some byte. *)
Lemma copyfileobj_prefix (fuel : nat) :
  forall (source : string) (st : hstate),
  exists bodies rest,
    wfile (snd (copyfileobj fuel source st)) = (wfile st ++ map Body bodies)%list
    /\ source = body_of (map Body bodies) ++ rest.
Proof.
  induction fuel as [|fuel IH]; intros source st.
  - exists [], source. split; [cbn; now rewrite app_nil_r | reflexivity].
  - cbn [copyfileobj].
    pose proof (read_app COPY_BUFSIZE source) as A.
    destruct (read COPY_BUFSIZE source) as [buf rest]. cbn [fst snd] in A.
    destruct (nonempty buf).
    + unfold bind. unfold write at 1.
      destruct (sock st) as [|[|n] e].
      * match goal with |- context [copyfileobj fuel rest ?st'] =>
          destruct (IH rest st') as (bodies & rest' & W & E) end.
        exists (buf :: bodies), rest'. split.
        -- rewrite W. proj. now rewrite <- app_assoc.
        -- cbn [map body_of]. rewrite <- A, E. now rewrite append_assoc.
      * exists [], source. split; [cbn; now rewrite app_nil_r | reflexivity].
      * match goal with |- context [copyfileobj fuel rest ?st'] =>
          destruct (IH rest st') as (bodies & rest' & W & E) end.
        exists (buf :: bodies), rest'. split.
        -- rewrite W. proj. now rewrite <- app_assoc.
        -- cbn [map body_of]. rewrite <- A, E. now rewrite append_assoc.
    + exists [], source. split; [cbn; now rewrite app_nil_r | reflexivity].
Qed.

(** X18: whatever the peer does, and whatever exception its disconnect
    raises, the bytes of the body that reached the socket when the GET of a
    regular file ends are the file up to some byte: nothing is sent twice,
    out of order or from elsewhere. *)
Theorem interrupted_transfer_sends_a_prefix (lib : pylib) (directory : string)
    (root : FS.node) (req : request) (mtime : Z) (data : string) (p : peer) :
  command req = GET -> path req <> "/favicon.ico" ->
  resolve directory root (translate_path directory (path req))
  = Some (FS.File mtime data) ->
  not_modified lib req mtime = false ->
  exists rest,
    data = body_of (wfile (snd (handle lib directory root req (fresh p)))) ++ rest.
Proof.
  intros Hc Hp R NM.
  destruct (accepts_write p) eqn:Ap.
  - assert (Hm : served_method req) by (unfold served_method; now rewrite Hc).
    pose proof (send_head_file_run lib directory root req mtime data p R Ap) as E.
    rewrite NM in E.
    rewrite (handle_send_head lib directory root req _ _ _ Hm E), Hc.
    unfold try_except, copyfile.
    match goal with |- context [copyfileobj ?fuel data ?st] =>
      destruct (copyfileobj_prefix fuel data st) as (bodies & rest & W & D);
      destruct (copyfileobj fuel data st) as [[[]|e] st'] eqn:C end;
      cbn [snd wfile] in W.
    + exists rest. proj. rewrite W. exact D.
    + exists rest. destruct (is_disconnect e); unfold ret; proj; rewrite W; exact D.
  - exists data. destruct p as [|[|n] e]; try discriminate.
    destruct (keeps_nothing_written lib directory root req e (fresh (Closes 0 e)))
      as [W _]; [now split|].
    now rewrite W.
Qed.


Lemma interrupted_transfer_sends_a_prefix_witness :
  exists rest,
    Examples.bytes 500
    = body_of (wfile (snd (Examples.serve Examples.recordings
                             (Examples.get "/recording.wav" [])
                             (Closes 1 BrokenPipeError)))) ++ rest.
Proof.
  apply (interrupted_transfer_sends_a_prefix Examples.sample_lib "/srv/rec"
           Examples.recordings (Examples.get "/recording.wav" []) 1000
           (Examples.bytes 500) (Closes 1 BrokenPipeError));
    [reflexivity | discriminate | reflexivity | reflexivity].
Defined.


(** X15: whatever the request, the directory served and the behaviour of
    the peer, every block of header lines the handler writes is made of
    lines the inherited methods buffered (a status line, [Server], [Date],
    and the like) followed by the lines the overridden [end_headers] adds:
    the three CORS lines, the two audio lines when the path ends in a
    listed suffix, and the empty line, last. *)
Theorem header_block_shape (lib : pylib) (directory : string) (root : FS.node)
    (req : request) (p : peer) :
  every_head (block_shape req)
    (wfile (snd (handle lib directory root req (fresh p)))).
Proof.
  assert (K : preserves
                (fun st => every_head (block_shape req) (wfile st)
                           /\ (accepts_write (sock st) = true ->
                               Forall base_line (headers_buffer st)))
                (handle lib directory root req)).
  { apply keeps_handle.
    - intros line B st [H1 H2]. split; [exact H1|].
      intros A. cbn [snd push_header headers_buffer sock] in *.
      apply Forall_app. split; [now apply H2 | now constructor].
    - intros b st H. exact H.
    - intros c st H. exact H.
    - intros data st [H1 H2]. unfold write.
      destruct (sock st) as [|[|n] e] eqn:E; cbn [snd wfile headers_buffer sock].
      + split; [|intros _; now apply H2].
        intros block I. apply in_app_or in I as [I|[I|[]]];
          [now apply H1 | discriminate].
      + rewrite E. split; [exact H1 | discriminate].
      + split; [|intros _; now apply H2].
        intros block I. apply in_app_or in I as [I|[I|[]]];
          [now apply H1 | discriminate].
    - intros st [H1 H2]. rewrite end_headers_run.
      destruct (sock st) as [|[|n] e] eqn:E; cbn [snd wfile headers_buffer sock].
      + split; [|intros _; constructor].
        intros block I. apply in_app_or in I as [I|[I|[]]]; [now apply H1|].
        injection I as <-. eexists. split; [reflexivity | now apply H2].
      + split; [exact H1 | discriminate].
      + split; [|intros _; constructor].
        intros block I. apply in_app_or in I as [I|[I|[]]]; [now apply H1|].
        injection I as <-. eexists. split; [reflexivity | now apply H2].
    - intros code st H. rewrite log_request_run.
      now destruct (contains_any logged_extensions (path req)).
    - intros code message st H. now rewrite log_error_code_run. }
  apply (K (fresh p)). split; [now intros block [] | intros _; constructor].
Qed.

Section Confined.

Variable I : hstate -> Prop.
Variable lib : pylib.
Variable directory : string.
Variable root : FS.node.
Variable req : request.

Hypothesis I_push : forall line, preserves I (push_header line).
Hypothesis I_close : forall b, preserves I (set_close_connection b).
Hypothesis I_fs :
  forall c, In (fs_path c) (looked_up directory req) -> preserves I (fs_call_made c).
Hypothesis I_body : forall data, preserves I (write (Body data)).
Hypothesis I_end : preserves I (end_headers req).
Hypothesis I_log_request :
  forall code, preserves I (log_request req log_message code).
Hypothesis I_log_error :
  forall code message,
    preserves I (log_error "code %d, message %s" [PInt code; PStr message]).

Lemma keeps_confined : preserves I (handle lib directory root req).
Proof.
  unfold handle, do_GET, do_OPTIONS, do_HEAD, base_do_GET, copyfile,
    send_head, send_file_head, list_directory, send_error,
    send_response, send_response_only, send_header,
    os_path_isdir, os_path_isfile, os_open, os_listdir.
  repeat pres_step; auto;
    try (apply I_fs; unfold looked_up, fs_path; cbn [In]; tauto).
  apply keeps_copyfileobj; auto.
Qed.

End Confined.




(** When the peer is gone before the first write, every path through the
    inherited methods reaches [end_headers], whose write raises. *)
Section Gone.

Variable e : exn.
Variable lib : pylib.
Variable directory : string.
Variable root : FS.node.
Variable req : request.

Lemma raises_bind {A B : Type} (m : M A) (k : A -> M B) :
  raises (gone e) m e -> raises (gone e) (bind m k) e.
Proof.
  intros Hm st H. unfold bind. specialize (Hm st H).
  destruct (m st) as [[a|e'] st']; cbn [fst] in *; [discriminate|].
  now injection Hm as ->.
Qed.

Lemma raises_after {A B : Type} (m : M A) (k : A -> M B) :
  steps (gone e) m (gone e) -> (forall a, raises (gone e) (k a) e) ->
  raises (gone e) (bind m k) e.
Proof.
  intros Hm Hk st H. unfold bind. destruct (Hm st H) as [[a Ea] G].
  destruct (m st) as [[a'|e'] st']; cbn [fst snd] in *; [|discriminate].
  now apply Hk.
Qed.

Lemma gone_fs (c : fs_call) : steps (gone e) (fs_call_made c) (gone e).
Proof. intros st H. split; [now exists tt | exact H]. Qed.

Lemma gone_send_header (keyword value : string) :
  steps (gone e) (send_header keyword value) (gone e).
Proof.
  intros st H. unfold send_header, bind, push_header, set_close_connection, ret.
  destruct (String.eqb (lower keyword) "connection");
    [destruct (String.eqb (lower value) "close");
     [|destruct (String.eqb (lower value) "keep-alive")]|];
    (split; [now exists tt | exact H]).
Qed.

Lemma gone_send_response (code : nat) (message : option string) :
  steps (gone e) (send_response lib req log_message code message) (gone e).
Proof.
  unfold send_response, send_response_only.
  apply steps_bind with (R := gone e);
    [|intros; apply steps_bind with (R := gone e);
      [|intros; apply steps_bind with (R := gone e)]].
  - intros st H. rewrite log_request_run.
    destruct (contains_any logged_extensions (path req));
      (split; [now exists tt | exact H]).
  - intros st H. split; [now exists tt | exact H].
  - apply gone_send_header.
  - intros; apply gone_send_header.
Qed.

Lemma gone_log_error (code : nat) (message : string) :
  steps (gone e) (log_error "code %d, message %s" [PInt code; PStr message]) (gone e).
Proof.
  intros st H. rewrite log_error_code_run. split; [now exists tt | exact H].
Qed.

Lemma raises_end_headers : raises (gone e) (end_headers req) e.
Proof. intros st H. rewrite end_headers_run. unfold gone in H. now rewrite H. Qed.

Ltac then_step lemma := apply raises_after; [apply lemma | intros].

Lemma raises_send_error (code : nat) (message : string) :
  raises (gone e)
    (send_error lib req (end_headers req) log_message log_error code message) e.
Proof.
  unfold send_error.
  then_step gone_log_error. then_step gone_send_response. then_step gone_send_header.
  destruct ((200 <=? code)%nat && _); [|apply raises_end_headers].
  then_step gone_send_header. then_step gone_send_header.
  apply raises_bind, raises_end_headers.
Qed.

Ltac fs_step x :=
  apply raises_after;
  [eapply steps_bind; [apply gone_fs | intros; apply steps_ret] | intros x].

Lemma raises_list_directory (p : string) :
  raises (gone e)
    (list_directory lib directory root req (end_headers req) log_message
       log_error p) e.
Proof.
  unfold list_directory, os_listdir.
  fs_step l. destruct l as [entries|].
  - then_step gone_send_response. then_step gone_send_header.
    then_step gone_send_header. apply raises_bind, raises_end_headers.
  - apply raises_bind, raises_send_error.
Qed.

Lemma raises_send_file_head (p : string) :
  raises (gone e)
    (send_file_head lib directory root req (end_headers req) log_message
       log_error (guess_type lib) p) e.
Proof.
  unfold send_file_head, os_open.
  destruct (endswith p "/"); [apply raises_bind, raises_send_error|].
  fs_step f.
  destruct f as [[mtime data]|]; [|apply raises_bind, raises_send_error].
  match goal with |- raises _ (if ?b then _ else _) _ => destruct b end.
  - then_step gone_send_response. apply raises_bind, raises_end_headers.
  - then_step gone_send_response. then_step gone_send_header.
    then_step gone_send_header. then_step gone_send_header.
    apply raises_bind, raises_end_headers.
Qed.

Lemma raises_send_head :
  raises (gone e)
    (send_head lib directory root req (end_headers req) log_message log_error
       (guess_type lib)) e.
Proof.
  unfold send_head, os_path_isdir, os_path_isfile.
  fs_step isdir. destruct isdir; [|apply raises_send_file_head].
  match goal with |- raises _ (if ?b then _ else _) _ => destruct b end.
  - then_step gone_send_response. then_step gone_send_header.
    then_step gone_send_header. apply raises_bind, raises_end_headers.
  - fs_step i1. destruct i1; [apply raises_send_file_head|].
    fs_step i2.
    destruct i2; [apply raises_send_file_head | apply raises_list_directory].
Qed.

End Gone.




Lemma send_head_redirect_run (lib : pylib) (directory : string) (root : FS.node)
    (req : request) (es : list (string * FS.node)) :
  let p := translate_path directory (path req) in
  resolve directory root p = Some (FS.Dir es) ->
  endswith (urlsplit_path lib (path req)) "/" = false ->
  send_head lib directory root req (end_headers req) log_message log_error
    (guess_type lib) (fresh Connected)
  = (inl None,
     {| headers_buffer := [];
        close_connection := true;
        wfile :=
          [Head ([status_line 301 "Moved Permanently";
                  header_line "Server" (version_string lib);
                  header_line "Date" (date_time_string lib None);
                  header_line "Location" (redirect_url lib (path req));
                  header_line "Content-Length" "0"]
                 ++ closing_lines req)];
        stdout := request_log req 301;
        fs_calls := [Isdir p];
        sock := Connected |}).
Proof.
  cbv zeta. intros R U. unfold send_head, os_path_isdir.
  unfold bind at 1. unfold bind at 1. unfold fs_call_made, ret, fresh. proj.
  rewrite R. cbn [FS.is_dir]. cbv iota. rewrite U. cbn [negb]. cbv iota.
  unfold bind at 1. rewrite send_response_run.
  unfold bind at 1. rewrite send_header_run by reflexivity. unfold push_header. proj.
  unfold bind at 1. rewrite send_header_run by reflexivity. unfold push_header. proj.
  unfold bind at 1. rewrite end_headers_run. proj. reflexivity.
Qed.

Lemma send_head_listing_run (lib : pylib) (directory : string) (root : FS.node)
    (req : request) (es : list (string * FS.node)) :
  let p := translate_path directory (path req) in
  let page :=
    listing_page lib (path req) (map (fun e => (fst e, FS.is_dir (snd e))) es) in
  resolve directory root p = Some (FS.Dir es) ->
  endswith (urlsplit_path lib (path req)) "/" = true ->
  no_file_at directory root (os_path_join p "index.html") ->
  no_file_at directory root (os_path_join p "index.htm") ->
  send_head lib directory root req (end_headers req) log_message log_error
    (guess_type lib) (fresh Connected)
  = (inl (Some page),
     {| headers_buffer := [];
        close_connection := true;
        wfile :=
          [Head ([status_line 200 "OK";
                  header_line "Server" (version_string lib);
                  header_line "Date" (date_time_string lib None);
                  header_line "Content-type" "text/html; charset=utf-8";
                  header_line "Content-Length" (str_nat (String.length page))]
                 ++ closing_lines req)];
        stdout := request_log req 200;
        fs_calls := [Isdir p; Isfile (os_path_join p "index.html");
                     Isfile (os_path_join p "index.htm"); Listdir p];
        sock := Connected |}).
Proof.
  cbv zeta. intros R U N1 N2. unfold send_head, os_path_isdir.
  unfold bind at 1. unfold bind at 1. unfold fs_call_made, ret, fresh. proj.
  rewrite R. cbn [FS.is_dir]. cbv iota. rewrite U. cbn [negb]. cbv iota.
  unfold os_path_isfile.
  unfold bind at 1. unfold bind at 1. unfold fs_call_made, ret. proj.
  assert (F1 : match resolve directory root
                       (os_path_join (translate_path directory (path req)) "index.html")
               with Some n => FS.is_file n | None => false end = false).
  { unfold no_file_at in N1.
    now destruct (resolve directory root
                    (os_path_join (translate_path directory (path req)) "index.html")). }
  rewrite F1. cbv iota.
  unfold bind at 1. unfold bind at 1. unfold fs_call_made, ret. proj.
  assert (F2 : match resolve directory root
                       (os_path_join (translate_path directory (path req)) "index.htm")
               with Some n => FS.is_file n | None => false end = false).
  { unfold no_file_at in N2.
    now destruct (resolve directory root
                    (os_path_join (translate_path directory (path req)) "index.htm")). }
  rewrite F2. cbv iota.
  unfold list_directory, os_listdir.
  unfold bind at 1. unfold bind at 1. unfold fs_call_made, ret. proj.
  rewrite R. cbv iota.
  unfold bind at 1. rewrite send_response_run.
  unfold bind at 1. rewrite send_header_run by reflexivity. unfold push_header. proj.
  unfold bind at 1. rewrite send_header_run by reflexivity. unfold push_header. proj.
  unfold bind at 1. rewrite end_headers_run. proj. reflexivity.
Qed.





Lemma base_line_status (c : nat) (m : string) (rest : list string) (line : string) :
  base_line line -> line = status_line c m ->
  exists code message, line = status_line code message /\ In code status_codes.
Proof.
  intros B E. destruct B as [code message C|keyword value K].
  - now exists code, message.
  - exfalso. unfold base_keywords in K. cbn [In] in K.
    repeat (destruct K as [<-|K]; [discriminate E|]). exact K.
Qed.



End ResponseFacts.
